(** * The contact-form submission handler of [app/routes/app._index.jsx]

    A shallow embedding of the route's [action] (server side of the
    "contact us" form) together with the three helpers it uses
    ([validateEmail], [validateName], [validatePhone]) and the nested
    [fallbackToDatabase].

    - JavaScript strings are sequences of UTF-16 code units: [list N].
    - [FormData] and the [errors] object are finite maps keyed by strings.
    - The handler is asynchronous code with exceptions that calls three
      outside services (HubSpot, Prisma, Resend).  It is embedded in a
      state-and-exception monad over a [World] that holds the
      [ContactForm] table, the list of calls made to the outside and the
      console; how each outside service answers one request is given by
      an [Env] record, next to [process.env].
    - The handler is modelled from the point where
      [authenticate.admin(request)] and [request.formData()] have
      returned; a field of the form is a string or absent, as in a
      form-encoded body. *)

From Stdlib Require Import NArith List String Ascii Bool Lia.
From stdpp Require Import base option list strings gmap.

Local Open Scope N_scope.

(** ** JavaScript strings *)

Definition jsstring := list N.

(** A string literal of the source (all of them are ASCII). *)
Definition lit (s : string) : jsstring :=
  map N_of_ascii (list_ascii_of_string s).

(** ECMAScript [WhiteSpace] and [LineTerminator] code points: what
    [String.prototype.trim] removes and what [\s] matches. *)
Definition isWhiteSpace (c : N) : bool :=
  ((9 <=? c) && (c <=? 13))
  || (c =? 32) || (c =? 0xA0) || (c =? 0x1680)
  || ((0x2000 <=? c) && (c <=? 0x200A))
  || (c =? 0x2028) || (c =? 0x2029) || (c =? 0x202F)
  || (c =? 0x205F) || (c =? 0x3000) || (c =? 0xFEFF).

Definition isUpper (c : N) : bool := (65 <=? c) && (c <=? 90).
Definition isLower (c : N) : bool := (97 <=? c) && (c <=? 122).
Definition isLetter (c : N) : bool := isUpper c || isLower c.
Definition isDigit (c : N) : bool := (48 <=? c) && (c <=? 57).

Fixpoint dropWhile (p : N -> bool) (s : jsstring) : jsstring :=
  match s with
  | [] => []
  | c :: s' => if p c then dropWhile p s' else s
  end.

Definition trimStart (s : jsstring) : jsstring := dropWhile isWhiteSpace s.
Definition trimEnd (s : jsstring) : jsstring := rev (dropWhile isWhiteSpace (rev s)).

(** [s.trim()] *)
Definition trim (s : jsstring) : jsstring := trimEnd (trimStart s).

(** [s.toLowerCase()] on the Basic Latin letters.  The handler applies it
    only to an email that has passed [validateEmail], whose code units
    are all ASCII (lemma [validateEmail_ascii] below), where this is the
    whole of the ECMAScript mapping. *)
Definition lowerUnit (c : N) : N := if isUpper c then c + 32 else c.
Definition toLowerCase (s : jsstring) : jsstring := map lowerUnit s.

Definition jsstring_eqb (a b : jsstring) : bool := bool_decide (a = b).

(** Truthiness of a value that is a string, [null] or [undefined]. *)
Definition truthy (v : option jsstring) : bool :=
  match v with
  | Some (_ :: _) => true
  | _ => false
  end.

(** [`${v}`] for a value that is a string or [null]. *)
Definition interpolate (v : option jsstring) : jsstring :=
  match v with
  | Some s => s
  | None => lit "null"
  end.

(** ** Regular expressions

    The three patterns of the source are anchored at both ends and use
    only character classes, concatenation, [+] and [{2,}]; [test] is
    therefore membership of the whole string in a regular language,
    decided here with derivatives. *)

Inductive regex : Type :=
| Void : regex
| Eps : regex
| Class : (N -> bool) -> regex
| Cat : regex -> regex -> regex
| Alt : regex -> regex -> regex
| Star : regex -> regex.

Definition Plus (r : regex) : regex := Cat r (Star r).
Definition AtLeast2 (r : regex) : regex := Cat r (Cat r (Star r)).

Fixpoint nullable (r : regex) : bool :=
  match r with
  | Void => false
  | Eps => true
  | Class _ => false
  | Cat r1 r2 => nullable r1 && nullable r2
  | Alt r1 r2 => nullable r1 || nullable r2
  | Star _ => true
  end.

Fixpoint deriv (c : N) (r : regex) : regex :=
  match r with
  | Void => Void
  | Eps => Void
  | Class p => if p c then Eps else Void
  | Cat r1 r2 =>
      if nullable r1 then Alt (Cat (deriv c r1) r2) (deriv c r2)
      else Cat (deriv c r1) r2
  | Alt r1 r2 => Alt (deriv c r1) (deriv c r2)
  | Star r1 => Cat (deriv c r1) (Star r1)
  end.

Fixpoint test (r : regex) (s : jsstring) : bool :=
  match s with
  | [] => nullable r
  | c :: s' => test (deriv c r) s'
  end.

(** ** Validation utility functions *)

Definition isOneOf (cs : string) (c : N) : bool :=
  existsb (N.eqb c) (lit cs).

(** [[a-zA-Z0-9._%+-]] *)
Definition localClass (c : N) : bool := isLetter c || isDigit c || isOneOf "._%+-" c.
(** [[a-zA-Z0-9.-]] *)
Definition domainClass (c : N) : bool := isLetter c || isDigit c || isOneOf ".-" c.
(** [[a-zA-Z\s'-]] *)
Definition nameClass (c : N) : bool := isLetter c || isWhiteSpace c || isOneOf "'-" c.

(** [/^[a-zA-Z0-9._%+-]+@[a-zA-Z0-9.-]+\.[a-zA-Z]{2,}$/] *)
Definition emailPattern : regex :=
  Cat (Plus (Class localClass))
    (Cat (Class (isOneOf "@"))
       (Cat (Plus (Class domainClass))
          (Cat (Class (isOneOf ".")) (AtLeast2 (Class isLetter))))).

Definition validateEmail (email : jsstring) : bool := test emailPattern email.

(** [/^[a-zA-Z\s'-]+$/] *)
Definition namePattern : regex := Plus (Class nameClass).

Definition validateName (name : jsstring) : bool :=
  test namePattern name && (2 <=? length (trim name))%nat.

Definition validatePhone (phoneNumber : jsstring) (countryCode : option jsstring) : bool :=
  if negb (truthy (Some phoneNumber)) || jsstring_eqb (trim phoneNumber) [] then true
  else
    let cleanPhone := List.filter isDigit phoneNumber in
    (7 <=? length cleanPhone)%nat && (length cleanPhone <=? 12)%nat.


(** ** The outside world *)

(** A row of the [ContactForm] table, as the handler writes it ([id],
    [createdAt] and [updatedAt] are filled in by the store). *)
Module ContactForm.
Record t : Type := mk {
  firstName : jsstring;
  lastName : jsstring;
  email : jsstring;
  phone : option jsstring;
  questions : jsstring }.
End ContactForm.

(** The [properties] of a HubSpot contact. *)
Module Hubspot.
Record t : Type := mk {
  firstname : jsstring;
  lastname : jsstring;
  email : jsstring;
  phone : option jsstring;
  hs_content_membership_notes : jsstring }.
End Hubspot.

(** The argument of [resend.emails.send]. *)
Module Resend.
Record t : Type := mk {
  from : jsstring;
  to : jsstring;
  subject : jsstring;
  html : jsstring }.
End Resend.

Inductive exn : Type :=
| Error (cause : string)
| TypeError (cause : string).

(** Calls that leave the process, in the order they are made. *)
Inductive call : Type :=
| HubspotCreate (properties : Hubspot.t)
| PrismaFindFirst (where_email : jsstring)
| PrismaCreate (data : ContactForm.t)
| ResendSend (mail : Resend.t).

Inductive console_entry : Type :=
| ConsoleLog (text : string)
| ConsoleError (text : string) (cause : exn).

Record World : Type := mkWorld {
  contactForm : list ContactForm.t;
  calls : list call;
  console : list console_entry }.

(** [process.env] and, for the request at hand, whether each outside
    operation returns ([None]) or throws ([Some e]). *)
Record Env : Type := mkEnv {
  HUBSPOT_API_KEY : option jsstring;
  RESEND_API_KEY : option jsstring;
  hubspot_Client_fault : option exn;
  hubspot_create_fault : option exn;
  prisma_findFirst_fault : option exn;
  prisma_create_fault : option exn;
  resend_Resend_fault : option exn;
  resend_send_fault : option exn }.

(** ** Asynchronous code with exceptions *)

Inductive completion (A : Type) : Type :=
| Normal (a : A)
| Throw (e : exn).
Arguments Normal {A} a.
Arguments Throw {A} e.

Definition Async (A : Type) : Type := World -> completion A * World.

#[export] Instance Async_ret : MRet Async := fun A a w => (Normal a, w).
#[export] Instance Async_bind : MBind Async := fun A B f m w =>
  match m w with
  | (Normal a, w') => f a w'
  | (Throw e, w') => (Throw e, w')
  end.

#[export] Instance Async_fmap : FMap Async := fun A B f m w =>
  match m w with
  | (Normal a, w') => (Normal (f a), w')
  | (Throw e, w') => (Throw e, w')
  end.

Definition throw {A : Type} (e : exn) : Async A := fun w => (Throw e, w).

(** [try { body } catch (e) { handler(e) }] *)
Definition tryCatch {A : Type} (body : Async A) (handler : exn -> Async A) : Async A :=
  fun w =>
    match body w with
    | (Normal a, w') => (Normal a, w')
    | (Throw e, w') => handler e w'
    end.

Definition faulty (fault : option exn) : Async unit :=
  match fault with
  | Some e => throw e
  | None => mret tt
  end.

Definition gets {A : Type} (f : World -> A) : Async A := fun w => (Normal (f w), w).
Definition modify (f : World -> World) : Async unit := fun w => (Normal tt, f w).

Definition record_call (c : call) : Async unit :=
  modify (fun w => mkWorld (contactForm w) (calls w ++ [c]) (console w)).

Definition console_log (text : string) : Async unit :=
  modify (fun w => mkWorld (contactForm w) (calls w) (console w ++ [ConsoleLog text])).

Definition console_error (text : string) (cause : exn) : Async unit :=
  modify (fun w => mkWorld (contactForm w) (calls w) (console w ++ [ConsoleError text cause])).

(** [v.trim()] where [v] may be [null]. *)
Definition dot_trim (v : option jsstring) : Async jsstring :=
  match v with
  | Some s => mret (trim s)
  | None => throw (TypeError "Cannot read properties of null (reading 'trim')")
  end.

(** [prisma.contactForm.findFirst({ where: { email } })] *)
Definition prisma_contactForm_findFirst (env : Env) (email : jsstring)
  : Async (option ContactForm.t) :=
  record_call (PrismaFindFirst email);;
  faulty (prisma_findFirst_fault env);;
  gets (fun w => List.find (fun row => jsstring_eqb (ContactForm.email row) email)
                    (contactForm w)).

(** [prisma.contactForm.create({ data })]; a create that throws writes
    no row. *)
Definition prisma_contactForm_create (env : Env) (data : ContactForm.t) : Async unit :=
  record_call (PrismaCreate data);;
  faulty (prisma_create_fault env);;
  modify (fun w => mkWorld (contactForm w ++ [data]) (calls w) (console w)).

(** [new Client({ accessToken })] *)
Definition new_Client (env : Env) (accessToken : option jsstring) : Async unit :=
  faulty (hubspot_Client_fault env).

(** [hubspotClient.crm.contacts.basicApi.create({ properties })] *)
Definition hubspot_contacts_create (env : Env) (properties : Hubspot.t) : Async unit :=
  record_call (HubspotCreate properties);;
  faulty (hubspot_create_fault env).

(** [new Resend(key)], which throws when it has no key to work with. *)
Definition new_Resend (env : Env) (key : option jsstring) : Async unit :=
  faulty (resend_Resend_fault env).

(** [resend.emails.send(mail)] *)
Definition resend_emails_send (env : Env) (mail : Resend.t) : Async unit :=
  record_call (ResendSend mail);;
  faulty (resend_send_fault env).

(** ** The action *)

Record Result : Type := mkResult {
  success : bool;
  message : jsstring;
  errors : option (gmap string jsstring) }.

(** *** Server-side validation

    Each [if ... else if ...] chain of the source, as the update it makes
    to the [errors] object. *)

Definition check_firstName (firstName : option jsstring) (errors : gmap string jsstring)
  : gmap string jsstring :=
  match trim <$> firstName with
  | None | Some [] => <["firstName" := lit "First name is required"]> errors
  | Some t =>
      if (length t <? 2)%nat then <["firstName" := lit "At least 2 characters"]> errors
      else if (50 <? length t)%nat then <["firstName" := lit "Max 50 characters"]> errors
      else if negb (validateName t) then
        <["firstName" := lit "Only letters, spaces, - and '"]> errors
      else errors
  end.

Definition check_lastName (lastName : option jsstring) (errors : gmap string jsstring)
  : gmap string jsstring :=
  match trim <$> lastName with
  | None | Some [] => <["lastName" := lit "Last name is required"]> errors
  | Some t =>
      if (length t <? 2)%nat then <["lastName" := lit "At least 2 characters"]> errors
      else if (50 <? length t)%nat then <["lastName" := lit "Max 50 characters"]> errors
      else if negb (validateName t) then
        <["lastName" := lit "Only letters, spaces, - and '"]> errors
      else errors
  end.

Definition check_email (email : option jsstring) (errors : gmap string jsstring)
  : gmap string jsstring :=
  match trim <$> email with
  | None | Some [] => <["email" := lit "Email is required"]> errors
  | Some t =>
      if (254 <? length t)%nat then <["email" := lit "Email too long"]> errors
      else if negb (validateEmail t) then <["email" := lit "Invalid email"]> errors
      else errors
  end.

Definition check_phoneNumber (phoneNumber countryCode : option jsstring)
    (errors : gmap string jsstring) : gmap string jsstring :=
  match trim <$> phoneNumber with
  | None | Some [] => errors
  | Some t =>
      if negb (validatePhone t countryCode) then
        <["phoneNumber" := lit "Invalid phone number format"]> errors
      else errors
  end.

Definition check_questions (questions : option jsstring) (errors : gmap string jsstring)
  : gmap string jsstring :=
  match trim <$> questions with
  | None | Some [] => <["questions" := lit "Questions field is required"]> errors
  | Some t =>
      if (length t <? 10)%nat then <["questions" := lit "Minimum 10 characters"]> errors
      else if (1000 <? length t)%nat then <["questions" := lit "Max 1000 characters"]> errors
      else errors
  end.

Definition validation (firstName lastName email countryCode phoneNumber questions
    : option jsstring) : gmap string jsstring :=
  let errors : gmap string jsstring := ∅ in
  let errors := check_firstName firstName errors in
  let errors := check_lastName lastName errors in
  let errors := check_email email errors in
  let errors := check_phoneNumber phoneNumber countryCode errors in
  let errors := check_questions questions errors in
  errors.

(** *** Results *)

Definition invalidResult (errors : gmap string jsstring) : Result :=
  mkResult false (lit "Please fix the validation errors") (Some errors).

Definition duplicateResult : Result :=
  mkResult false
    (lit "A submission with this email already exists. Please use a different email or contact support.")
    None.

Definition successResult : Result :=
  mkResult true (lit "Form submitted successfully! Our team will contact you soon.") None.

Definition failureResult : Result :=
  mkResult false (lit "Failed to submit form. Please try again later.") None.

(** *** The notification email *)

Definition nl : jsstring := [10].
Definition indent : jsstring := lit "        ".

Definition notification_html (firstName lastName email phone questions : option jsstring)
  : jsstring :=
  nl ++ indent ++ lit "<h2>New Contact Form Submission</h2>" ++
  nl ++ indent ++ lit "<p><strong>First Name:</strong> " ++ interpolate firstName ++ lit "</p>" ++
  nl ++ indent ++ lit "<p><strong>Last Name:</strong> " ++ interpolate lastName ++ lit "</p>" ++
  nl ++ indent ++ lit "<p><strong>Email:</strong> " ++ interpolate email ++ lit "</p>" ++
  nl ++ indent ++ (if truthy phone
                   then lit "<p><strong>Phone:</strong> " ++ interpolate phone ++ lit "</p>"
                   else []) ++
  nl ++ indent ++ lit "<p><strong>Questions:</strong></p>" ++
  nl ++ indent ++ lit "<p>" ++ interpolate questions ++ lit "</p>" ++
  nl ++ lit "      ".

Definition notification (firstName lastName email phone questions : option jsstring)
  : Resend.t :=
  Resend.mk
    (lit "onboarding@resend.dev")
    (lit "abhinav.kavuluru@i95dev.com")
    (lit "New Contact Form Submission")
    (notification_html firstName lastName email phone questions).

(** [phone?.trim() || null] *)
Definition phone_or_null (phone : option jsstring) : option jsstring :=
  if truthy (trim <$> phone) then trim <$> phone else None.

(** *** Helper function for fallback to Prisma + Resend

    A closure of [action] in the source; the constants it captures are
    its parameters here. *)
Definition fallbackToDatabase (env : Env)
    (firstName lastName email phone questions : option jsstring) : Async Result :=
  console_log "Falling back to database and email notification";;
  where_email ← toLowerCase <$> dot_trim email;
  existing ← prisma_contactForm_findFirst env where_email;
  match existing with
  | Some _ => mret duplicateResult
  | None =>
      firstName' ← dot_trim firstName;
      lastName' ← dot_trim lastName;
      email' ← toLowerCase <$> dot_trim email;
      questions' ← dot_trim questions;
      prisma_contactForm_create env
        (ContactForm.mk firstName' lastName' email' (phone_or_null phone) questions');;
      new_Resend env (RESEND_API_KEY env);;
      resend_emails_send env (notification firstName lastName email phone questions);;
      mret successResult
  end.

(** The [try] block around the HubSpot call. *)
Definition createHubspotContact (env : Env)
    (firstName lastName email phone questions : option jsstring) : Async Result :=
  console_log "Attempting to create HubSpot contact";;
  new_Client env (HUBSPOT_API_KEY env);;
  firstname ← dot_trim firstName;
  lastname ← dot_trim lastName;
  email' ← toLowerCase <$> dot_trim email;
  phone' ← (if truthy phone then Some <$> dot_trim phone else mret None);
  notes ← dot_trim questions;
  hubspot_contacts_create env (Hubspot.mk firstname lastname email' phone' notes);;
  console_log "HubSpot contact created successfully";;
  mret successResult.

(** [countryCode && phoneNumber ? `${countryCode} ${phoneNumber.trim()}` : null] *)
Definition combinedPhone (countryCode phoneNumber : option jsstring) : option jsstring :=
  if truthy countryCode && truthy phoneNumber
  then Some (interpolate countryCode ++ lit " " ++ trim (interpolate phoneNumber))
  else None.

Definition action (env : Env) (formData : gmap string jsstring) : Async Result :=
  let firstName := formData !! "firstName" in
  let lastName := formData !! "lastName" in
  let email := formData !! "email" in
  let countryCode := formData !! "countryCode" in
  let phoneNumber := formData !! "phoneNumber" in
  let phone := combinedPhone countryCode phoneNumber in
  let questions := formData !! "questions" in
  let errors := validation firstName lastName email countryCode phoneNumber questions in
  if (0 <? size errors)%nat then mret (invalidResult errors)
  else
    tryCatch
      (if truthy (HUBSPOT_API_KEY env) then
         tryCatch
           (createHubspotContact env firstName lastName email phone questions)
           (fun hubspotError =>
              console_error "HubSpot creation failed, falling back to database:" hubspotError;;
              fallbackToDatabase env firstName lastName email phone questions)
       else
         console_log "No HubSpot API key found, using database fallback";;
         fallbackToDatabase env firstName lastName email phone questions)
      (fun error =>
         console_error "Form submission error:" error;;
         mret failureResult).



(** * Notions used in the statements *)

(** A string that does not start with white space. *)
Definition keeps_head (s : jsstring) : Prop :=
  match s with
  | [] => True
  | c :: _ => isWhiteSpace c = false
  end.

(** [email.trim().toLowerCase()], the key under which a submission is
    looked up and stored. *)
Definition normalizedEmail (email : jsstring) : jsstring := toLowerCase (trim email).


(** The language of a pattern: [matches r s] when the whole of [s] is
    matched by [r]. *)
Inductive matches : regex -> jsstring -> Prop :=
| matches_Eps : matches Eps []
| matches_Class (p : N -> bool) (c : N) : p c = true -> matches (Class p) [c]
| matches_Cat (r1 r2 : regex) (s1 s2 : jsstring) :
    matches r1 s1 -> matches r2 s2 -> matches (Cat r1 r2) (s1 ++ s2)
| matches_Alt_l (r1 r2 : regex) (s : jsstring) : matches r1 s -> matches (Alt r1 r2) s
| matches_Alt_r (r1 r2 : regex) (s : jsstring) : matches r2 s -> matches (Alt r1 r2) s
| matches_Star_nil (r : regex) : matches (Star r) []
| matches_Star_app (r : regex) (s1 s2 : jsstring) :
    matches r s1 -> matches (Star r) s2 -> matches (Star r) (s1 ++ s2).

(** ** The field rules in the words of the specification (section 4.1)

    Every rule is read on the trimmed value, which is what the rules for
    names and notes say and what the handler does throughout; "spaces"
    is read as white space. *)
Module Spec41.

Definition name_char (c : N) : bool :=
  isLetter c || isWhiteSpace c
  || bool_decide (c = N_of_ascii "-") || bool_decide (c = N_of_ascii "'").

(** Name fields: non-empty, 2-50 characters after trimming, characters
    restricted to letters/spaces/hyphen/apostrophe. *)
Definition name_ok (v : option jsstring) : Prop :=
  exists s, v = Some s /\
    trim s <> [] /\ (2 <= length (trim s) <= 50)%nat /\
    forallb name_char (trim s) = true.

(** A basic [local@domain.tld] shape. *)
Definition email_shape (t : jsstring) : Prop :=
  exists local domain tld,
    t = local ++ lit "@" ++ domain ++ lit "." ++ tld /\
    local <> [] /\ forallb localClass local = true /\
    domain <> [] /\ forallb domainClass domain = true /\
    (2 <= length tld)%nat /\ forallb isLetter tld = true.

(** Email: non-empty, at most 254 characters, of the basic shape. *)
Definition email_ok (v : option jsstring) : Prop :=
  exists s, v = Some s /\
    trim s <> [] /\ (length (trim s) <= 254)%nat /\ email_shape (trim s).

Definition digit_count (s : jsstring) : nat := length (List.filter isDigit s).

(** Phone: optional; if present, digit count after stripping non-digits
    must be 7-12.  A value is present when something is left of it
    after trimming. *)
Definition phone_ok (v : option jsstring) : Prop :=
  match v with
  | None => True
  | Some s => trim s = [] \/ (7 <= digit_count s <= 12)%nat
  end.

(** Free-text notes: non-empty, 10-1000 characters after trimming. *)
Definition notes_ok (v : option jsstring) : Prop :=
  exists s, v = Some s /\ trim s <> [] /\ (10 <= length (trim s) <= 1000)%nat.

Inductive field : Type := FirstName | LastName | Email | PhoneNumber | Questions.

(** The name of the field in the form and in the [errors] mapping. *)
Definition name (f : field) : string :=
  match f with
  | FirstName => "firstName"
  | LastName => "lastName"
  | Email => "email"
  | PhoneNumber => "phoneNumber"
  | Questions => "questions"
  end.

Definition passes (f : field) (formData : gmap string jsstring) : Prop :=
  match f with
  | FirstName | LastName => name_ok (formData !! name f)
  | Email => email_ok (formData !! name f)
  | PhoneNumber => phone_ok (formData !! name f)
  | Questions => notes_ok (formData !! name f)
  end.

End Spec41.

(** The messages the handler has for each field. *)
Definition messages (f : Spec41.field) : list jsstring :=
  match f with
  | Spec41.FirstName =>
      [lit "First name is required"; lit "At least 2 characters";
       lit "Max 50 characters"; lit "Only letters, spaces, - and '"]
  | Spec41.LastName =>
      [lit "Last name is required"; lit "At least 2 characters";
       lit "Max 50 characters"; lit "Only letters, spaces, - and '"]
  | Spec41.Email => [lit "Email is required"; lit "Email too long"; lit "Invalid email"]
  | Spec41.PhoneNumber => [lit "Invalid phone number format"]
  | Spec41.Questions =>
      [lit "Questions field is required"; lit "Minimum 10 characters";
       lit "Max 1000 characters"]
  end.

(** The errors the handler finds in a form. *)
Definition errorsOf (formData : gmap string jsstring) : gmap string jsstring :=
  validation (formData !! "firstName") (formData !! "lastName") (formData !! "email")
    (formData !! "countryCode") (formData !! "phoneNumber") (formData !! "questions").

(** The handler finds no error in the form. *)
Definition passes_validation (formData : gmap string jsstring) : Prop :=
  forall f, Spec41.passes f formData.

(** A CRM credential is configured. *)
Definition crm_configured (env : Env) : Prop := truthy (HUBSPOT_API_KEY env) = true.

(** The create-contact call is made and succeeds. *)
Definition crm_succeeds (env : Env) : Prop :=
  hubspot_Client_fault env = None /\ hubspot_create_fault env = None.

(** The create-contact call is made and fails with [cause]. *)
Definition crm_fails (env : Env) (cause : exn) : Prop :=
  hubspot_Client_fault env = None /\ hubspot_create_fault env = Some cause.

(** The request gets to [fallbackToDatabase]: no credential, or the
    [try] block around the CRM call throws. *)
Definition reaches_fallback (env : Env) : Prop :=
  truthy (HUBSPOT_API_KEY env) = false
  \/ hubspot_Client_fault env <> None \/ hubspot_create_fault env <> None.

(** The row stored under the normalized [email], if any. *)
Definition existing (table : list ContactForm.t) (email : jsstring) : option ContactForm.t :=
  List.find (fun row => jsstring_eqb (ContactForm.email row) (normalizedEmail email)) table.

(** Neither the store nor the email client throws. *)
Definition fallback_completes (env : Env) : Prop :=
  prisma_findFirst_fault env = None /\ prisma_create_fault env = None /\
  resend_Resend_fault env = None /\ resend_send_fault env = None.

(** The email client throws [cause], when constructed or when sending. *)
Definition email_fails (env : Env) (cause : exn) : Prop :=
  resend_Resend_fault env = Some cause
  \/ (resend_Resend_fault env = None /\ resend_send_fault env = Some cause).

(** An exception [cause] is raised in the fallback path started on
    [table] for [email]: by the duplicate-check query, by the insert, or
    by the email client. *)
Inductive raised_in_fallback (env : Env) (table : list ContactForm.t) (email : jsstring)
  : exn -> Prop :=
| raised_by_findFirst cause :
    prisma_findFirst_fault env = Some cause ->
    raised_in_fallback env table email cause
| raised_by_create cause :
    prisma_findFirst_fault env = None -> existing table email = None ->
    prisma_create_fault env = Some cause ->
    raised_in_fallback env table email cause
| raised_by_email cause :
    prisma_findFirst_fault env = None -> existing table email = None ->
    prisma_create_fault env = None -> email_fails env cause ->
    raised_in_fallback env table email cause.

(** What the handler hands to the outside for a form. *)
Definition trimmed (v : option jsstring) : jsstring := trim (interpolate v).

Definition phoneOf (formData : gmap string jsstring) : option jsstring :=
  combinedPhone (formData !! "countryCode") (formData !! "phoneNumber").

Definition rowOf (formData : gmap string jsstring) : ContactForm.t :=
  ContactForm.mk
    (trimmed (formData !! "firstName")) (trimmed (formData !! "lastName"))
    (normalizedEmail (interpolate (formData !! "email")))
    (phone_or_null (phoneOf formData))
    (trimmed (formData !! "questions")).

Definition propertiesOf (formData : gmap string jsstring) : Hubspot.t :=
  Hubspot.mk
    (trimmed (formData !! "firstName")) (trimmed (formData !! "lastName"))
    (normalizedEmail (interpolate (formData !! "email")))
    (if truthy (phoneOf formData) then Some (trimmed (phoneOf formData)) else None)
    (trimmed (formData !! "questions")).

Definition mailOf (formData : gmap string jsstring) : Resend.t :=
  notification (formData !! "firstName") (formData !! "lastName") (formData !! "email")
    (phoneOf formData) (formData !! "questions").

(** The calls made between two worlds. *)
Definition new_calls (w w' : World) : list call := drop (length (calls w)) (calls w').

(** Two strings that differ only by case or by leading and trailing
    white space. *)
Definition same_modulo_case_and_padding (e1 e2 : jsstring) : Prop :=
  exists pre1 core1 post1 pre2 core2 post2,
    e1 = pre1 ++ core1 ++ post1 /\ e2 = pre2 ++ core2 ++ post2 /\
    forallb isWhiteSpace (pre1 ++ post1 ++ pre2 ++ post2) = true /\
    Forall2 (fun a b => lowerUnit a = lowerUnit b) core1 core2.

(** At most one row per email address up to case and surrounding white
    space. *)
Definition one_row_per_email (table : list ContactForm.t) : Prop :=
  forall i j row1 row2,
    table !! i = Some row1 -> table !! j = Some row2 ->
    same_modulo_case_and_padding (ContactForm.email row1) (ContactForm.email row2) ->
    i = j.

(** Every row has the email in the form the handler writes it. *)
Definition normalized_rows (table : list ContactForm.t) : Prop :=
  Forall (fun row => normalizedEmail (ContactForm.email row) = ContactForm.email row) table.

(** Sequential submissions: each is handled to its end before the next. *)
Fixpoint submissions (requests : list (Env * gmap string jsstring)) (w : World)
  : list (completion Result) * World :=
  match requests with
  | [] => ([], w)
  | (env, formData) :: rest =>
      let '(r, w1) := action env formData w in
      let '(rs, w2) := submissions rest w1 in
      (r :: rs, w2)
  end.

(** The world after the calls [cs] and the console entries [es]. *)
Definition after (w : World) (table : list ContactForm.t) (cs : list call)
    (es : list console_entry) : World :=
  mkWorld table (calls w ++ cs) (console w ++ es).

(** The fallback under the outer [try]/[catch] of [action]. *)
Definition guardedFallback (env : Env) (formData : gmap string jsstring) : Async Result :=
  tryCatch
    (fallbackToDatabase env (formData !! "firstName") (formData !! "lastName")
       (formData !! "email") (phoneOf formData) (formData !! "questions"))
    (fun error => console_error "Form submission error:" error;; mret failureResult).

Definition findCall (formData : gmap string jsstring) : call :=
  PrismaFindFirst (normalizedEmail (interpolate (formData !! "email"))).

Definition fallbackLog : console_entry :=
  ConsoleLog "Falling back to database and email notification".

Definition failureLog (cause : exn) : console_entry :=
  ConsoleError "Form submission error:" cause.

Definition attemptLog : console_entry := ConsoleLog "Attempting to create HubSpot contact".
Definition createdLog : console_entry := ConsoleLog "HubSpot contact created successfully".
Definition noKeyLog : console_entry :=
  ConsoleLog "No HubSpot API key found, using database fallback".
Definition hubspotFailureLog (cause : exn) : console_entry :=
  ConsoleError "HubSpot creation failed, falling back to database:" cause.

(** ** Sample inputs *)

Module Sample.

Definition emptyWorld : World := mkWorld [] [] [].

(** No credential; every outside operation returns. *)
Definition quiet : Env := mkEnv None None None None None None None None.

Definition form (firstName lastName email questions : string) : gmap string jsstring :=
  <["firstName" := lit firstName]>
    (<["lastName" := lit lastName]>
       (<["email" := lit email]>
          (<["questions" := lit questions]> ∅))).

(** The example of the specification. *)
Definition jo : gmap string jsstring :=
  form "Jo" "Lee" "jo@acme.com" "We need integration help with billing sync".

Definition joAgain : gmap string jsstring :=
  form "Jo" "Lee" "  Jo@Acme.COM " "We need integration help with billing sync".

Definition notAnEmail : gmap string jsstring :=
  form "Jo" "Lee" "not-an-email" "We need integration help with billing sync".

(** Three fields break their rule. *)
Definition manyErrors : gmap string jsstring :=
  <["phoneNumber" := lit "12345"]> (form "J" "Lee" "not-an-email" "We need help with billing").

(** A phone number and a country code that are both white space only. *)
Definition blankPhone : gmap string jsstring :=
  <["countryCode" := lit " "]> (<["phoneNumber" := lit " "]> jo).

(** A phone number without a country code. *)
Definition phoneWithoutCode : gmap string jsstring :=
  <["phoneNumber" := lit "555-123-4567"]> jo.

Definition withKey (env : Env) : Env :=
  mkEnv (Some (lit "pat-na1-key")) (RESEND_API_KEY env)
    (hubspot_Client_fault env) (hubspot_create_fault env)
    (prisma_findFirst_fault env) (prisma_create_fault env)
    (resend_Resend_fault env) (resend_send_fault env).

(** A credential is configured and the create-contact call is refused. *)
Definition crmDown : Env :=
  mkEnv (Some (lit "pat-na1-key")) (Some (lit "re_key")) None (Some (Error "HTTP 401"))
    None None None None.

(** As [crmDown], and the email send is refused too. *)
Definition crmAndMailDown : Env :=
  mkEnv (Some (lit "pat-na1-key")) (Some (lit "re_key")) None (Some (Error "HTTP 401"))
    None None None (Some (Error "HTTP 403")).

(** No credential, and no key for the email client either. *)
Definition mailDown : Env :=
  mkEnv None None None None None None (Some (Error "Missing API key")) None.

Definition storeDown : Env :=
  mkEnv None None None None (Some (Error "P1001")) None None None.

(** As [crmDown], and the duplicate-check query is refused. *)
Definition crmAndStoreDown : Env :=
mkEnv (Some (lit "pat-na1-key")) (Some (lit "re_key")) None (Some (Error "HTTP 401"))
  (Some (Error "P1001")) None None None.

(** As [crmDown], and the insert is refused. *)
Definition crmAndInsertDown : Env :=
mkEnv (Some (lit "pat-na1-key")) (Some (lit "re_key")) None (Some (Error "HTTP 401"))
  None (Some (Error "P2024")) None None.

(** As [crmDown], and there is no key for the email client. *)
Definition crmDownNoMailKey : Env :=
mkEnv (Some (lit "pat-na1-key")) None None (Some (Error "HTTP 401"))
  None None (Some (Error "Missing API key")) None.


End Sample.

(** A value that is a string of white space only (the empty string
    included). *)
Definition blank (v : option jsstring) : Prop :=
  exists s, v = Some s /\ forallb isWhiteSpace s = true.


(** * The rest of the route

    Notions for the properties of the handler beyond the claims, then the
    client side of the form: [COUNTRY_CODES], [validateField] and the
    event handlers of the [Index] component. *)

(** How a run of [fallbackToDatabase] under the outer [catch] ends on a
    table, for a form that passes validation: the result, the table
    after it, and the calls made. *)
Inductive fallback_end (env : Env) (table : list ContactForm.t)
    (formData : gmap string jsstring)
  : Result -> list ContactForm.t -> list call -> Prop :=
| end_findFirst_throws cause :
    prisma_findFirst_fault env = Some cause ->
    fallback_end env table formData failureResult table [findCall formData]
| end_duplicate row :
    prisma_findFirst_fault env = None ->
    existing table (interpolate (formData !! "email")) = Some row ->
    fallback_end env table formData duplicateResult table [findCall formData]
| end_create_throws cause :
    prisma_findFirst_fault env = None ->
    existing table (interpolate (formData !! "email")) = None ->
    prisma_create_fault env = Some cause ->
    fallback_end env table formData failureResult table
      [findCall formData; PrismaCreate (rowOf formData)]
| end_Resend_throws cause :
    prisma_findFirst_fault env = None ->
    existing table (interpolate (formData !! "email")) = None ->
    prisma_create_fault env = None ->
    resend_Resend_fault env = Some cause ->
    fallback_end env table formData failureResult (table ++ [rowOf formData])
      [findCall formData; PrismaCreate (rowOf formData)]
| end_send_throws cause :
    prisma_findFirst_fault env = None ->
    existing table (interpolate (formData !! "email")) = None ->
    prisma_create_fault env = None ->
    resend_Resend_fault env = None ->
    resend_send_fault env = Some cause ->
    fallback_end env table formData failureResult (table ++ [rowOf formData])
      [findCall formData; PrismaCreate (rowOf formData); ResendSend (mailOf formData)]
| end_completes :
    fallback_completes env ->
    existing table (interpolate (formData !! "email")) = None ->
    fallback_end env table formData successResult (table ++ [rowOf formData])
      [findCall formData; PrismaCreate (rowOf formData); ResendSend (mailOf formData)].

(** How a run of [action] ends. *)
Inductive action_end (env : Env) (table : list ContactForm.t)
    (formData : gmap string jsstring)
  : Result -> list ContactForm.t -> list call -> Prop :=
| end_invalid :
    ~ passes_validation formData ->
    action_end env table formData (invalidResult (errorsOf formData)) table []
| end_crm :
    passes_validation formData -> crm_configured env -> crm_succeeds env ->
    action_end env table formData successResult table
      [HubspotCreate (propertiesOf formData)]
| end_fallback_direct r t cs :
    passes_validation formData ->
    ~ crm_configured env \/ hubspot_Client_fault env <> None ->
    fallback_end env table formData r t cs ->
    action_end env table formData r t cs
| end_fallback_after_crm cause r t cs :
    passes_validation formData -> crm_configured env -> crm_fails env cause ->
    fallback_end env table formData r t cs ->
    action_end env table formData r t (HubspotCreate (propertiesOf formData) :: cs).

(** The names of the fields the handler validates. *)
Definition validatedFields : list string :=
  ["firstName"; "lastName"; "email"; "phoneNumber"; "questions"].

(** One list is the beginning of another. *)
Definition isPrefixOf (cs all : list call) : Prop := exists rest, all = cs ++ rest.

(** Every character class of a pattern gives the same answer on [c] and
    on [f c]. *)
Fixpoint classes_respect (f : N -> N) (r : regex) : Prop :=
  match r with
  | Void | Eps => True
  | Class p => forall c, p (f c) = p c
  | Cat r1 r2 | Alt r1 r2 => classes_respect f r1 /\ classes_respect f r2
  | Star r1 => classes_respect f r1
  end.

(** A row in the form the handler writes: names, email and notes trimmed
    and within the bounds of the validation, the email in lower case and
    of the shape [validateEmail] accepts, the phone either null or a
    non-empty trimmed string. *)
Record well_formed_row (row : ContactForm.t) : Prop := {
  wf_firstName :
    trim (ContactForm.firstName row) = ContactForm.firstName row
    /\ (2 <= length (ContactForm.firstName row) <= 50)%nat
    /\ forallb nameClass (ContactForm.firstName row) = true;
  wf_lastName :
    trim (ContactForm.lastName row) = ContactForm.lastName row
    /\ (2 <= length (ContactForm.lastName row) <= 50)%nat
    /\ forallb nameClass (ContactForm.lastName row) = true;
  wf_email :
    normalizedEmail (ContactForm.email row) = ContactForm.email row
    /\ (length (ContactForm.email row) <= 254)%nat
    /\ validateEmail (ContactForm.email row) = true;
  wf_phone :
    match ContactForm.phone row with
    | None => True
    | Some p => p <> [] /\ trim p = p
    end;
  wf_questions :
    trim (ContactForm.questions row) = ContactForm.questions row
    /\ (10 <= length (ContactForm.questions row) <= 1000)%nat }.

(** ** Country codes data

    An option of the country-code [Select]: its label (a flag, written
    as two regional-indicator symbols, each a surrogate pair, then the
    country and the code) and its value. *)
Module Choice.
Record t : Type := mk {
  label : jsstring;
  value : jsstring }.
End Choice.

(** Two regional-indicator symbols whose low surrogates are [a] and [b]. *)
Definition flag (a b : N) : jsstring := [0xD83C; a; 0xD83C; b].

Definition COUNTRY_CODES : list Choice.t := [
  Choice.mk (flag 0xDDFA 0xDDF8 ++ lit " United States (+1)") (lit "+1");
  Choice.mk (flag 0xDDEE 0xDDF3 ++ lit " India (+91)") (lit "+91");
  Choice.mk (flag 0xDDEC 0xDDE7 ++ lit " United Kingdom (+44)") (lit "+44");
  Choice.mk (flag 0xDDE8 0xDDE6 ++ lit " Canada (+1)") (lit "+1");
  Choice.mk (flag 0xDDE6 0xDDFA ++ lit " Australia (+61)") (lit "+61");
  Choice.mk (flag 0xDDE9 0xDDEA ++ lit " Germany (+49)") (lit "+49");
  Choice.mk (flag 0xDDEB 0xDDF7 ++ lit " France (+33)") (lit "+33");
  Choice.mk (flag 0xDDEF 0xDDF5 ++ lit " Japan (+81)") (lit "+81");
  Choice.mk (flag 0xDDE8 0xDDF3 ++ lit " China (+86)") (lit "+86");
  Choice.mk (flag 0xDDE7 0xDDF7 ++ lit " Brazil (+55)") (lit "+55");
  Choice.mk (flag 0xDDF2 0xDDFD ++ lit " Mexico (+52)") (lit "+52");
  Choice.mk (flag 0xDDF7 0xDDFA ++ lit " Russia (+7)") (lit "+7");
  Choice.mk (flag 0xDDF0 0xDDF7 ++ lit " South Korea (+82)") (lit "+82");
  Choice.mk (flag 0xDDEE 0xDDF9 ++ lit " Italy (+39)") (lit "+39");
  Choice.mk (flag 0xDDEA 0xDDF8 ++ lit " Spain (+34)") (lit "+34");
  Choice.mk (flag 0xDDF3 0xDDF1 ++ lit " Netherlands (+31)") (lit "+31");
  Choice.mk (flag 0xDDF8 0xDDEA ++ lit " Sweden (+46)") (lit "+46");
  Choice.mk (flag 0xDDF3 0xDDF4 ++ lit " Norway (+47)") (lit "+47");
  Choice.mk (flag 0xDDE9 0xDDF0 ++ lit " Denmark (+45)") (lit "+45");
  Choice.mk (flag 0xDDEB 0xDDEE ++ lit " Finland (+358)") (lit "+358") ].

(** A plus sign followed by one to three digits. *)
Definition dialCode (v : jsstring) : bool :=
  match v with
  | c :: digits =>
      (c =? 43) && forallb isDigit digits
      && (1 <=? length digits)%nat && (length digits <=? 3)%nat
  | [] => false
  end.

(** ** The client side of the form

    The [Index] component keeps three pieces of state ([formData],
    [errors], [touched]); its handlers are functions from the state of
    the latest render to the next state and to what they ask of the
    platform (a toast, a submission).  The scheduling pop-up opened
    after a success is left out. *)
(** [data.errors] of a result; [errors] names the state of the component
    below. *)
Definition dataErrors (data : Result) : option (gmap string jsstring) := errors data.

Module Client.

Record State : Type := mkState {
  formData : gmap string jsstring;
  errors : gmap string jsstring;
  touched : gmap string bool }.

Inductive effect : Type :=
| ToastShow (message : jsstring) (isError : bool)
| FetcherSubmit (form : gmap string jsstring).

(** The value given to [useState] for [formData], and again on reset. *)
Definition emptyForm : gmap string jsstring :=
  <["firstName" := []]>
    (<["lastName" := []]>
       (<["email" := []]>
          (<["countryCode" := lit "+1"]>
             (<["phoneNumber" := []]>
                (<["questions" := []]> ∅))))).

Definition initialState : State := mkState emptyForm ∅ ∅.

(** Client-side validation: the message for a field, [""] when there is
    none. *)
Definition validateField (field : string) (value : option jsstring) : jsstring :=
  if bool_decide (field = "firstName") || bool_decide (field = "lastName") then
    match trim <$> value with
    | None | Some [] =>
        (if bool_decide (field = "firstName") then lit "First" else lit "Last")
          ++ lit " name is required"
    | Some t =>
        if (length t <? 2)%nat then lit "At least 2 characters"
        else if (50 <? length t)%nat then lit "Max 50 characters"
        else if negb (validateName t) then lit "Only letters, spaces, - and '"
        else []
    end
  else if bool_decide (field = "email") then
    match trim <$> value with
    | None | Some [] => lit "Email is required"
    | Some t =>
        if (254 <? length t)%nat then lit "Email too long"
        else if negb (validateEmail t) then lit "Invalid email"
        else []
    end
  else if bool_decide (field = "phoneNumber") then
    match trim <$> value with
    | None | Some [] => []
    | Some t =>
        if negb (validatePhone t None) then lit "Invalid phone number format" else []
    end
  else if bool_decide (field = "countryCode") then []
  else if bool_decide (field = "questions") then
    match trim <$> value with
    | None | Some [] => lit "Questions field is required"
    | Some t =>
        if (length t <? 10)%nat then lit "Minimum 10 characters"
        else if (1000 <? length t)%nat then lit "Max 1000 characters"
        else []
    end
  else [].

(** [newErrors] of [handleSubmit]: one entry per key of [formData] whose
    message is not empty. *)
Definition newErrors (formData : gmap string jsstring) : gmap string jsstring :=
  map_imap
    (fun field value =>
       let error := validateField field (Some value) in
       if truthy (Some error) then Some error else None)
    formData.

Definition handleSubmit (st : State) : State * list effect :=
  let newErrors := newErrors (formData st) in
  if (0 <? size newErrors)%nat then
    (mkState (formData st) newErrors ((fun _ => true) <$> formData st),
     [ToastShow (lit "Please fix the validation errors") true])
  else
    (st, [FetcherSubmit (formData st)]).

Definition handleInputChange (field : string) (value : jsstring) (st : State) : State :=
  mkState
    (<[field := value]> (formData st))
    (if bool_decide (touched st !! field = Some true)
     then <[field := validateField field (Some value)]> (errors st)
     else errors st)
    (touched st).

Definition handleBlur (field : string) (st : State) : State :=
  mkState
    (formData st)
    (<[field := validateField field (formData st !! field)]> (errors st))
    (<[field := true]> (touched st)).

(** Handle result of submit: the effect on [fetcher.data]. *)
Definition handleResult (data : Result) (st : State) : State * list effect :=
  if success data then
    (mkState emptyForm ∅ ∅, [ToastShow (message data) false])
  else
    (mkState (formData st)
       (match dataErrors data with
        | Some errs => errs
        | None => errors st
        end)
       (touched st),
     [ToastShow (message data) true]).

(** What the form shows under a field. *)
Definition shown (st : State) (field : string) : jsstring :=
  default [] (errors st !! field).

(** What the user does. *)
Inductive event : Type :=
| Change (field : string) (value : jsstring)
| Blur (field : string)
| Submit (env : Env).

(** One event, with the server in the loop: a submission that passes the
    client-side validation is handled by [action] and its result comes
    back to the component. *)
Definition step (e : event) (s : State * World) : State * World :=
  let '(st, w) := s in
  match e with
  | Change field value => (handleInputChange field value st, w)
  | Blur field => (handleBlur field st, w)
  | Submit env =>
      match handleSubmit st with
      | (st1, [FetcherSubmit form]) =>
          match action env form w with
          | (Normal data, w1) => (fst (handleResult data st1), w1)
          | (Throw _, w1) => (st1, w1)
          end
      | (st1, _) => (st1, w)
      end
  end.

Definition run (events : list event) (s : State * World) : State * World :=
  fold_left (fun s e => step e s) events s.

(** The fields of the form. *)
Definition fields : list string :=
  ["firstName"; "lastName"; "email"; "countryCode"; "phoneNumber"; "questions"].

(** The form has all its fields, and under every touched field stands
    the message for what the field holds. *)
Definition consistent (st : State) : Prop :=
  (forall field, In field fields -> is_Some (formData st !! field))
  /\ forall field, touched st !! field = Some true ->
       shown st field = validateField field (formData st !! field).

End Client.
(** * Properties *)

(** ** Strings *)

Section DropWhile.
Variable p : N -> bool.

Lemma dropWhile_all (s : jsstring) : forallb p s = true -> dropWhile p s = [].
Proof.
  induction s as [|c s IH]; simpl; [reflexivity|].
  destruct (p c); simpl; [exact IH | discriminate].
Qed.

Lemma dropWhile_app_all (pre s : jsstring) :
  forallb p pre = true -> dropWhile p (pre ++ s) = dropWhile p s.
Proof.
  induction pre as [|c pre IH]; simpl; [reflexivity|].
  destruct (p c); simpl; [exact IH | discriminate].
Qed.

Lemma dropWhile_head (s : jsstring) :
  match dropWhile p s with
  | [] => True
  | c :: _ => p c = false
  end.
Proof.
  induction s as [|c s IH]; simpl; [exact I|].
  destruct (p c) eqn:E; [exact IH | exact E].
Qed.

Lemma dropWhile_fixed (c : N) (s : jsstring) : p c = false -> dropWhile p (c :: s) = c :: s.
Proof. intros E. simpl. rewrite E. reflexivity. Qed.

Lemma dropWhile_idem (s : jsstring) : dropWhile p (dropWhile p s) = dropWhile p s.
Proof.
  pose proof (dropWhile_head s) as H.
  destruct (dropWhile p s) as [|c t]; [reflexivity|].
  apply dropWhile_fixed, H.
Qed.

(** What is dropped is a prefix on which [p] holds. *)
Lemma dropWhile_split (s : jsstring) :
  exists pre, s = pre ++ dropWhile p s /\ forallb p pre = true.
Proof.
  induction s as [|c s (pre & E & H)]; simpl.
  - exists []. split; reflexivity.
  - destruct (p c) eqn:Ec.
    + exists (c :: pre). simpl. rewrite Ec, H. split; [f_equal; exact E | reflexivity].
    + exists []. split; reflexivity.
Qed.

Lemma dropWhile_map (f : N -> N) (s : jsstring) :
  (forall c, p (f c) = p c) -> dropWhile p (map f s) = map f (dropWhile p s).
Proof.
  intros Hf. induction s as [|c s IH]; simpl; [reflexivity|].
  rewrite Hf. destruct (p c); [exact IH | reflexivity].
Qed.

Lemma dropWhile_filter (q : N -> bool) (s : jsstring) :
  (forall c, p c = true -> q c = false) ->
  List.filter q (dropWhile p s) = List.filter q s.
Proof.
  intros Hq. induction s as [|c s IH]; simpl; [reflexivity|].
  destruct (p c) eqn:Ec; [|reflexivity].
  rewrite (Hq c Ec). exact IH.
Qed.

(** Dropping at the front leaves a last element that is kept alone. *)
Lemma dropWhile_snoc_keep (s : jsstring) (c : N) :
  p c = false -> exists t, dropWhile p (s ++ [c]) = t ++ [c].
Proof.
  intros Ec. induction s as [|d s (t & IH)]; simpl.
  - rewrite Ec. exists []. reflexivity.
  - destruct (p d).
    + exists t. exact IH.
    + exists (d :: s). reflexivity.
Qed.
End DropWhile.

Lemma forallb_rev (p : N -> bool) (s : jsstring) : forallb p (rev s) = forallb p s.
Proof.
  induction s as [|c s IH]; simpl; [reflexivity|].
  rewrite forallb_app, IH. simpl. rewrite andb_true_r. apply andb_comm.
Qed.

Lemma filter_rev_comm (q : N -> bool) (s : jsstring) :
  List.filter q (rev s) = rev (List.filter q s).
Proof.
  induction s as [|c s IH]; simpl; [reflexivity|].
  rewrite List.filter_app, IH. simpl. destruct (q c); simpl; [reflexivity|].
  apply app_nil_r.
Qed.

Lemma trimEnd_app_all (s post : jsstring) :
  forallb isWhiteSpace post = true -> trimEnd (s ++ post) = trimEnd s.
Proof.
  intros H. unfold trimEnd. rewrite rev_app_distr, dropWhile_app_all; [reflexivity|].
  rewrite forallb_rev. exact H.
Qed.

Lemma trimStart_head (s : jsstring) : keeps_head (trimStart s).
Proof. exact (dropWhile_head isWhiteSpace s). Qed.

Lemma trimStart_id (s : jsstring) : keeps_head s -> trimStart s = s.
Proof. destruct s as [|c s]; [reflexivity|]. exact (dropWhile_fixed _ c s). Qed.

Lemma trimEnd_head (s : jsstring) : keeps_head s -> keeps_head (trimEnd s).
Proof.
  destruct s as [|c s]; [intros _; exact I|]. simpl. intros Hc.
  unfold trimEnd. simpl rev.
  destruct (dropWhile_snoc_keep isWhiteSpace (rev s) c Hc) as (t & ->).
  rewrite rev_app_distr. exact Hc.
Qed.

Lemma trimEnd_idem (s : jsstring) : trimEnd (trimEnd s) = trimEnd s.
Proof. unfold trimEnd. rewrite rev_involutive, dropWhile_idem. reflexivity. Qed.

Lemma trim_idem (s : jsstring) : trim (trim s) = trim s.
Proof.
  unfold trim.
  rewrite (trimStart_id (trimEnd (trimStart s))).
  - apply trimEnd_idem.
  - apply trimEnd_head, trimStart_head.
Qed.

(** White space around a string does not survive [trim]. *)
Lemma trim_padding (pre s post : jsstring) :
  forallb isWhiteSpace pre = true -> forallb isWhiteSpace post = true ->
  trim (pre ++ s ++ post) = trim s.
Proof.
  intros Hpre Hpost. unfold trim, trimStart.
  rewrite dropWhile_app_all by exact Hpre.
  induction s as [|c s IH]; simpl.
  - rewrite dropWhile_all by exact Hpost. reflexivity.
  - destruct (isWhiteSpace c); [exact IH|].
    apply (trimEnd_app_all (c :: s)), Hpost.
Qed.

Lemma trim_nil_blank (s : jsstring) : trim s = [] <-> forallb isWhiteSpace s = true.
Proof.
  split.
  - unfold trim, trimEnd. intros H.
    destruct (dropWhile_split isWhiteSpace s) as (pre & Es & Hpre).
    fold (trimStart s) in Es.
    destruct (dropWhile_split isWhiteSpace (rev (trimStart s))) as (post & Er & Hpost).
    apply (f_equal (@rev N)) in H. rewrite rev_involutive in H. simpl in H.
    rewrite H, app_nil_r in Er.
    rewrite Es, forallb_app, Hpre. simpl.
    rewrite <- forallb_rev, Er. exact Hpost.
  - intros H. unfold trim, trimStart. rewrite dropWhile_all by exact H. reflexivity.
Qed.

Lemma isUpper_not_space (c : N) : isUpper c = true -> isWhiteSpace c = false /\ isWhiteSpace (c + 32) = false.
Proof.
  unfold isUpper, isWhiteSpace. rewrite andb_true_iff, !N.leb_le. intros [H1 H2].
  rewrite !orb_false_iff, !andb_false_iff, !N.eqb_neq, !N.leb_gt. lia.
Qed.

Lemma isWhiteSpace_lowerUnit (c : N) : isWhiteSpace (lowerUnit c) = isWhiteSpace c.
Proof.
  unfold lowerUnit. destruct (isUpper c) eqn:E; [|reflexivity].
  destruct (isUpper_not_space c E) as [-> ->]. reflexivity.
Qed.

Lemma lowerUnit_idem (c : N) : lowerUnit (lowerUnit c) = lowerUnit c.
Proof.
  unfold lowerUnit. destruct (isUpper c) eqn:E; [|rewrite E; reflexivity].
  replace (isUpper (c + 32)) with false; [reflexivity|].
  symmetry. unfold isUpper in *. rewrite andb_true_iff, !N.leb_le in E.
  rewrite andb_false_iff, !N.leb_gt. lia.
Qed.

Lemma toLowerCase_idem (s : jsstring) : toLowerCase (toLowerCase s) = toLowerCase s.
Proof.
  unfold toLowerCase. rewrite map_map. apply map_ext. exact lowerUnit_idem.
Qed.

Lemma trim_toLowerCase (s : jsstring) : trim (toLowerCase s) = toLowerCase (trim s).
Proof.
  unfold trim, trimEnd, trimStart, toLowerCase.
  rewrite dropWhile_map by exact isWhiteSpace_lowerUnit.
  rewrite <- map_rev, dropWhile_map by exact isWhiteSpace_lowerUnit.
  rewrite map_rev. reflexivity.
Qed.

Lemma normalizedEmail_idem (e : jsstring) : normalizedEmail (normalizedEmail e) = normalizedEmail e.
Proof.
  unfold normalizedEmail. rewrite trim_toLowerCase, trim_idem. apply toLowerCase_idem.
Qed.

Lemma isDigit_not_space (c : N) : isWhiteSpace c = true -> isDigit c = false.
Proof.
  unfold isDigit, isWhiteSpace.
  rewrite !orb_true_iff, !andb_true_iff, !N.eqb_eq, !N.leb_le, andb_false_iff, !N.leb_gt. lia.
Qed.

(** Trimming removes no digit. *)
Lemma digits_trim (s : jsstring) : List.filter isDigit (trim s) = List.filter isDigit s.
Proof.
  unfold trim, trimEnd, trimStart.
  rewrite filter_rev_comm, dropWhile_filter by exact isDigit_not_space.
  rewrite filter_rev_comm, rev_involutive.
  apply dropWhile_filter. exact isDigit_not_space.
Qed.

(** ** Regular expressions: [test] decides the language *)

Lemma matches_Class_inv (p : N -> bool) (s : jsstring) :
  matches (Class p) s <-> exists c, s = [c] /\ p c = true.
Proof.
  split.
  - inversion 1; subst. eauto.
  - intros (c & -> & H). constructor. exact H.
Qed.

Lemma matches_Cat_inv (r1 r2 : regex) (s : jsstring) :
  matches (Cat r1 r2) s <-> exists s1 s2, s = s1 ++ s2 /\ matches r1 s1 /\ matches r2 s2.
Proof.
  split.
  - inversion 1; subst. eauto.
  - intros (s1 & s2 & -> & H1 & H2). constructor; assumption.
Qed.

Lemma matches_Alt_inv (r1 r2 : regex) (s : jsstring) :
  matches (Alt r1 r2) s <-> matches r1 s \/ matches r2 s.
Proof.
  split.
  - inversion 1; subst; [left | right]; assumption.
  - intros [H|H]; [apply matches_Alt_l | apply matches_Alt_r]; exact H.
Qed.

Lemma nullable_matches (r : regex) : nullable r = true <-> matches r [].
Proof.
  induction r as [| |p|r1 IH1 r2 IH2|r1 IH1 r2 IH2|r IH]; simpl.
  - split; [discriminate | inversion 1].
  - split; [constructor | reflexivity].
  - split; [discriminate | inversion 1].
  - rewrite andb_true_iff, IH1, IH2, matches_Cat_inv. split.
    + intros [H1 H2]. exists [], []. auto.
    + intros (s1 & s2 & E & H1 & H2). symmetry in E.
      apply app_eq_nil in E as [-> ->]. split; assumption.
  - rewrite orb_true_iff, IH1, IH2, matches_Alt_inv. reflexivity.
  - split; [constructor | reflexivity].
Qed.

(** A non-empty match of [Star r] starts with a non-empty match of [r]. *)
Lemma matches_Star_cons (r : regex) (c : N) (s : jsstring) :
  matches (Star r) (c :: s) ->
  exists s1 s2, s = s1 ++ s2 /\ matches r (c :: s1) /\ matches (Star r) s2.
Proof.
  intros H. remember (Star r) as r' eqn:Er. remember (c :: s) as s' eqn:Es.
  induction H as [| | | | | |r0 s1 s2 H1 _ H2 IH2]; try discriminate.
  injection Er as ->.
  destruct s1 as [|d s1]; simpl in Es.
  - apply IH2; [reflexivity | exact Es].
  - injection Es as -> <-. exists s1, s2. repeat split; assumption.
Qed.

(** A match of [Cat r1 r2] on [c :: s] either takes [c] in [r1] or
    leaves [r1] empty. *)
Lemma matches_Cat_cons (r1 r2 : regex) (c : N) (s : jsstring) :
  matches (Cat r1 r2) (c :: s) <->
  (exists s1 s2, s = s1 ++ s2 /\ matches r1 (c :: s1) /\ matches r2 s2)
  \/ (matches r1 [] /\ matches r2 (c :: s)).
Proof.
  rewrite matches_Cat_inv. split.
  - intros (s1 & s2 & E & H1 & H2). destruct s1 as [|d s1]; simpl in E.
    + subst s2. right. split; assumption.
    + injection E as <- ->. left. eauto.
  - intros [(s1 & s2 & -> & H1 & H2) | [H1 H2]].
    + exists (c :: s1), s2. auto.
    + exists [], (c :: s). auto.
Qed.

Lemma deriv_matches (r : regex) (c : N) (s : jsstring) :
  matches (deriv c r) s <-> matches r (c :: s).
Proof.
  revert s. induction r as [| |p|r1 IH1 r2 IH2|r1 IH1 r2 IH2|r IH]; intros s; simpl.
  - split; inversion 1.
  - split; inversion 1.
  - rewrite matches_Class_inv. destruct (p c) eqn:E.
    + split.
      * inversion 1. exists c. auto.
      * intros (d & [= <- ->] & _). constructor.
    + split; [inversion 1|]. intros (d & [= <- ->] & Hd). congruence.
  - assert (Hcat : matches (Cat (deriv c r1) r2) s <->
                   exists s1 s2, s = s1 ++ s2 /\ matches r1 (c :: s1) /\ matches r2 s2).
    { rewrite matches_Cat_inv. split; intros (s1 & s2 & -> & H1 & H2);
        exists s1, s2; (split; [reflexivity|]); (split; [apply IH1|]); assumption. }
    rewrite matches_Cat_cons. destruct (nullable r1) eqn:En.
    + rewrite matches_Alt_inv, Hcat, IH2. apply nullable_matches in En. tauto.
    + rewrite Hcat. split; [tauto|]. intros [H | [H _]]; [exact H|].
      apply nullable_matches in H. congruence.
  - rewrite !matches_Alt_inv, IH1, IH2. reflexivity.
  - rewrite matches_Cat_inv. split.
    + intros (s1 & s2 & -> & H1 & H2).
      apply IH in H1. exact (matches_Star_app _ (c :: s1) s2 H1 H2).
    + intros H. apply matches_Star_cons in H as (s1 & s2 & -> & H1 & H2).
      exists s1, s2. rewrite IH. auto.
Qed.

Theorem test_matches (r : regex) (s : jsstring) : test r s = true <-> matches r s.
Proof.
  revert r. induction s as [|c s IH]; intros r; simpl.
  - apply nullable_matches.
  - rewrite IH. apply deriv_matches.
Qed.

Lemma matches_Star_Class (p : N -> bool) (s : jsstring) :
  matches (Star (Class p)) s <-> forallb p s = true.
Proof.
  split.
  - intros H. remember (Star (Class p)) as r eqn:Er.
    induction H as [| | | | | |r0 s1 s2 H1 _ H2 IH2]; try discriminate; [reflexivity|].
    injection Er as ->. apply matches_Class_inv in H1 as (c & -> & Hc).
    simpl. rewrite Hc. apply IH2. reflexivity.
  - induction s as [|c s IH]; simpl; [constructor|].
    rewrite andb_true_iff. intros [Hc Hs].
    apply (matches_Star_app _ [c] s); [constructor; exact Hc | exact (IH Hs)].
Qed.

Lemma matches_Plus_Class (p : N -> bool) (s : jsstring) :
  matches (Plus (Class p)) s <-> s <> [] /\ forallb p s = true.
Proof.
  unfold Plus. rewrite matches_Cat_inv. split.
  - intros (s1 & s2 & -> & H1 & H2).
    apply matches_Class_inv in H1 as (c & -> & Hc). apply matches_Star_Class in H2.
    simpl. rewrite Hc. split; [discriminate | exact H2].
  - destruct s as [|c s]; [intros [[] _]; reflexivity|].
    simpl. rewrite andb_true_iff. intros [_ [Hc Hs]].
    exists [c], s. rewrite matches_Class_inv, matches_Star_Class. eauto.
Qed.

Lemma matches_AtLeast2_Class (p : N -> bool) (s : jsstring) :
  matches (AtLeast2 (Class p)) s <-> (2 <= length s)%nat /\ forallb p s = true.
Proof.
  unfold AtLeast2. rewrite matches_Cat_inv. split.
  - intros (s1 & s2 & -> & H1 & H2).
    apply matches_Class_inv in H1 as (c & -> & Hc).
    apply (matches_Plus_Class p s2) in H2 as [Hne H2].
    simpl. rewrite Hc, H2. split; [|reflexivity].
    destruct s2; [congruence | simpl; lia].
  - destruct s as [|c [|d s]]; simpl; try (intros [? _]; lia).
    rewrite !andb_true_iff. intros [_ (Hc & Hd & Hs)].
    exists [c], (d :: s). split; [reflexivity|].
    rewrite matches_Class_inv. split; [eauto|].
    apply (matches_Plus_Class p (d :: s)). simpl. rewrite Hd, Hs. split; [discriminate|reflexivity].
Qed.

(** ** The patterns of the source *)

Lemma name_char_nameClass (c : N) : Spec41.name_char c = nameClass c.
Proof.
  unfold Spec41.name_char, nameClass, isOneOf.
  change (N_of_ascii "-") with 45. change (N_of_ascii "'") with 39.
  change (lit "'-") with [39; 45]. simpl existsb.
  destruct (isLetter c), (isWhiteSpace c); simpl; try reflexivity.
  rewrite orb_false_r.
  destruct (N.eqb_spec c 39) as [E|H39].
  { rewrite E. reflexivity. }
  destruct (N.eqb_spec c 45) as [E|H45].
  { rewrite E. reflexivity. }
  rewrite !bool_decide_eq_false_2 by assumption. reflexivity.
Qed.

Lemma forallb_name_char (t : jsstring) : forallb nameClass t = forallb Spec41.name_char t.
Proof.
  induction t as [|c t IH]; simpl; [reflexivity|].
  rewrite IH, name_char_nameClass. reflexivity.
Qed.

Lemma validateName_spec (t : jsstring) :
  validateName t = true <->
  t <> [] /\ forallb Spec41.name_char t = true /\ (2 <= length (trim t))%nat.
Proof.
  unfold validateName, namePattern.
  rewrite andb_true_iff, test_matches, matches_Plus_Class, Nat.leb_le.
  rewrite forallb_name_char. tauto.
Qed.

Lemma validateEmail_spec (t : jsstring) : validateEmail t = true <-> Spec41.email_shape t.
Proof.
  unfold validateEmail, emailPattern, Spec41.email_shape.
  rewrite test_matches. split.
  - intros H.
    apply matches_Cat_inv in H as (local & r1 & -> & Hl & H).
    apply matches_Cat_inv in H as (at' & r2 & -> & Ha & H).
    apply matches_Cat_inv in H as (domain & r3 & -> & Hd & H).
    apply matches_Cat_inv in H as (dot & tld & -> & Hdot & Ht).
    apply matches_Plus_Class in Hl as [Hl1 Hl2].
    apply matches_Plus_Class in Hd as [Hd1 Hd2].
    apply matches_AtLeast2_Class in Ht as [Ht1 Ht2].
    apply matches_Class_inv in Ha as (a & -> & Ha).
    apply matches_Class_inv in Hdot as (d & -> & Hdot).
    unfold isOneOf in Ha, Hdot. simpl in Ha, Hdot.
    rewrite orb_false_r in Ha, Hdot. apply N.eqb_eq in Ha, Hdot. subst a d.
    exists local, domain, tld. repeat split; assumption.
  - intros (local & domain & tld & -> & Hl1 & Hl2 & Hd1 & Hd2 & Ht1 & Ht2).
    apply matches_Cat; [apply matches_Plus_Class; auto|].
    apply (matches_Cat _ _ (lit "@")); [constructor; reflexivity|].
    apply matches_Cat; [apply matches_Plus_Class; auto|].
    apply (matches_Cat _ _ (lit ".")); [constructor; reflexivity|].
    apply matches_AtLeast2_Class; auto.
Qed.

(** An email that [validateEmail] accepts is made of ASCII code units:
    [toLowerCase] as modelled is exact on it. *)
Lemma validateEmail_ascii (t : jsstring) :
  validateEmail t = true -> forallb (fun c => c <? 128) t = true.
Proof.
  assert (Hletter : forall c, isLetter c = true -> (c <? 128) = true).
  { intros c. unfold isLetter, isUpper, isLower.
    rewrite orb_true_iff, !andb_true_iff, !N.leb_le, N.ltb_lt. lia. }
  assert (Hdigit : forall c, isDigit c = true -> (c <? 128) = true).
  { intros c. unfold isDigit. rewrite andb_true_iff, !N.leb_le, N.ltb_lt. lia. }
  assert (Hone : forall cs c, forallb (fun c => c <? 128) (lit cs) = true ->
                    isOneOf cs c = true -> (c <? 128) = true).
  { intros cs c. unfold isOneOf. induction (lit cs) as [|d l IH]; simpl; [discriminate|].
    rewrite andb_true_iff, orb_true_iff, N.eqb_eq. intros [Hd Hl] [-> | H]; auto. }
  assert (Hall : forall (p : N -> bool) s,
             (forall c, p c = true -> (c <? 128) = true) ->
             forallb p s = true -> forallb (fun c => c <? 128) s = true).
  { intros p s Hp. induction s as [|c s IH]; simpl; [reflexivity|].
    rewrite !andb_true_iff. intros [Hc Hs]. auto. }
  rewrite validateEmail_spec.
  intros (local & domain & tld & -> & _ & Hl & _ & Hd & _ & Ht).
  rewrite !forallb_app, !andb_true_iff. repeat split.
  - apply (Hall localClass); [|exact Hl]. intros c. unfold localClass.
    rewrite !orb_true_iff.
    intros [[H|H]|H]; [exact (Hletter c H) | exact (Hdigit c H) | exact (Hone "._%+-" c eq_refl H)].
  - apply (Hall domainClass); [|exact Hd]. intros c. unfold domainClass.
    rewrite !orb_true_iff.
    intros [[H|H]|H]; [exact (Hletter c H) | exact (Hdigit c H) | exact (Hone ".-" c eq_refl H)].
  - apply (Hall isLetter); [exact Hletter | exact Ht].
Qed.

(** ** Server-side validation against the field rules *)

(** Splits on the value of a field and on every test of its chain. *)
Ltac chain_cases v :=
  let s := fresh "s" in
  let t := fresh "t" in
  let Et := fresh "Et" in
  let Hid := fresh "Hid" in
  destruct v as [s|]; simpl fmap; cbv beta iota;
  [ pose proof (trim_idem s) as Hid;
    remember (trim s) as t eqn:Et; destruct t as [|? ?];
    [ | repeat match goal with
               | |- context [if ?b then _ else _] => destruct b eqn:?
               end ]
  | ].

Ltac other_key :=
  intros; try (rewrite lookup_insert_ne by congruence); reflexivity.

Lemma check_firstName_other (k : string) v (e : gmap string jsstring) :
  k <> "firstName" -> check_firstName v e !! k = e !! k.
Proof. intros Hk. unfold check_firstName. chain_cases v; other_key. Qed.

Lemma check_lastName_other (k : string) v (e : gmap string jsstring) :
  k <> "lastName" -> check_lastName v e !! k = e !! k.
Proof. intros Hk. unfold check_lastName. chain_cases v; other_key. Qed.

Lemma check_email_other (k : string) v (e : gmap string jsstring) :
  k <> "email" -> check_email v e !! k = e !! k.
Proof. intros Hk. unfold check_email. chain_cases v; other_key. Qed.

Lemma check_phoneNumber_other (k : string) v cc (e : gmap string jsstring) :
  k <> "phoneNumber" -> check_phoneNumber v cc e !! k = e !! k.
Proof. intros Hk. unfold check_phoneNumber. chain_cases v; other_key. Qed.

Lemma check_questions_other (k : string) v (e : gmap string jsstring) :
  k <> "questions" -> check_questions v e !! k = e !! k.
Proof. intros Hk. unfold check_questions. chain_cases v; other_key. Qed.

(** The rules of section 4.1, as the tests the handler makes. *)
Lemma name_ok_iff (v : option jsstring) :
  Spec41.name_ok v <->
  exists s, v = Some s /\ trim s <> [] /\ (length (trim s) <? 2)%nat = false /\
    (50 <? length (trim s))%nat = false /\ negb (validateName (trim s)) = false.
Proof.
  unfold Spec41.name_ok. split; intros (s & -> & Hne & H); exists s; (split; [reflexivity|]).
  - destruct H as [[H2 H50] Hc]. rewrite !Nat.ltb_ge, negb_false_iff, validateName_spec, trim_idem.
    tauto.
  - rewrite !Nat.ltb_ge, negb_false_iff, validateName_spec, trim_idem in H. tauto.
Qed.

Lemma email_ok_iff (v : option jsstring) :
  Spec41.email_ok v <->
  exists s, v = Some s /\ trim s <> [] /\ (254 <? length (trim s))%nat = false /\
    negb (validateEmail (trim s)) = false.
Proof.
  unfold Spec41.email_ok.
  split; intros (s & -> & Hne & H); exists s; (split; [reflexivity|]).
  - rewrite Nat.ltb_ge, negb_false_iff, validateEmail_spec. tauto.
  - rewrite Nat.ltb_ge, negb_false_iff, validateEmail_spec in H. tauto.
Qed.

Lemma notes_ok_iff (v : option jsstring) :
  Spec41.notes_ok v <->
  exists s, v = Some s /\ trim s <> [] /\ (length (trim s) <? 10)%nat = false /\
    (1000 <? length (trim s))%nat = false.
Proof.
  unfold Spec41.notes_ok.
  split; intros (s & -> & Hne & H); exists s; (split; [reflexivity|]).
  - split; [assumption|]. rewrite !Nat.ltb_ge. lia.
  - rewrite !Nat.ltb_ge in H. split; [assumption | lia].
Qed.

(** On a trimmed non-empty value [validatePhone] only counts digits. *)
Lemma validatePhone_trimmed (s : jsstring) (cc : option jsstring) :
  trim s <> [] ->
  validatePhone (trim s) cc = true <-> (7 <= Spec41.digit_count s <= 12)%nat.
Proof.
  intros Hne. unfold validatePhone, jsstring_eqb, Spec41.digit_count.
  rewrite trim_idem, digits_trim.
  rewrite (bool_decide_eq_false_2 _ Hne).
  destruct (trim s) as [|c t]; [congruence|]. simpl negb. simpl orb.
  rewrite andb_true_iff, !Nat.leb_le. reflexivity.
Qed.

Lemma phone_ok_iff (v cc : option jsstring) :
  Spec41.phone_ok v <->
  match v with
  | None => True
  | Some s => trim s = [] \/ negb (validatePhone (trim s) cc) = false
  end.
Proof.
  destruct v as [s|]; [|reflexivity]. simpl.
  destruct (trim s) as [|c t] eqn:Et; [tauto|].
  rewrite negb_false_iff, <- Et, validatePhone_trimmed by congruence. reflexivity.
Qed.

(** Closes a case of a chain: an error is assigned exactly when the
    rule, read as tests, is broken. *)
Ltac chain_case He :=
  first
    [ rewrite lookup_insert_eq; split; [discriminate|];
      intros (? & [= <-] & ?);
      repeat match goal with
             | H : _ /\ _ |- _ => destruct H
             | H : _ = trim _ |- _ => rewrite <- H in *
             end;
      congruence
    | rewrite lookup_insert_eq; split; [discriminate|]; intros (? & [=] & _)
    | rewrite He; split; [intros _ | reflexivity];
      eexists; split; [reflexivity|];
      match goal with H : _ = trim _ |- _ => rewrite <- H end;
      repeat split; solve [assumption | discriminate] ].

Lemma check_firstName_ok v (e : gmap string jsstring) :
  e !! "firstName" = None ->
  (check_firstName v e !! "firstName" = None <-> Spec41.name_ok v).
Proof.
  intros He. rewrite name_ok_iff. unfold check_firstName. chain_cases v; chain_case He.
Qed.

Lemma check_lastName_ok v (e : gmap string jsstring) :
  e !! "lastName" = None ->
  (check_lastName v e !! "lastName" = None <-> Spec41.name_ok v).
Proof.
  intros He. rewrite name_ok_iff. unfold check_lastName. chain_cases v; chain_case He.
Qed.

Lemma check_email_ok v (e : gmap string jsstring) :
  e !! "email" = None ->
  (check_email v e !! "email" = None <-> Spec41.email_ok v).
Proof.
  intros He. rewrite email_ok_iff. unfold check_email. chain_cases v; chain_case He.
Qed.

Lemma check_questions_ok v (e : gmap string jsstring) :
  e !! "questions" = None ->
  (check_questions v e !! "questions" = None <-> Spec41.notes_ok v).
Proof.
  intros He. rewrite notes_ok_iff. unfold check_questions. chain_cases v; chain_case He.
Qed.

Lemma check_phoneNumber_ok v cc (e : gmap string jsstring) :
  e !! "phoneNumber" = None ->
  (check_phoneNumber v cc e !! "phoneNumber" = None <-> Spec41.phone_ok v).
Proof.
  intros He. rewrite (phone_ok_iff v cc). unfold check_phoneNumber.
  chain_cases v.
  - rewrite He. tauto.
  - rewrite lookup_insert_eq. split; [discriminate|].
    intros [H|H]; congruence.
  - rewrite He. split; [intros _; right; reflexivity | reflexivity].
  - rewrite He. tauto.
Qed.

(** An assigned message is one of the messages of the field. *)
Ltac some_message :=
  intros He Hm; try (rewrite lookup_insert_eq in Hm; injection Hm as <-);
  try congruence; simpl; tauto.

Lemma check_firstName_message v (e : gmap string jsstring) m :
  e !! "firstName" = None -> check_firstName v e !! "firstName" = Some m ->
  In m (messages Spec41.FirstName).
Proof. unfold check_firstName. chain_cases v; some_message. Qed.

Lemma check_lastName_message v (e : gmap string jsstring) m :
  e !! "lastName" = None -> check_lastName v e !! "lastName" = Some m ->
  In m (messages Spec41.LastName).
Proof. unfold check_lastName. chain_cases v; some_message. Qed.

Lemma check_email_message v (e : gmap string jsstring) m :
  e !! "email" = None -> check_email v e !! "email" = Some m ->
  In m (messages Spec41.Email).
Proof. unfold check_email. chain_cases v; some_message. Qed.

Lemma check_phoneNumber_message v cc (e : gmap string jsstring) m :
  e !! "phoneNumber" = None -> check_phoneNumber v cc e !! "phoneNumber" = Some m ->
  In m (messages Spec41.PhoneNumber).
Proof. unfold check_phoneNumber. chain_cases v; some_message. Qed.

Lemma check_questions_message v (e : gmap string jsstring) m :
  e !! "questions" = None -> check_questions v e !! "questions" = Some m ->
  In m (messages Spec41.Questions).
Proof. unfold check_questions. chain_cases v; some_message. Qed.

(** Looks a key up through the checks that do not assign it. *)
Ltac skip_checks :=
  repeat first
    [ rewrite check_questions_other by discriminate
    | rewrite check_phoneNumber_other by discriminate
    | rewrite check_email_other by discriminate
    | rewrite check_lastName_other by discriminate
    | rewrite check_firstName_other by discriminate ];
  try apply lookup_empty.

Lemma errorsOf_None (f : Spec41.field) (formData : gmap string jsstring) :
  errorsOf formData !! Spec41.name f = None <-> Spec41.passes f formData.
Proof.
  unfold errorsOf, validation. destruct f; simpl Spec41.name; unfold Spec41.passes; skip_checks.
  - apply check_firstName_ok. skip_checks.
  - apply check_lastName_ok. skip_checks.
  - apply check_email_ok. skip_checks.
  - apply check_phoneNumber_ok. skip_checks.
  - apply check_questions_ok. skip_checks.
Qed.

Lemma errorsOf_Some (f : Spec41.field) (formData : gmap string jsstring) (m : jsstring) :
  errorsOf formData !! Spec41.name f = Some m -> In m (messages f).
Proof.
  unfold errorsOf, validation. destruct f; simpl Spec41.name; skip_checks.
  - apply check_firstName_message. skip_checks.
  - apply check_lastName_message. skip_checks.
  - apply check_email_message. skip_checks.
  - apply check_phoneNumber_message. skip_checks.
  - apply check_questions_message. skip_checks.
Qed.

(** The handler has an error for a field exactly when the field breaks
    its rule. *)
Lemma errorsOf_is_Some (f : Spec41.field) (formData : gmap string jsstring) :
  is_Some (errorsOf formData !! Spec41.name f) <-> ~ Spec41.passes f formData.
Proof.
  rewrite <- errorsOf_None. rewrite <- not_eq_None_Some. reflexivity.
Qed.

Lemma errorsOf_size (formData : gmap string jsstring) :
  (0 <? size (errorsOf formData))%nat = true <-> exists f, ~ Spec41.passes f formData.
Proof.
  rewrite Nat.ltb_lt. split.
  - intros Hsize. destruct (map_choose (errorsOf formData)) as (k & m & Hk).
    { intros E. rewrite E, map_size_empty in Hsize. lia. }
    assert (Hf : exists f, k = Spec41.name f).
    { destruct (decide (k = "firstName")) as [->|?]; [exists Spec41.FirstName; reflexivity|].
      destruct (decide (k = "lastName")) as [->|?]; [exists Spec41.LastName; reflexivity|].
      destruct (decide (k = "email")) as [->|?]; [exists Spec41.Email; reflexivity|].
      destruct (decide (k = "phoneNumber")) as [->|?]; [exists Spec41.PhoneNumber; reflexivity|].
      destruct (decide (k = "questions")) as [->|?]; [exists Spec41.Questions; reflexivity|].
      exfalso. revert Hk. unfold errorsOf, validation.
      rewrite check_questions_other, check_phoneNumber_other, check_email_other,
        check_lastName_other, check_firstName_other, lookup_empty by assumption.
      discriminate. }
    destruct Hf as (f & ->). exists f. apply errorsOf_is_Some. eauto.
  - intros (f & Hf). apply errorsOf_is_Some in Hf as (m & Hm).
    destruct (size (errorsOf formData)) eqn:E; [|lia].
    apply map_size_empty_inv in E. rewrite E, lookup_empty in Hm. discriminate.
Qed.

(** ** Running the handler *)

Lemma passes_validation_size (formData : gmap string jsstring) :
  passes_validation formData <-> (0 <? size (errorsOf formData))%nat = false.
Proof.
  rewrite <- not_true_iff_false, errorsOf_size. unfold passes_validation. split.
  - intros H (f & Hf). exact (Hf (H f)).
  - intros H f. apply errorsOf_None. destruct (errorsOf formData !! Spec41.name f) eqn:E; [|reflexivity].
    exfalso. apply H. exists f. apply errorsOf_is_Some. eauto.
Qed.

(** A form that passes validation has its four required fields. *)
Lemma passes_validation_fields (formData : gmap string jsstring) :
  passes_validation formData ->
  exists firstName lastName email questions,
    formData !! "firstName" = Some firstName /\ formData !! "lastName" = Some lastName /\
    formData !! "email" = Some email /\ formData !! "questions" = Some questions.
Proof.
  intros H.
  destruct (H Spec41.FirstName) as (fn & Hfn & _).
  destruct (H Spec41.LastName) as (ln & Hln & _).
  destruct (H Spec41.Email) as (em & Hem & _).
  destruct (H Spec41.Questions) as (q & Hq & _).
  simpl in *. eauto 10.
Qed.

Lemma action_invalid (env : Env) (formData : gmap string jsstring) (w : World) :
  (0 <? size (errorsOf formData))%nat = true ->
  action env formData w = (Normal (invalidResult (errorsOf formData)), w).
Proof.
  intros H. unfold action. cbv zeta. fold (errorsOf formData). rewrite H. reflexivity.
Qed.

Lemma after_after (w : World) t cs es t' cs' es' :
  after (after w t cs es) t' cs' es' = after w t' (cs ++ cs') (es ++ es').
Proof. unfold after. simpl. rewrite <- !app_assoc. reflexivity. Qed.

Lemma after_nil (w : World) : after w (contactForm w) [] [] = w.
Proof. unfold after. rewrite !app_nil_r. destruct w; reflexivity. Qed.

Section Fallback.
Variables (env : Env) (formData : gmap string jsstring) (w : World).
Hypothesis valid : passes_validation formData.

(** Unfolds the fallback on a form whose required fields are there. *)
Ltac run_fallback :=
  destruct (passes_validation_fields formData valid)
    as (firstName & lastName & email & questions & Hfn & Hln & Hem & Hq);
  unfold guardedFallback, fallbackToDatabase, existing, rowOf, mailOf, findCall, trimmed,
    prisma_contactForm_findFirst, prisma_contactForm_create,
    new_Resend, resend_emails_send, tryCatch in *;
  rewrite ?Hfn, ?Hln, ?Hem, ?Hq in *;
  unfold mbind, Async_bind, fmap, Async_fmap, mret, Async_ret, dot_trim, faulty,
    record_call, console_log, console_error, modify, gets, throw, after in *;
  simpl in *.

Lemma guardedFallback_findFirst_throws (cause : exn) :
  prisma_findFirst_fault env = Some cause ->
  guardedFallback env formData w =
    (Normal failureResult,
     after w (contactForm w) [findCall formData] [fallbackLog; failureLog cause]).
Proof.
  intros Hf. run_fallback. rewrite Hf. simpl. rewrite <- !app_assoc. reflexivity.
Qed.

Lemma guardedFallback_duplicate (row : ContactForm.t) :
  prisma_findFirst_fault env = None ->
  existing (contactForm w) (interpolate (formData !! "email")) = Some row ->
  guardedFallback env formData w =
    (Normal duplicateResult, after w (contactForm w) [findCall formData] [fallbackLog]).
Proof.
  intros Hf Hex. run_fallback. rewrite Hf. simpl.
  unfold normalizedEmail in Hex. rewrite Hex. reflexivity.
Qed.

Lemma guardedFallback_create_throws (cause : exn) :
  prisma_findFirst_fault env = None ->
  existing (contactForm w) (interpolate (formData !! "email")) = None ->
  prisma_create_fault env = Some cause ->
  guardedFallback env formData w =
    (Normal failureResult,
     after w (contactForm w) [findCall formData; PrismaCreate (rowOf formData)]
       [fallbackLog; failureLog cause]).
Proof.
  intros Hf Hex Hc. run_fallback. rewrite Hf. simpl.
  unfold normalizedEmail in Hex. rewrite Hex, Hc. simpl.
  rewrite <- !app_assoc. reflexivity.
Qed.

Lemma guardedFallback_Resend_throws (cause : exn) :
  prisma_findFirst_fault env = None ->
  existing (contactForm w) (interpolate (formData !! "email")) = None ->
  prisma_create_fault env = None ->
  resend_Resend_fault env = Some cause ->
  guardedFallback env formData w =
    (Normal failureResult,
     after w (contactForm w ++ [rowOf formData])
       [findCall formData; PrismaCreate (rowOf formData)]
       [fallbackLog; failureLog cause]).
Proof.
  intros Hf Hex Hc Hr. run_fallback. rewrite Hf. simpl.
  unfold normalizedEmail in Hex. rewrite Hex, Hc. simpl. rewrite Hr. simpl.
  rewrite <- !app_assoc. reflexivity.
Qed.

Lemma guardedFallback_send_throws (cause : exn) :
  prisma_findFirst_fault env = None ->
  existing (contactForm w) (interpolate (formData !! "email")) = None ->
  prisma_create_fault env = None ->
  resend_Resend_fault env = None ->
  resend_send_fault env = Some cause ->
  guardedFallback env formData w =
    (Normal failureResult,
     after w (contactForm w ++ [rowOf formData])
       [findCall formData; PrismaCreate (rowOf formData); ResendSend (mailOf formData)]
       [fallbackLog; failureLog cause]).
Proof.
  intros Hf Hex Hc Hr Hs. run_fallback. rewrite Hf. simpl.
  unfold normalizedEmail in Hex. rewrite Hex, Hc. simpl. rewrite Hr. simpl.
  rewrite Hs. simpl. rewrite <- !app_assoc. reflexivity.
Qed.

Lemma guardedFallback_completes :
  fallback_completes env ->
  existing (contactForm w) (interpolate (formData !! "email")) = None ->
  guardedFallback env formData w =
    (Normal successResult,
     after w (contactForm w ++ [rowOf formData])
       [findCall formData; PrismaCreate (rowOf formData); ResendSend (mailOf formData)]
       [fallbackLog]).
Proof.
  intros (Hf & Hc & Hr & Hs) Hex. run_fallback. rewrite Hf. simpl.
  unfold normalizedEmail in Hex. rewrite Hex, Hc. simpl. rewrite Hr. simpl.
  rewrite Hs. simpl. rewrite <- !app_assoc. reflexivity.
Qed.
End Fallback.

Section Action.
Variables (env : Env) (formData : gmap string jsstring) (w : World).
Hypothesis valid : passes_validation formData.

(** Unfolds the handler on a form that passes validation, down to the
    fallback. *)
Ltac run_action :=
  destruct (passes_validation_fields formData valid)
    as (firstName & lastName & email & questions & Hfn & Hln & Hem & Hq);
  pose proof (proj1 (passes_validation_size formData) valid) as Hsize;
  unfold action; cbv zeta; fold (errorsOf formData); fold (phoneOf formData);
  rewrite Hsize;
  change (tryCatch
            (fallbackToDatabase env (formData !! "firstName") (formData !! "lastName")
               (formData !! "email") (phoneOf formData) (formData !! "questions"))
            (fun error => console_error "Form submission error:" error;; mret failureResult))
    with (guardedFallback env formData);
  fold (guardedFallback env formData).

Lemma action_no_key :
  truthy (HUBSPOT_API_KEY env) = false ->
  action env formData w =
    guardedFallback env formData (after w (contactForm w) [] [noKeyLog]).
Proof.
  intros Hk. run_action. rewrite Hk.
  unfold guardedFallback, tryCatch, mbind, Async_bind, console_log, modify, after.
  simpl. rewrite app_nil_r. reflexivity.
Qed.

(** Unfolds the [try] block around the HubSpot call. *)
Ltac run_hubspot :=
  unfold guardedFallback, tryCatch, createHubspotContact, new_Client,
    hubspot_contacts_create, propertiesOf, trimmed, normalizedEmail;
  repeat match goal with
         | H : formData !! _ = Some _ |- _ => rewrite !H; clear H
         end;
  unfold mbind, Async_bind, fmap, Async_fmap, mret, Async_ret, dot_trim, faulty,
    record_call, console_log, console_error, modify, gets, throw, after.

Lemma action_Client_throws (cause : exn) :
  crm_configured env -> hubspot_Client_fault env = Some cause ->
  action env formData w =
    guardedFallback env formData
      (after w (contactForm w) [] [attemptLog; hubspotFailureLog cause]).
Proof.
  intros Hk Hc. run_action. rewrite Hk. run_hubspot. rewrite Hc. simpl.
  rewrite app_nil_r, <- !app_assoc. reflexivity.
Qed.

Lemma action_create_throws (cause : exn) :
  crm_configured env -> crm_fails env cause ->
  action env formData w =
    guardedFallback env formData
      (after w (contactForm w) [HubspotCreate (propertiesOf formData)]
         [attemptLog; hubspotFailureLog cause]).
Proof.
  intros Hk [Hc Hcr]. run_action. rewrite Hk. run_hubspot. rewrite Hc. simpl.
  destruct (phoneOf formData) as [[|c p]|]; simpl; rewrite Hcr; simpl;
    rewrite <- !app_assoc; reflexivity.
Qed.

Lemma action_crm_succeeds :
  crm_configured env -> crm_succeeds env ->
  action env formData w =
    (Normal successResult,
     after w (contactForm w) [HubspotCreate (propertiesOf formData)]
       [attemptLog; createdLog]).
Proof.
  intros Hk [Hc Hcr]. run_action. rewrite Hk. run_hubspot. rewrite Hc. simpl.
  destruct (phoneOf formData) as [[|c p]|]; simpl; rewrite Hcr; simpl;
    rewrite <- !app_assoc; reflexivity.
Qed.

(** Whichever way the fallback is reached, it starts on the same table,
    after at most the one CRM call. *)
Lemma action_reaches_fallback :
  reaches_fallback env ->
  exists cs es,
    action env formData w = guardedFallback env formData (after w (contactForm w) cs es)
    /\ (cs = [] \/ (crm_configured env /\ cs = [HubspotCreate (propertiesOf formData)])).
Proof.
  intros Hr. destruct (truthy (HUBSPOT_API_KEY env)) eqn:Hk.
  - destruct (hubspot_Client_fault env) as [e|] eqn:Hc.
    + eexists _, _. split; [exact (action_Client_throws e Hk Hc) | left; reflexivity].
    + destruct (hubspot_create_fault env) as [e|] eqn:Hcr.
      * eexists _, _. split; [exact (action_create_throws e Hk (conj Hc Hcr))|].
        right. split; [exact Hk | reflexivity].
      * destruct Hr as [Hr|[Hr|Hr]]; congruence.
  - eexists _, _. split; [exact (action_no_key Hk) | left; reflexivity].
Qed.
End Action.

(** * The claims *)

(** C2. If at least one field breaks its rule of section 4.1, the handler
    returns [success: false] with a message of that field under the
    field's name in [errors], and it leaves the world as it found it: no
    CRM call, no read or write of the store, no email. *)
Theorem invalid_field_rejected_without_calls
    (env : Env) (formData : gmap string jsstring) (w : World) (f : Spec41.field) :
  ~ Spec41.passes f formData ->
  exists (errs : gmap string jsstring) (m : jsstring),
    action env formData w =
      (Normal (mkResult false (lit "Please fix the validation errors") (Some errs)), w)
    /\ errs !! Spec41.name f = Some m /\ In m (messages f).
Proof.
  intros Hf. pose proof (proj2 (errorsOf_is_Some f formData) Hf) as (m & Hm).
  exists (errorsOf formData), m. split; [|split].
  - apply action_invalid, errorsOf_size. exists f. exact Hf.
  - exact Hm.
  - exact (errorsOf_Some f formData m Hm).
Qed.

Lemma invalid_field_rejected_without_calls_witness :
  exists (errs : gmap string jsstring) (m : jsstring),
    action Sample.crmDown Sample.notAnEmail Sample.emptyWorld =
      (Normal (mkResult false (lit "Please fix the validation errors") (Some errs)),
       Sample.emptyWorld)
    /\ errs !! "email" = Some m /\ In m (messages Spec41.Email).
Proof.
  apply (invalid_field_rejected_without_calls
           Sample.crmDown Sample.notAnEmail Sample.emptyWorld Spec41.Email).
  apply errorsOf_is_Some. vm_compute. eexists. reflexivity.
Defined.

(** The example of the specification: [email: "not-an-email"] is answered
    with [errors: { email: "Invalid email" }] and nothing else. *)
Example notAnEmail_errors (env : Env) :
  action env Sample.notAnEmail Sample.emptyWorld =
    (Normal (invalidResult {[ "email" := lit "Invalid email" ]}), Sample.emptyWorld).
Proof.
  rewrite action_invalid by (vm_compute; reflexivity).
  replace (errorsOf Sample.notAnEmail) with ({[ "email" := lit "Invalid email" ]} : gmap string jsstring);
    [reflexivity | vm_compute; reflexivity].
Qed.

(** C7. When several fields are invalid the handler reports all of them:
    the [errors] mapping has a message of the field for every field that
    breaks its rule, and none for a field that keeps it. *)
Theorem every_invalid_field_reported
    (env : Env) (formData : gmap string jsstring) (w : World) :
  (exists f, ~ Spec41.passes f formData) ->
  exists errs : gmap string jsstring,
    action env formData w =
      (Normal (mkResult false (lit "Please fix the validation errors") (Some errs)), w)
    /\ (forall f, ~ Spec41.passes f formData ->
          exists m, errs !! Spec41.name f = Some m /\ In m (messages f))
    /\ (forall f, Spec41.passes f formData -> errs !! Spec41.name f = None).
Proof.
  intros Hex. exists (errorsOf formData). split; [|split].
  - apply action_invalid, errorsOf_size, Hex.
  - intros f Hf. apply errorsOf_is_Some in Hf as (m & Hm).
    exists m. split; [exact Hm | exact (errorsOf_Some f formData m Hm)].
  - intros f Hf. apply errorsOf_None, Hf.
Qed.

Lemma every_invalid_field_reported_witness :
  exists errs : gmap string jsstring,
    action Sample.quiet Sample.manyErrors Sample.emptyWorld =
      (Normal (mkResult false (lit "Please fix the validation errors") (Some errs)),
       Sample.emptyWorld)
    /\ (forall f, ~ Spec41.passes f Sample.manyErrors ->
          exists m, errs !! Spec41.name f = Some m /\ In m (messages f))
    /\ (forall f, Spec41.passes f Sample.manyErrors -> errs !! Spec41.name f = None).
Proof.
  apply (every_invalid_field_reported Sample.quiet Sample.manyErrors Sample.emptyWorld).
  exists Spec41.PhoneNumber. apply errorsOf_is_Some. vm_compute. eexists. reflexivity.
Defined.

(** The three broken fields of [Sample.manyErrors], each with its message. *)
Example manyErrors_errors :
  errorsOf Sample.manyErrors =
    list_to_map [("firstName", lit "At least 2 characters"); ("email", lit "Invalid email");
                 ("phoneNumber", lit "Invalid phone number format")].
Proof. vm_compute. reflexivity. Qed.

(** C8, as stated, fails on a phone number made of white space: it is not
    empty and has no digit, yet [validatePhone] accepts it and the handler
    records no error for it. *)
Lemma blank_phone_accepted :
  lit " " <> []
  /\ validatePhone (lit " ") None = true
  /\ errorsOf (<["phoneNumber" := lit " "]> Sample.jo) !! "phoneNumber" = None
  /\ ~ (7 <= Spec41.digit_count (lit " ") <= 12)%nat.
Proof.
  split; [discriminate|]. split; [reflexivity|]. split; [vm_compute; reflexivity|].
  vm_compute. lia.
Qed.

(** C8, amended. The phone field is optional: an absent, empty or
    white-space-only phone number passes validation, and a phone number
    with some other character passes exactly when it has at least 7 and at
    most 12 digits. *)
Theorem phone_number_rule (formData : gmap string jsstring) :
  errorsOf formData !! "phoneNumber" = None <->
  match formData !! "phoneNumber" with
  | None => True
  | Some p =>
      forallb isWhiteSpace p = true
      \/ (forallb isWhiteSpace p = false
          /\ (7 <= length (List.filter isDigit p) <= 12)%nat)
  end.
Proof.
  rewrite (errorsOf_None Spec41.PhoneNumber). simpl. unfold Spec41.phone_ok.
  destruct (formData !! "phoneNumber") as [p|]; [|reflexivity].
  rewrite trim_nil_blank. unfold Spec41.digit_count.
  destruct (forallb isWhiteSpace p); intuition congruence.
Qed.

(** The same at [validatePhone], which the handler calls on the trimmed
    value. *)
Lemma validatePhone_rule (p : jsstring) (countryCode : option jsstring) :
  validatePhone p countryCode = true <->
  forallb isWhiteSpace p = true \/ (7 <= length (List.filter isDigit p) <= 12)%nat.
Proof.
  unfold validatePhone, jsstring_eqb.
  destruct (decide (trim p = [])) as [E|E].
  - rewrite (bool_decide_eq_true_2 _ E), orb_true_r.
    apply trim_nil_blank in E. tauto.
  - rewrite (bool_decide_eq_false_2 _ E), orb_false_r.
    assert (forallb isWhiteSpace p <> true) by (rewrite <- trim_nil_blank; exact E).
    destruct p as [|c p]; [exfalso; apply E; reflexivity|].
    simpl negb. cbv iota. rewrite andb_true_iff, !Nat.leb_le. tauto.
Qed.

Lemma new_calls_after (w : World) t cs es : new_calls w (after w t cs es) = cs.
Proof. unfold new_calls, after. simpl. apply drop_app_length. Qed.

(** C4. On a form that passes validation, with a CRM credential
    configured and the create-contact call succeeding, the handler answers
    with the success result; the one call it makes is the create-contact
    call: no row is created, no email is sent, and the table is as it
    was. *)
Theorem crm_success_leaves_store_alone
    (env : Env) (formData : gmap string jsstring) (w : World) :
  passes_validation formData -> crm_configured env -> crm_succeeds env ->
  exists w',
    action env formData w =
      (Normal (mkResult true
                 (lit "Form submitted successfully! Our team will contact you soon.") None),
       w')
    /\ contactForm w' = contactForm w
    /\ new_calls w w' = [HubspotCreate (propertiesOf formData)].
Proof.
  intros Hv Hk Hs. eexists. split; [exact (action_crm_succeeds env formData w Hv Hk Hs)|].
  split; [reflexivity | apply new_calls_after].
Qed.

Lemma passes_validation_jo : passes_validation Sample.jo.
Proof. apply passes_validation_size. vm_compute. reflexivity. Qed.

Lemma crm_success_leaves_store_alone_witness :
  exists w',
    action (Sample.withKey Sample.quiet) Sample.jo Sample.emptyWorld =
      (Normal (mkResult true
                 (lit "Form submitted successfully! Our team will contact you soon.") None),
       w')
    /\ contactForm w' = contactForm Sample.emptyWorld
    /\ new_calls Sample.emptyWorld w' = [HubspotCreate (propertiesOf Sample.jo)].
Proof.
  apply (crm_success_leaves_store_alone (Sample.withKey Sample.quiet) Sample.jo
           Sample.emptyWorld).
  - exact passes_validation_jo.
  - reflexivity.
  - split; reflexivity.
Defined.

(** An exception raised in the fallback path ends in the outer [catch]. *)
Lemma guardedFallback_raised
    (env : Env) (formData : gmap string jsstring) (w : World) (cause : exn) :
  passes_validation formData ->
  raised_in_fallback env (contactForm w) (interpolate (formData !! "email")) cause ->
  exists t cs,
    guardedFallback env formData w =
      (Normal failureResult, after w t cs [fallbackLog; failureLog cause]).
Proof.
  intros Hv [c Hf | c Hf Hex Hc | c Hf Hex Hc [Hr | [Hr Hs]]].
  - eexists _, _. exact (guardedFallback_findFirst_throws env formData w Hv c Hf).
  - eexists _, _. exact (guardedFallback_create_throws env formData w Hv c Hf Hex Hc).
  - eexists _, _. exact (guardedFallback_Resend_throws env formData w Hv c Hf Hex Hc Hr).
  - eexists _, _. exact (guardedFallback_send_throws env formData w Hv c Hf Hex Hc Hr Hs).
Qed.

(** C5. Whatever exception the duplicate-check query, the insert or the
    email client raises in the fallback path, the handler answers
    [success: false] with the one generic message and no [errors]; the
    cause is written to the console and is no part of the answer. *)
Theorem fallback_exception_is_generic_failure
    (env : Env) (formData : gmap string jsstring) (w : World) (cause : exn) :
  passes_validation formData -> reaches_fallback env ->
  raised_in_fallback env (contactForm w) (interpolate (formData !! "email")) cause ->
  exists w' es,
    action env formData w =
      (Normal (mkResult false (lit "Failed to submit form. Please try again later.") None),
       w')
    /\ console w' = console w ++ es ++ [ConsoleError "Form submission error:" cause].
Proof.
  intros Hv Hr Hc.
  destruct (action_reaches_fallback env formData w Hv Hr) as (cs & es & -> & _).
  destruct (guardedFallback_raised env formData (after w (contactForm w) cs es) cause Hv Hc)
    as (t & cs' & ->).
  eexists _, (es ++ [fallbackLog]). split; [reflexivity|].
  simpl. rewrite <- !app_assoc. reflexivity.
Qed.

Lemma fallback_exception_is_generic_failure_witness :
  exists w' es,
    action Sample.mailDown Sample.jo Sample.emptyWorld =
      (Normal (mkResult false (lit "Failed to submit form. Please try again later.") None),
       w')
    /\ console w' =
         console Sample.emptyWorld ++ es
           ++ [ConsoleError "Form submission error:" (Error "Missing API key")].
Proof.
  apply (fallback_exception_is_generic_failure Sample.mailDown Sample.jo Sample.emptyWorld
           (Error "Missing API key")).
  - exact passes_validation_jo.
  - left. reflexivity.
  - apply raised_by_email; try reflexivity. left. reflexivity.
Defined.

(** The answer is the same for any two causes. *)
Corollary fallback_exception_cause_hidden
    (env1 env2 : Env) (formData : gmap string jsstring) (w : World) (cause1 cause2 : exn) :
  passes_validation formData -> reaches_fallback env1 -> reaches_fallback env2 ->
  raised_in_fallback env1 (contactForm w) (interpolate (formData !! "email")) cause1 ->
  raised_in_fallback env2 (contactForm w) (interpolate (formData !! "email")) cause2 ->
  fst (action env1 formData w) = fst (action env2 formData w).
Proof.
  intros Hv H1 H2 Hc1 Hc2.
  destruct (action_reaches_fallback env1 formData w Hv H1) as (cs1 & es1 & -> & _).
  destruct (action_reaches_fallback env2 formData w Hv H2) as (cs2 & es2 & -> & _).
  destruct (guardedFallback_raised env1 formData (after w (contactForm w) cs1 es1)
              cause1 Hv Hc1) as (? & ? & ->).
  destruct (guardedFallback_raised env2 formData (after w (contactForm w) cs2 es2)
              cause2 Hv Hc2) as (? & ? & ->).
  reflexivity.
Qed.

(** Every run of the guarded fallback: the duplicate check first, then
    the insert, then the email, as far as it gets. *)
Lemma guardedFallback_calls (env : Env) (formData : gmap string jsstring) (w : World) :
  passes_validation formData ->
  exists r t cs es,
    guardedFallback env formData w = (Normal r, after w t cs (fallbackLog :: es))
    /\ (t = contactForm w
        \/ (existing (contactForm w) (interpolate (formData !! "email")) = None
            /\ t = contactForm w ++ [rowOf formData]))
    /\ In cs [[findCall formData];
              [findCall formData; PrismaCreate (rowOf formData)];
              [findCall formData; PrismaCreate (rowOf formData);
               ResendSend (mailOf formData)]].
Proof.
  intros Hv.
  destruct (prisma_findFirst_fault env) as [e|] eqn:Hf.
  { eexists _, _, _, _. split; [exact (guardedFallback_findFirst_throws _ _ _ Hv e Hf)|].
    simpl. tauto. }
  destruct (existing (contactForm w) (interpolate (formData !! "email"))) as [row|] eqn:Hex.
  { eexists _, _, _, _. split; [exact (guardedFallback_duplicate _ _ _ Hv row Hf Hex)|].
    simpl. tauto. }
  destruct (prisma_create_fault env) as [e|] eqn:Hc.
  { eexists _, _, _, _. split; [exact (guardedFallback_create_throws _ _ _ Hv e Hf Hex Hc)|].
    simpl. tauto. }
  destruct (resend_Resend_fault env) as [e|] eqn:Hr.
  { eexists _, _, _, _.
    split; [exact (guardedFallback_Resend_throws _ _ _ Hv e Hf Hex Hc Hr)|].
    simpl. tauto. }
  destruct (resend_send_fault env) as [e|] eqn:Hs.
  { eexists _, _, _, _.
    split; [exact (guardedFallback_send_throws _ _ _ Hv e Hf Hex Hc Hr Hs)|].
    simpl. tauto. }
  eexists _, _, _, _.
  split; [exact (guardedFallback_completes _ _ _ Hv (conj Hf (conj Hc (conj Hr Hs))) Hex)|].
  simpl. tauto.
Qed.

(** C6. On a form that passes validation, with no CRM credential
    configured, the handler takes the fallback path: it logs that it
    falls back, makes the duplicate check, then the insert, then the
    email send, in this order and as far as the path gets, and it makes
    no CRM call; when nothing throws and the email is not stored yet it
    makes all three and answers with the success result. *)
Theorem no_credential_takes_fallback
    (env : Env) (formData : gmap string jsstring) (w : World) :
  passes_validation formData -> ~ crm_configured env ->
  exists r w' es,
    action env formData w = (Normal r, w')
    /\ console w' = console w ++ noKeyLog :: fallbackLog :: es
    /\ In (new_calls w w')
         [[findCall formData];
          [findCall formData; PrismaCreate (rowOf formData)];
          [findCall formData; PrismaCreate (rowOf formData); ResendSend (mailOf formData)]]
    /\ (forall properties, ~ In (HubspotCreate properties) (new_calls w w'))
    /\ (fallback_completes env ->
        existing (contactForm w) (interpolate (formData !! "email")) = None ->
        r = successResult
        /\ new_calls w w' =
             [findCall formData; PrismaCreate (rowOf formData);
              ResendSend (mailOf formData)]).
Proof.
  intros Hv Hk. unfold crm_configured in Hk. apply not_true_is_false in Hk.
  rewrite (action_no_key env formData w Hv Hk).
  set (w1 := after w (contactForm w) [] [noKeyLog]).
  destruct (guardedFallback_calls env formData w1 Hv) as (r & t & cs & es & E & _ & Hcs).
  exists r, (after w1 t cs (fallbackLog :: es)), es.
  assert (Hnew : new_calls w (after w1 t cs (fallbackLog :: es)) = cs).
  { unfold w1. rewrite after_after. apply new_calls_after. }
  rewrite Hnew. split; [exact E|]. split; [|split; [exact Hcs|split]].
  - unfold w1. rewrite after_after. simpl. reflexivity.
  - intros properties Hin. simpl in Hcs.
    destruct Hcs as [<-|[<-|[<-|[]]]]; simpl in Hin; unfold findCall in Hin;
      intuition discriminate.
  - intros Hc Hex. rewrite (guardedFallback_completes env formData w1 Hv Hc Hex) in E.
    apply (f_equal (fun x => (fst x, new_calls w1 (snd x)))) in E.
    simpl in E. rewrite !new_calls_after in E. injection E as <- <-. auto.
Qed.

Lemma no_credential_takes_fallback_witness :
  exists r w' es,
    action Sample.quiet Sample.jo Sample.emptyWorld = (Normal r, w')
    /\ console w' = console Sample.emptyWorld ++ noKeyLog :: fallbackLog :: es
    /\ (forall properties,
          ~ In (HubspotCreate properties) (new_calls Sample.emptyWorld w'))
    /\ r = successResult
    /\ new_calls Sample.emptyWorld w' =
         [findCall Sample.jo; PrismaCreate (rowOf Sample.jo); ResendSend (mailOf Sample.jo)].
Proof.
  destruct (no_credential_takes_fallback Sample.quiet Sample.jo Sample.emptyWorld)
    as (r & w' & es & Hrun & Hlog & _ & Hcrm & Hall).
  - exact passes_validation_jo.
  - unfold crm_configured. simpl. discriminate.
  - exists r, w', es. split; [exact Hrun|]. split; [exact Hlog|]. split; [exact Hcrm|].
    apply Hall; [repeat split; reflexivity | reflexivity].
Defined.

(** ** Duplicates *)

Lemma same_modulo_normalizedEmail (e1 e2 : jsstring) :
  same_modulo_case_and_padding e1 e2 -> normalizedEmail e1 = normalizedEmail e2.
Proof.
  intros (pre1 & core1 & post1 & pre2 & core2 & post2 & -> & -> & Hws & Hcore).
  rewrite !forallb_app, !andb_true_iff in Hws. destruct Hws as (H1 & H2 & H3 & H4).
  unfold normalizedEmail. rewrite !trim_padding by assumption.
  rewrite <- !trim_toLowerCase. f_equal. unfold toLowerCase.
  induction Hcore as [|a b l1 l2 Hab _ IH]; simpl; [reflexivity|].
  rewrite Hab, IH. reflexivity.
Qed.

Lemma existing_None (table : list ContactForm.t) (email : jsstring) :
  existing table email = None <->
  forall row, In row table -> ContactForm.email row <> normalizedEmail email.
Proof.
  unfold existing, jsstring_eqb. split.
  - intros H row Hin E.
    pose proof (find_none _ _ H row Hin) as Hb. simpl in Hb.
    rewrite bool_decide_eq_true_2 in Hb by exact E. discriminate.
  - intros H. destruct (find _ table) as [row|] eqn:E; [|reflexivity].
    apply find_some in E as [Hin Hb]. apply bool_decide_eq_true_1 in Hb.
    destruct (H row Hin Hb).
Qed.

Lemma existing_app (table more : list ContactForm.t) (email : jsstring) :
  existing table email <> None -> existing (table ++ more) email <> None.
Proof.
  rewrite !existing_None. intros H1 H2. apply H1. intros row Hin.
  apply H2, in_or_app. left. exact Hin.
Qed.

Lemma existing_stored (table : list ContactForm.t) (formData : gmap string jsstring) :
  existing (table ++ [rowOf formData]) (interpolate (formData !! "email")) <> None.
Proof.
  rewrite existing_None. intros H.
  apply (H (rowOf formData)); [|reflexivity].
  apply in_or_app. right. left. reflexivity.
Qed.

(** A submission that gets to the fallback, whose duplicate check answers
    and finds a row, is rejected and changes no row. *)
Lemma duplicate_rejected (env : Env) (formData : gmap string jsstring) (w : World) :
  passes_validation formData -> reaches_fallback env ->
  prisma_findFirst_fault env = None ->
  existing (contactForm w) (interpolate (formData !! "email")) <> None ->
  exists w', action env formData w = (Normal duplicateResult, w')
             /\ contactForm w' = contactForm w.
Proof.
  intros Hv Hr Hf Hex.
  destruct (action_reaches_fallback env formData w Hv Hr) as (cs & es & -> & _).
  destruct (existing (contactForm w) (interpolate (formData !! "email"))) as [row|] eqn:E;
    [|congruence].
  eexists. split.
  - exact (guardedFallback_duplicate env formData (after w (contactForm w) cs es)
             Hv row Hf E).
  - reflexivity.
Qed.

(** What one submission does to the table: nothing, or one row for an
    email that was not there. *)
Lemma action_table (env : Env) (formData : gmap string jsstring) (w : World) :
  contactForm (snd (action env formData w)) = contactForm w
  \/ (passes_validation formData
      /\ existing (contactForm w) (interpolate (formData !! "email")) = None
      /\ contactForm (snd (action env formData w)) = contactForm w ++ [rowOf formData]).
Proof.
  destruct (0 <? size (errorsOf formData))%nat eqn:Hsize.
  { left. rewrite action_invalid by exact Hsize. reflexivity. }
  apply passes_validation_size in Hsize. rename Hsize into Hv.
  assert (Hcases : reaches_fallback env \/ (crm_configured env /\ crm_succeeds env)).
  { unfold reaches_fallback, crm_configured, crm_succeeds.
    destruct (truthy (HUBSPOT_API_KEY env)); [|left; left; reflexivity].
    destruct (hubspot_Client_fault env); [left; right; left; discriminate|].
    destruct (hubspot_create_fault env); [left; right; right; discriminate|].
    right. auto. }
  destruct Hcases as [Hr | [Hk Hs]].
  - destruct (action_reaches_fallback env formData w Hv Hr) as (cs & es & -> & _).
    destruct (guardedFallback_calls env formData (after w (contactForm w) cs es) Hv)
      as (r & t & cs' & es' & -> & Ht & _).
    simpl. destruct Ht as [-> | [Hex ->]]; [left; reflexivity | right; auto].
  - left. rewrite (action_crm_succeeds env formData w Hv Hk Hs). reflexivity.
Qed.

Lemma submissions_table (requests : list (Env * gmap string jsstring)) (w : World) :
  exists more, contactForm (snd (submissions requests w)) = contactForm w ++ more.
Proof.
  revert w. induction requests as [|[env formData] rest IH]; intros w; simpl.
  - exists []. symmetry. apply app_nil_r.
  - pose proof (action_table env formData w) as Ht.
    destruct (action env formData w) as [r w1]. simpl in Ht.
    destruct (IH w1) as (more & Hmore).
    destruct (submissions rest w1) as [rs w2]. simpl in *.
    rewrite Hmore. destruct Ht as [-> | (_ & _ & ->)].
    + exists more. reflexivity.
    + exists ([rowOf formData] ++ more). rewrite app_assoc. reflexivity.
Qed.

(** The emails of the two samples differ only by case and padding. *)
Lemma jo_joAgain_same_email :
  same_modulo_case_and_padding (lit "jo@acme.com") (lit "  Jo@Acme.COM ").
Proof.
  exists [], (lit "jo@acme.com"), [], (lit "  "), (lit "Jo@Acme.COM"), (lit " ").
  split; [reflexivity|]. split; [reflexivity|]. split; [reflexivity|].
  repeat constructor.
Qed.

Lemma passes_validation_joAgain : passes_validation Sample.joAgain.
Proof. apply passes_validation_size. vm_compute. reflexivity. Qed.

(** The run of the claim on the samples: the first answer is the failure,
    the second the duplicate rejection, and one row is stored. *)
Example failed_then_duplicate :
  let '(rs, w) := submissions [(Sample.mailDown, Sample.jo); (Sample.quiet, Sample.joAgain)]
                    Sample.emptyWorld in
  rs = [Normal failureResult; Normal duplicateResult] /\ contactForm w = [rowOf Sample.jo].
Proof. vm_compute. split; reflexivity. Qed.

(** ** One row per email *)

Lemma lookup_In (table : list ContactForm.t) (i : nat) (row : ContactForm.t) :
  table !! i = Some row -> In row table.
Proof. intros H. apply list_elem_of_In, list_elem_of_lookup. eauto. Qed.

Lemma same_modulo_refl (e : jsstring) : same_modulo_case_and_padding e e.
Proof.
  exists [], e, [], [], e, []. rewrite !app_nil_r. repeat split.
  induction e; constructor; auto.
Qed.

Lemma one_row_per_email_snoc (table : list ContactForm.t) (formData : gmap string jsstring) :
  normalized_rows table -> one_row_per_email table ->
  existing table (interpolate (formData !! "email")) = None ->
  normalized_rows (table ++ [rowOf formData])
  /\ one_row_per_email (table ++ [rowOf formData]).
Proof.
  intros Hn Hu Hex. split.
  - apply Forall_app. split; [exact Hn|].
    constructor; [|constructor]. simpl. apply normalizedEmail_idem.
  - assert (Hfresh : forall i row, table !! i = Some row ->
              normalizedEmail (ContactForm.email row) <>
              normalizedEmail (ContactForm.email (rowOf formData))).
    { intros i row Hi E. simpl in E. rewrite normalizedEmail_idem in E.
      rewrite existing_None in Hex. apply (Hex row (lookup_In _ _ _ Hi)).
      rewrite <- E. symmetry. exact (Forall_lookup_1 _ _ _ _ Hn Hi). }
    intros i j row1 row2 Hi Hj Hsame.
    apply same_modulo_normalizedEmail in Hsame.
    destruct (decide (i < length table)%nat) as [Hil|Hil],
             (decide (j < length table)%nat) as [Hjl|Hjl].
    + rewrite lookup_app_l in Hi, Hj by assumption.
      apply (Hu i j row1 row2 Hi Hj).
      rewrite (Forall_lookup_1 _ _ _ _ Hn Hi), (Forall_lookup_1 _ _ _ _ Hn Hj) in Hsame.
      rewrite Hsame. apply same_modulo_refl.
    + rewrite lookup_app_l in Hi by assumption.
      rewrite lookup_app_r in Hj by lia.
      destruct (j - length table)%nat as [|k] eqn:Ek; simpl in Hj; [|destruct k; discriminate].
      injection Hj as <-. destruct (Hfresh i row1 Hi Hsame).
    + rewrite lookup_app_l in Hj by assumption.
      rewrite lookup_app_r in Hi by lia.
      destruct (i - length table)%nat as [|k] eqn:Ek; simpl in Hi; [|destruct k; discriminate].
      injection Hi as <-. symmetry in Hsame. destruct (Hfresh j row2 Hj Hsame).
    + apply lookup_lt_Some in Hi, Hj. rewrite length_app in Hi, Hj. simpl in Hi, Hj. lia.
Qed.

Lemma submissions_keep_one_row_per_email
    (requests : list (Env * gmap string jsstring)) (w : World) :
  normalized_rows (contactForm w) -> one_row_per_email (contactForm w) ->
  normalized_rows (contactForm (snd (submissions requests w)))
  /\ one_row_per_email (contactForm (snd (submissions requests w))).
Proof.
  revert w. induction requests as [|[env formData] rest IH]; intros w Hn Hu; simpl.
  - split; assumption.
  - pose proof (action_table env formData w) as Ht.
    destruct (action env formData w) as [r w1]. simpl in Ht.
    specialize (IH w1).
    destruct (submissions rest w1) as [rs w2]. simpl in *.
    destruct Ht as [E | (_ & Hex & E)]; rewrite E in IH.
    + apply IH; assumption.
    + destruct (one_row_per_email_snoc _ formData Hn Hu Hex). apply IH; assumption.
Qed.

(** The second example of the specification, with the email written
    differently the second time. *)
Example jo_then_joAgain :
  let '(rs, w) := submissions [(Sample.quiet, Sample.jo); (Sample.crmDown, Sample.joAgain)]
                    Sample.emptyWorld in
  rs = [Normal successResult; Normal duplicateResult] /\ contactForm w = [rowOf Sample.jo].
Proof. vm_compute. split; reflexivity. Qed.

(** ** The phone number *)

Lemma blank_trim (s : jsstring) :
  forallb isWhiteSpace (trim s) = true <-> forallb isWhiteSpace s = true.
Proof. rewrite <- !trim_nil_blank, trim_idem. reflexivity. Qed.

Lemma blank_trim_eq (s : jsstring) :
  forallb isWhiteSpace (trim s) = forallb isWhiteSpace s.
Proof. apply eq_true_iff_eq, blank_trim. Qed.

Lemma phone_or_null_Some (s : jsstring) : phone_or_null (Some s) <> None <-> trim s <> [].
Proof.
  unfold phone_or_null. change (trim <$> Some s) with (Some (trim s)).
  destruct (trim s); unfold truthy; split; congruence.
Qed.

Lemma truthy_Some (v : option jsstring) :
  truthy v = true -> exists c s, v = Some (c :: s).
Proof. destruct v as [[|c s]|]; try discriminate. eauto. Qed.

(** [phone?.trim() || null] on the combined value. *)
Lemma stored_phone_Some (countryCode phoneNumber : option jsstring) :
  phone_or_null (combinedPhone countryCode phoneNumber) <> None <->
  truthy countryCode = true /\ truthy phoneNumber = true
  /\ ~ (blank countryCode /\ blank phoneNumber).
Proof.
  unfold combinedPhone.
  destruct (truthy countryCode) eqn:Hc; [destruct (truthy phoneNumber) eqn:Hp|];
    cbn [andb];
    try (split; [intros H; destruct H; reflexivity | intros (? & ? & _); discriminate]).
  apply truthy_Some in Hc as (c & cc & ->). apply truthy_Some in Hp as (p & pn & ->).
  cbn [interpolate]. rewrite phone_or_null_Some, trim_nil_blank.
  rewrite !forallb_app, blank_trim_eq. unfold blank. split.
  - intros H. split; [reflexivity|]. split; [reflexivity|].
    intros [(s1 & [= <-] & H1) (s2 & [= <-] & H2)]. apply H.
    rewrite H1, H2. reflexivity.
  - intros (_ & _ & H) E. apply H.
    rewrite !andb_true_iff in E. destruct E as (H1 & _ & H2).
    split; eexists; (split; [reflexivity | assumption]).
Qed.

Lemma combinedPhone_no_code (countryCode phoneNumber : option jsstring) :
  truthy countryCode = false -> combinedPhone countryCode phoneNumber = None.
Proof. unfold combinedPhone. intros ->. reflexivity. Qed.

(** The calls of one submission carry the values of the form. *)
Lemma action_calls (env : Env) (formData : gmap string jsstring) (w : World) :
  passes_validation formData ->
  forall c, In c (new_calls w (snd (action env formData w))) ->
    In c [HubspotCreate (propertiesOf formData); findCall formData;
          PrismaCreate (rowOf formData); ResendSend (mailOf formData)].
Proof.
  intros Hv c.
  assert (Hcases : reaches_fallback env \/ (crm_configured env /\ crm_succeeds env)).
  { unfold reaches_fallback, crm_configured, crm_succeeds.
    destruct (truthy (HUBSPOT_API_KEY env)); [|left; left; reflexivity].
    destruct (hubspot_Client_fault env); [left; right; left; discriminate|].
    destruct (hubspot_create_fault env); [left; right; right; discriminate|].
    right. auto. }
  destruct Hcases as [Hr | [Hk Hs]].
  - destruct (action_reaches_fallback env formData w Hv Hr) as (cs & es & -> & Hcs).
    destruct (guardedFallback_calls env formData (after w (contactForm w) cs es) Hv)
      as (r & t & cs' & es' & -> & _ & Hcs').
    simpl snd. rewrite after_after, new_calls_after. intros Hin.
    apply in_app_or in Hin as [Hin | Hin].
    + destruct Hcs as [-> | [_ ->]]; simpl in Hin; [tauto|]. simpl. tauto.
    + simpl in Hcs'. destruct Hcs' as [<-|[<-|[<-|[]]]]; simpl in Hin; simpl; tauto.
  - rewrite (action_crm_succeeds env formData w Hv Hk Hs). simpl snd.
    rewrite new_calls_after. simpl. tauto.
Qed.

Lemma action_new_row (env : Env) (formData : gmap string jsstring) (w : World)
    (row : ContactForm.t) :
  contactForm (snd (action env formData w)) = contactForm w ++ [row] ->
  row = rowOf formData.
Proof.
  intros E. destruct (action_table env formData w) as [E' | (_ & _ & E')]; rewrite E' in E.
  - apply (f_equal length) in E. rewrite length_app in E. simpl in E. lia.
  - apply app_inv_head in E. injection E as <-. reflexivity.
Qed.

(** C9, as stated, fails when the country code and the phone number are
    both white space only: both are non-empty, the form passes validation
    and is persisted, and the stored phone is null. *)
Lemma blank_phone_stored_null :
  truthy (Sample.blankPhone !! "countryCode") = true
  /\ truthy (Sample.blankPhone !! "phoneNumber") = true
  /\ passes_validation Sample.blankPhone
  /\ exists w' row,
       action Sample.quiet Sample.blankPhone Sample.emptyWorld = (Normal successResult, w')
       /\ contactForm w' = [row]
       /\ ContactForm.phone row = None.
Proof.
  split; [reflexivity|]. split; [reflexivity|].
  split; [apply passes_validation_size; vm_compute; reflexivity|].
  eexists _, _. split; [vm_compute; reflexivity|]. split; reflexivity.
Qed.

(** C9, amended. On a form that passes validation:
    when the country code is absent or empty the combined phone value is
    null, so a submitted phone number, though validated, is in no row the
    handler creates, in no email it sends and in no contact it hands to
    the CRM; and the phone of a created row is non-null exactly when the
    country code and the phone number are both non-empty and not both
    white space only. *)
Theorem phone_stored_only_with_country_code
    (env : Env) (formData : gmap string jsstring) (w : World) :
  passes_validation formData ->
  let countryCode := formData !! "countryCode" in
  let phoneNumber := formData !! "phoneNumber" in
  let w' := snd (action env formData w) in
  (truthy countryCode = false ->
     combinedPhone countryCode phoneNumber = None
     /\ (forall row, In (PrismaCreate row) (new_calls w w') -> ContactForm.phone row = None)
     /\ (forall row, contactForm w' = contactForm w ++ [row] -> ContactForm.phone row = None)
     /\ (forall mail, In (ResendSend mail) (new_calls w w') ->
           Resend.html mail =
             notification_html (formData !! "firstName") (formData !! "lastName")
               (formData !! "email") None (formData !! "questions"))
     /\ (forall properties, In (HubspotCreate properties) (new_calls w w') ->
           Hubspot.phone properties = None))
  /\ (forall row, contactForm w' = contactForm w ++ [row] ->
        (ContactForm.phone row <> None <->
         truthy countryCode = true /\ truthy phoneNumber = true
         /\ ~ (blank countryCode /\ blank phoneNumber))).
Proof.
  intros Hv countryCode phoneNumber w'. split.
  - intros Hcc.
    pose proof (combinedPhone_no_code countryCode phoneNumber Hcc) as Hnull.
    assert (Hphone : phoneOf formData = None) by exact Hnull.
    split; [exact Hnull|]. split; [|split; [|split]].
    + intros row Hin. apply (action_calls env formData w Hv) in Hin. simpl in Hin.
      unfold findCall in Hin.
      destruct Hin as [H|[H|[H|[H|[]]]]]; try discriminate H.
      injection H as <-. simpl. rewrite Hphone. reflexivity.
    + intros row E. apply action_new_row in E as ->. simpl. rewrite Hphone. reflexivity.
    + intros mail Hin. apply (action_calls env formData w Hv) in Hin. simpl in Hin.
      unfold findCall in Hin.
      destruct Hin as [H|[H|[H|[H|[]]]]]; try discriminate H.
      injection H as <-. unfold mailOf. rewrite Hphone. reflexivity.
    + intros properties Hin. apply (action_calls env formData w Hv) in Hin. simpl in Hin.
      unfold findCall in Hin.
      destruct Hin as [H|[H|[H|[H|[]]]]]; try discriminate H.
      injection H as <-. simpl. rewrite Hphone. reflexivity.
  - intros row E. apply action_new_row in E as ->. simpl.
    apply stored_phone_Some.
Qed.

Lemma passes_validation_phoneWithoutCode : passes_validation Sample.phoneWithoutCode.
Proof. apply passes_validation_size. vm_compute. reflexivity. Qed.

Lemma phone_stored_only_with_country_code_witness :
  let w' := snd (action Sample.quiet Sample.phoneWithoutCode Sample.emptyWorld) in
  contactForm w' = contactForm Sample.emptyWorld ++ [rowOf Sample.phoneWithoutCode]
  /\ (forall row, contactForm w' = contactForm Sample.emptyWorld ++ [row] ->
        ContactForm.phone row = None)
  /\ (forall mail, In (ResendSend mail) (new_calls Sample.emptyWorld w') ->
        Resend.html mail =
          notification_html (Some (lit "Jo")) (Some (lit "Lee")) (Some (lit "jo@acme.com"))
            None (Some (lit "We need integration help with billing sync"))).
Proof.
  intros w'.
  destruct (phone_stored_only_with_country_code Sample.quiet Sample.phoneWithoutCode Sample.emptyWorld
              passes_validation_phoneWithoutCode) as [Hnull _].
  destruct (Hnull eq_refl) as (_ & _ & Hrow & Hmail & _).
  split; [vm_compute; reflexivity|]. split; [exact Hrow | exact Hmail].
Defined.


(** * Further properties of the handler *)

Lemma guardedFallback_end (env : Env) (formData : gmap string jsstring) (w : World) :
  passes_validation formData ->
  exists r t cs es,
    guardedFallback env formData w = (Normal r, after w t cs (fallbackLog :: es))
    /\ fallback_end env (contactForm w) formData r t cs.
Proof.
  intros Hv.
  destruct (prisma_findFirst_fault env) as [e|] eqn:Hf.
  { eexists _, _, _, _. split; [exact (guardedFallback_findFirst_throws _ _ _ Hv e Hf)|].
    econstructor; eassumption. }
  destruct (existing (contactForm w) (interpolate (formData !! "email"))) as [row|] eqn:Hex.
  { eexists _, _, _, _. split; [exact (guardedFallback_duplicate _ _ _ Hv row Hf Hex)|].
    econstructor; eassumption. }
  destruct (prisma_create_fault env) as [e|] eqn:Hc.
  { eexists _, _, _, _. split; [exact (guardedFallback_create_throws _ _ _ Hv e Hf Hex Hc)|].
    econstructor; eassumption. }
  destruct (resend_Resend_fault env) as [e|] eqn:Hr.
  { eexists _, _, _, _.
    split; [exact (guardedFallback_Resend_throws _ _ _ Hv e Hf Hex Hc Hr)|].
    econstructor; eassumption. }
  destruct (resend_send_fault env) as [e|] eqn:Hs.
  { eexists _, _, _, _.
    split; [exact (guardedFallback_send_throws _ _ _ Hv e Hf Hex Hc Hr Hs)|].
    eapply end_send_throws; eassumption. }
  eexists _, _, _, _.
  split; [exact (guardedFallback_completes _ _ _ Hv (conj Hf (conj Hc (conj Hr Hs))) Hex)|].
  apply end_completes; [repeat split; assumption | exact Hex].
Qed.

(** Every run of the handler ends in one of the ways of [action_end]. *)
Lemma action_ends (env : Env) (formData : gmap string jsstring) (w : World) :
  exists r w',
    action env formData w = (Normal r, w')
    /\ action_end env (contactForm w) formData r (contactForm w') (new_calls w w').
Proof.
  destruct (0 <? size (errorsOf formData))%nat eqn:Hsize.
  { exists (invalidResult (errorsOf formData)), w. split; [exact (action_invalid _ _ _ Hsize)|].
    unfold new_calls. rewrite drop_all. apply end_invalid.
    rewrite passes_validation_size. congruence. }
  apply passes_validation_size in Hsize. rename Hsize into Hv.
  destruct (truthy (HUBSPOT_API_KEY env)) eqn:Hk.
  - destruct (hubspot_Client_fault env) as [e|] eqn:Hc.
    + rewrite (action_Client_throws env formData w Hv e Hk Hc).
      destruct (guardedFallback_end env formData
                  (after w (contactForm w) [] [attemptLog; hubspotFailureLog e]) Hv)
        as (r & t & cs & es & -> & Hend).
      eexists _, _. split; [reflexivity|].
      rewrite after_after, new_calls_after. simpl.
      apply end_fallback_direct; [exact Hv | right; congruence | exact Hend].
    + destruct (hubspot_create_fault env) as [e|] eqn:Hcr.
      * rewrite (action_create_throws env formData w Hv e Hk (conj Hc Hcr)).
        destruct (guardedFallback_end env formData
                    (after w (contactForm w) [HubspotCreate (propertiesOf formData)]
                       [attemptLog; hubspotFailureLog e]) Hv)
          as (r & t & cs & es & -> & Hend).
        eexists _, _. split; [reflexivity|].
        rewrite after_after, new_calls_after. simpl.
        exact (end_fallback_after_crm env _ formData e r t cs Hv Hk (conj Hc Hcr) Hend).
      * rewrite (action_crm_succeeds env formData w Hv Hk (conj Hc Hcr)).
        eexists _, _. split; [reflexivity|].
        rewrite new_calls_after. simpl. apply end_crm; [assumption | exact Hk | split; assumption].
  - rewrite (action_no_key env formData w Hv Hk).
    destruct (guardedFallback_end env formData (after w (contactForm w) [] [noKeyLog]) Hv)
      as (r & t & cs & es & -> & Hend).
    eexists _, _. split; [reflexivity|].
    rewrite after_after, new_calls_after. simpl.
    apply end_fallback_direct; [exact Hv | left; unfold crm_configured; congruence | exact Hend].
Qed.

Lemma results_distinct :
  duplicateResult <> failureResult /\ duplicateResult <> successResult
  /\ failureResult <> successResult
  /\ forall errs, invalidResult errs <> duplicateResult
                  /\ invalidResult errs <> failureResult
                  /\ invalidResult errs <> successResult.
Proof.
  repeat split; intros; unfold duplicateResult, failureResult, successResult, invalidResult;
    intros E; injection E; intros; try discriminate;
    match goal with H : lit _ = lit _ |- _ => vm_compute in H; discriminate H end.
Qed.

(** Every run is answered, with [errors] exactly for a form that does not
    pass validation. *)
Lemma action_answers (env : Env) (formData : gmap string jsstring) (w : World) :
  exists r w',
    action env formData w = (Normal r, w')
    /\ (r = invalidResult (errorsOf formData) \/ r = duplicateResult
        \/ r = successResult \/ r = failureResult)
    /\ (errors r <> None <-> ~ passes_validation formData).
Proof.
  destruct (action_ends env formData w) as (r & w' & Hrun & Hend).
  exists r, w'. split; [exact Hrun|].
  assert (Hfb : forall r t cs, fallback_end env (contactForm w) formData r t cs ->
            (r = duplicateResult \/ r = successResult \/ r = failureResult)
            /\ errors r = None).
  { intros r0 t cs H. destruct H; simpl; auto. }
  destruct Hend as [Hnv | Hv _ _ | r t cs Hv _ Hf | cause r t cs Hv _ _ Hf].
  - split; [left; reflexivity|]. simpl. split; [intros _; exact Hnv | discriminate].
  - split; [tauto|]. simpl. split; [congruence | intros H; destruct (H Hv)].
  - destruct (Hfb r t cs Hf) as [Hr ->]. split; [tauto|].
    split; [congruence | intros H; destruct (H Hv)].
  - destruct (Hfb r t cs Hf) as [Hr ->]. split; [tauto|].
    split; [congruence | intros H; destruct (H Hv)].
Qed.

(** What a sequence of submissions appends to the table. *)
Lemma submissions_append (requests : list (Env * gmap string jsstring)) (w : World) :
  let '(rs, w') := submissions requests w in
  length rs = length requests
  /\ exists more,
       contactForm w' = contactForm w ++ more
       /\ (length more <= length requests)%nat
       /\ forall row, In row more ->
            exists env formData,
              In (env, formData) requests /\ passes_validation formData
              /\ row = rowOf formData.
Proof.
  revert w. induction requests as [|[env formData] rest IH]; intros w; simpl.
  - split; [reflexivity|]. exists []. rewrite app_nil_r.
    split; [reflexivity|]. split; [reflexivity | intros ? []].
  - pose proof (action_table env formData w) as Ht.
    destruct (action env formData w) as [r w1]. simpl in Ht.
    specialize (IH w1). destruct (submissions rest w1) as [rs w2].
    destruct IH as (Hlen & more & Hmore & Hbound & Hrows).
    split; [simpl; congruence|].
    destruct Ht as [E | (Hv & _ & E)]; rewrite E in Hmore.
    + exists more. split; [exact Hmore|]. split; [lia|].
      intros row Hin. destruct (Hrows row Hin) as (env' & fd' & Hin' & H).
      exists env', fd'. split; [right; exact Hin' | exact H].
    + exists (rowOf formData :: more). rewrite <- app_assoc in Hmore.
      split; [exact Hmore|]. split; [simpl; lia|].
      intros row [<- | Hin].
      * exists env, formData. split; [left; reflexivity | auto].
      * destruct (Hrows row Hin) as (env' & fd' & Hin' & H).
        exists env', fd'. split; [right; exact Hin' | exact H].
Qed.



(** X1. From the point where the form data has been read (after the
    authentication and [request.formData()], which are awaited outside any
    [try]), and for fields that are strings or absent, as a form-encoded
    body gives them: no exception escapes the handler.  Whatever the
    outside services do, [action] returns a result object, which is the
    validation rejection, the duplicate rejection, the success result or
    the generic failure; it carries an [errors] mapping exactly when the
    form does not pass validation. *)
Theorem action_always_answers (env : Env) (formData : gmap string jsstring) (w : World) :
  exists r w',
    action env formData w = (Normal r, w')
    /\ (r = invalidResult (errorsOf formData) \/ r = duplicateResult
        \/ r = successResult \/ r = failureResult)
    /\ (errors r <> None <-> ~ passes_validation formData).
Proof. exact (action_answers env formData w). Qed.

Lemma fallback_end_success env table formData r t cs :
  fallback_end env table formData r t cs ->
  (success r = true <->
   fallback_completes env /\ existing table (interpolate (formData !! "email")) = None)
  /\ (success r = true ->
      t = table ++ [rowOf formData]
      /\ cs = [findCall formData; PrismaCreate (rowOf formData);
               ResendSend (mailOf formData)]).
Proof.
  unfold fallback_completes.
  destruct 1; simpl; (split; [split|]).
  all: try (intros Hs; discriminate Hs).
  all: try (intros [(? & ? & ? & ?) ?]; congruence).
  all: try (intros _; split; reflexivity).
  all: intros _; try reflexivity; split; assumption.
Qed.

Lemma reaches_fallback_cases (env : Env) :
  reaches_fallback env <-> ~ (crm_configured env /\ crm_succeeds env).
Proof.
  unfold reaches_fallback, crm_configured, crm_succeeds.
  destruct (truthy (HUBSPOT_API_KEY env)), (hubspot_Client_fault env),
    (hubspot_create_fault env); split; intros H; try tauto; try (right; left; discriminate);
    try (right; right; discriminate); try (left; reflexivity);
    try (intros [? [? ?]]; discriminate);
    try (exfalso; apply H; auto); try (intros [? _]; discriminate).
  destruct H as [H|[H|H]]; congruence.
Qed.

(** X2. The handler answers [success: true] exactly when the form passes
    validation and either the CRM contact is created, or the request gets
    to the fallback, the email is not stored yet and neither the store
    nor the email client throws.  A success therefore always leaves a
    record: either the one call made is the CRM create (and the table is
    untouched), or the row of the form is appended to the table and the
    notification email is the last call. *)
Theorem success_means_recorded
    (env : Env) (formData : gmap string jsstring) (w w' : World) (r : Result) :
  action env formData w = (Normal r, w') ->
  (success r = true <->
   passes_validation formData
   /\ ((crm_configured env /\ crm_succeeds env)
       \/ (reaches_fallback env /\ fallback_completes env
           /\ existing (contactForm w) (interpolate (formData !! "email")) = None)))
  /\ (success r = true ->
      (contactForm w' = contactForm w
       /\ new_calls w w' = [HubspotCreate (propertiesOf formData)])
      \/ (contactForm w' = contactForm w ++ [rowOf formData]
          /\ exists pre, new_calls w w' =
               pre ++ [findCall formData; PrismaCreate (rowOf formData);
                       ResendSend (mailOf formData)])).
Proof.
  intros Hrun.
  destruct (action_ends env formData w) as (r0 & w0 & Hrun0 & Hend).
  rewrite Hrun in Hrun0. injection Hrun0 as <- <-.
  destruct Hend as [Hnv | Hv Hk Hs | r t cs Hv Hfb Hf | cause r t cs Hv Hk Hfail Hf].
  - simpl. split; [split; [discriminate | tauto] | discriminate].
  - simpl. split; [|intros _; left; split; reflexivity].
    split; [intros _; split; [exact Hv | left; split; assumption] | reflexivity].
  - destruct (fallback_end_success _ _ _ _ _ _ Hf) as [Hiff Heff].
    assert (Hr : reaches_fallback env).
    { destruct Hfb as [H|H]; [left; unfold crm_configured in H;
                               destruct (truthy (HUBSPOT_API_KEY env)); congruence
                             | right; left; exact H]. }
    split.
    + rewrite Hiff. split; [intros [Hc Hex]; split; [exact Hv | right; auto]|].
      intros [_ [[Hk [Hc _]] | (_ & Hc & Hex)]]; [|auto].
      apply reaches_fallback_cases in Hr. exfalso. apply Hr.
      destruct Hfb as [H|H]; [destruct (H Hk) | congruence].
    + intros Hs. destruct (Heff Hs) as [-> ->]. right. split; [reflexivity|].
      exists []. reflexivity.
  - destruct (fallback_end_success _ _ _ _ _ _ Hf) as [Hiff Heff].
    assert (Hr : reaches_fallback env).
    { right. right. destruct Hfail as [_ H]. congruence. }
    split.
    + rewrite Hiff. split; [intros [Hc Hex]; split; [exact Hv | right; auto]|].
      intros [_ [[_ [_ Hc]] | (_ & Hc & Hex)]]; [|auto].
      destruct Hfail as [_ H]. congruence.
    + intros Hs. destruct (Heff Hs) as [-> ->]. right. split; [reflexivity|].
      exists [HubspotCreate (propertiesOf formData)]. reflexivity.
Qed.

Lemma success_means_recorded_witness :
  exists w',
    action Sample.crmDown Sample.jo Sample.emptyWorld = (Normal successResult, w')
    /\ contactForm w' = contactForm Sample.emptyWorld ++ [rowOf Sample.jo]
    /\ exists pre, new_calls Sample.emptyWorld w' =
         pre ++ [findCall Sample.jo; PrismaCreate (rowOf Sample.jo);
                 ResendSend (mailOf Sample.jo)].
Proof.
  eexists. split; [vm_compute; reflexivity|].
  destruct (success_means_recorded Sample.crmDown Sample.jo Sample.emptyWorld _ _
              ltac:(vm_compute; reflexivity)) as [_ Heff].
  destruct (Heff eq_refl) as [[Ht _] | H]; [discriminate Ht | exact H].
Defined.

Lemma fallback_end_duplicate env table formData r t cs :
  fallback_end env table formData r t cs ->
  (r = duplicateResult <->
   prisma_findFirst_fault env = None
   /\ existing table (interpolate (formData !! "email")) <> None)
  /\ (r = duplicateResult -> t = table /\ cs = [findCall formData]).
Proof.
  destruct results_distinct as (Hdf & Hds & Hfs & _).
  destruct 1 as [e Hf | row Hf Hex | e Hf Hex Hc | e Hf Hex Hc Hr | e Hf Hex Hc Hr Hs
                | (Hf & Hc & Hr & Hs) Hex];
    (split; [split|]).
  all: try (intros E; congruence).
  all: try (intros [? ?]; congruence).
  all: try (intros _; split; [assumption | congruence]).
  all: try (intros _; split; reflexivity).
Qed.

(** X3. The handler answers "a submission with this email already
    exists" exactly when the form passes validation, the request gets to
    the fallback, the duplicate-check query answers and the table has a
    row under the normalized email; in that case the table is left as it
    is and the duplicate check is the last call: nothing is inserted and
    no email is sent. *)
Theorem duplicate_rejection_is_exact
    (env : Env) (formData : gmap string jsstring) (w w' : World) (r : Result) :
  action env formData w = (Normal r, w') ->
  (r = duplicateResult <->
   passes_validation formData /\ reaches_fallback env
   /\ prisma_findFirst_fault env = None
   /\ existing (contactForm w) (interpolate (formData !! "email")) <> None)
  /\ (r = duplicateResult ->
      contactForm w' = contactForm w
      /\ (new_calls w w' = [findCall formData]
          \/ new_calls w w' = [HubspotCreate (propertiesOf formData); findCall formData])).
Proof.
  intros Hrun.
  destruct results_distinct as (Hdf & Hds & Hfs & Hinv).
  destruct (action_ends env formData w) as (r0 & w0 & Hrun0 & Hend).
  rewrite Hrun in Hrun0. injection Hrun0 as <- <-.
  destruct Hend as [Hnv | Hv Hk Hs | r t cs Hv Hfb Hf | cause r t cs Hv Hk Hfail Hf].
  - split; [split|]; [intros E | tauto | intros E]; destruct (Hinv (errorsOf formData)) as (H & _);
      destruct (H E).
  - split; [split|]; [intros E; congruence | | intros E; congruence].
    intros (_ & Hr & _). apply reaches_fallback_cases in Hr. destruct Hr. auto.
  - destruct (fallback_end_duplicate _ _ _ _ _ _ Hf) as [Hiff Heff].
    assert (Hr : reaches_fallback env).
    { destruct Hfb as [H|H]; [left; unfold crm_configured in H;
                               destruct (truthy (HUBSPOT_API_KEY env)); congruence
                             | right; left; exact H]. }
    split; [rewrite Hiff; tauto|].
    intros E. destruct (Heff E) as [-> ->]. auto.
  - destruct (fallback_end_duplicate _ _ _ _ _ _ Hf) as [Hiff Heff].
    assert (Hr : reaches_fallback env).
    { right. right. destruct Hfail as [_ H]. congruence. }
    split; [rewrite Hiff; tauto|].
    intros E. destruct (Heff E) as [-> ->]. auto.
Qed.

Lemma duplicate_rejection_is_exact_witness :
  let w1 := snd (action Sample.quiet Sample.jo Sample.emptyWorld) in
  exists w2,
    action Sample.crmDown Sample.joAgain w1 = (Normal duplicateResult, w2)
    /\ existing (contactForm w1) (interpolate (Sample.joAgain !! "email")) <> None
    /\ contactForm w2 = contactForm w1.
Proof.
  intros w1. eexists. split; [vm_compute; reflexivity|].
  destruct (duplicate_rejection_is_exact Sample.crmDown Sample.joAgain w1 _ _
              ltac:(vm_compute; reflexivity)) as [Hiff Heff].
  split; [apply Hiff; reflexivity | apply Heff; reflexivity].
Defined.

Lemma fallback_end_failure env table formData r t cs :
  fallback_end env table formData r t cs ->
  (r = failureResult <->
   exists cause, raised_in_fallback env table (interpolate (formData !! "email")) cause).
Proof.
  destruct results_distinct as (Hdf & Hds & Hfs & _).
  destruct 1 as [e Hf | row Hf Hex | e Hf Hex Hc | e Hf Hex Hc Hr | e Hf Hex Hc Hr Hs
                | (Hf & Hc & Hr & Hs) Hex].
  - split; [intros _ | reflexivity]. exists e. apply raised_by_findFirst, Hf.
  - split; [intros E; congruence|].
    intros (c & [c' H | c' _ H _ | c' _ H _ _]); congruence.
  - split; [intros _ | reflexivity]. exists e. apply raised_by_create; assumption.
  - split; [intros _ | reflexivity]. exists e. apply raised_by_email; try assumption.
    left. exact Hr.
  - split; [intros _ | reflexivity]. exists e. apply raised_by_email; try assumption.
    right. auto.
  - split; [intros E; congruence|].
    intros (c & [c' H | c' _ _ H | c' _ _ _ [H | [_ H]]]); congruence.
Qed.

(** X4. The generic failure has one source only: the handler answers
    "Failed to submit form" exactly when the form passes validation, the
    request gets to the fallback, and the duplicate-check query, the
    insert or the email client throws there.  A failure of the CRM alone
    is never answered with it. *)
Theorem generic_failure_is_exact
    (env : Env) (formData : gmap string jsstring) (w w' : World) (r : Result) :
  action env formData w = (Normal r, w') ->
  (r = failureResult <->
   passes_validation formData /\ reaches_fallback env
   /\ exists cause,
        raised_in_fallback env (contactForm w) (interpolate (formData !! "email")) cause).
Proof.
  intros Hrun.
  destruct results_distinct as (Hdf & Hds & Hfs & Hinv).
  destruct (action_ends env formData w) as (r0 & w0 & Hrun0 & Hend).
  rewrite Hrun in Hrun0. injection Hrun0 as <- <-.
  destruct Hend as [Hnv | Hv Hk Hs | r t cs Hv Hfb Hf | cause r t cs Hv Hk Hfail Hf].
  - split; [intros E | tauto]. destruct (Hinv (errorsOf formData)) as (_ & H & _).
    destruct (H E).
  - split; [intros E; congruence|].
    intros (_ & Hr & _). apply reaches_fallback_cases in Hr. destruct Hr. auto.
  - rewrite (fallback_end_failure _ _ _ _ _ _ Hf).
    assert (Hr : reaches_fallback env).
    { destruct Hfb as [H|H]; [left; unfold crm_configured in H;
                               destruct (truthy (HUBSPOT_API_KEY env)); congruence
                             | right; left; exact H]. }
    tauto.
  - rewrite (fallback_end_failure _ _ _ _ _ _ Hf).
    assert (Hr : reaches_fallback env).
    { right. right. destruct Hfail as [_ H]. congruence. }
    tauto.
Qed.

Lemma generic_failure_is_exact_witness :
  passes_validation Sample.jo /\ reaches_fallback Sample.crmAndMailDown
  /\ exists cause,
       raised_in_fallback Sample.crmAndMailDown (contactForm Sample.emptyWorld)
         (interpolate (Sample.jo !! "email")) cause.
Proof.
  apply (generic_failure_is_exact Sample.crmAndMailDown Sample.jo Sample.emptyWorld
           (snd (action Sample.crmAndMailDown Sample.jo Sample.emptyWorld)) failureResult).
  - vm_compute. reflexivity.
  - reflexivity.
Defined.

Lemma fallback_end_calls env table formData r t cs :
  fallback_end env table formData r t cs ->
  isPrefixOf cs [findCall formData; PrismaCreate (rowOf formData);
                 ResendSend (mailOf formData)]
  /\ (forall row, In (PrismaCreate row) cs ->
        prisma_findFirst_fault env = None
        /\ existing table (interpolate (formData !! "email")) = None)
  /\ (forall mail, In (ResendSend mail) cs ->
        prisma_create_fault env = None /\ t = table ++ [rowOf formData])
  /\ (t = table \/ t = table ++ [rowOf formData]).
Proof.
  unfold isPrefixOf, findCall.
  destruct 1 as [e Hf | row Hf Hex | e Hf Hex Hc | e Hf Hex Hc Hr | e Hf Hex Hc Hr Hs
                | (Hf & Hc & Hr & Hs) Hex].
  all: split; [eexists; simpl; reflexivity|].
  all: split; [intros ? Hin; simpl in Hin; intuition (try discriminate; auto)|].
  all: split; [intros ? Hin; simpl in Hin; intuition (try discriminate; auto) | auto].
Qed.

(** X5. One submission makes at most four outside calls, each at most
    once and in a fixed order: the CRM create (only with a credential
    configured), then the duplicate check, the insert and the email send,
    as far as the run gets.  The insert is made only after the duplicate
    check has answered that no row has the email, and the email is sent
    only after the insert has returned and the row is in the table. *)
Theorem calls_in_order (env : Env) (formData : gmap string jsstring) (w : World) :
  let w' := snd (action env formData w) in
  (exists crm rest,
     new_calls w w' = crm ++ rest
     /\ (crm = [] \/ (crm_configured env /\ crm = [HubspotCreate (propertiesOf formData)]))
     /\ isPrefixOf rest [findCall formData; PrismaCreate (rowOf formData);
                         ResendSend (mailOf formData)])
  /\ (forall row, In (PrismaCreate row) (new_calls w w') ->
        prisma_findFirst_fault env = None
        /\ existing (contactForm w) (interpolate (formData !! "email")) = None)
  /\ (forall mail, In (ResendSend mail) (new_calls w w') ->
        prisma_create_fault env = None
        /\ contactForm w' = contactForm w ++ [rowOf formData]).
Proof.
  intros w'. destruct (action_ends env formData w) as (r0 & w0 & Hrun0 & Hend).
  assert (E : w' = w0) by (unfold w'; rewrite Hrun0; reflexivity).
  rewrite E. clear E w'.
  destruct Hend as [Hnv | Hv Hk Hs | r t cs Hv Hfb Hf | cause r t cs Hv Hk Hfail Hf].
  - split; [exists [], []; split; [reflexivity|]; split; [auto | eexists; reflexivity]|].
    split; intros ? [].
  - split.
    + exists [HubspotCreate (propertiesOf formData)], [].
      split; [reflexivity|]. split; [auto | eexists; reflexivity].
    + split; intros ? [H|[]]; discriminate H.
  - destruct (fallback_end_calls _ _ _ _ _ _ Hf) as (Hpre & Hc & Hs & _).
    split; [exists [], cs; auto|]. split; assumption.
  - destruct (fallback_end_calls _ _ _ _ _ _ Hf) as (Hpre & Hc & Hs & _).
    split; [exists [HubspotCreate (propertiesOf formData)], cs; auto|].
    split; intros ? [H|H]; try discriminate H; eauto.
Qed.

(** X6. Sequential submissions only ever append to the table: the rows
    that were there stay as they are and in place, at most one row is
    added per submission, each added row is the row of a submitted form
    that passes validation; there is one result per submission. *)
Theorem table_only_grows (requests : list (Env * gmap string jsstring)) (w : World) :
  let '(rs, w') := submissions requests w in
  length rs = length requests
  /\ exists more,
       contactForm w' = contactForm w ++ more
       /\ (length more <= length requests)%nat
       /\ forall row, In row more ->
            exists env formData,
              In (env, formData) requests /\ passes_validation formData
              /\ row = rowOf formData.
Proof. exact (submissions_append requests w). Qed.

(** ** The patterns under a change of case *)

Lemma deriv_respect (f : N -> N) (c : N) (r : regex) :
  classes_respect f r -> deriv (f c) r = deriv c r /\ classes_respect f (deriv c r).
Proof.
  induction r as [| |p|r1 IH1 r2 IH2|r1 IH1 r2 IH2|r IH]; simpl.
  - auto.
  - auto.
  - intros H. rewrite H. split; [reflexivity|]. destruct (p c); exact I.
  - intros [H1 H2]. destruct (IH1 H1) as [-> H1'], (IH2 H2) as [-> H2'].
    split; [reflexivity|]. destruct (nullable r1); simpl; auto.
  - intros [H1 H2]. destruct (IH1 H1) as [-> H1'], (IH2 H2) as [-> H2'].
    split; [reflexivity | simpl; auto].
  - intros H. destruct (IH H) as [-> H']. split; [reflexivity | simpl; auto].
Qed.

Lemma test_respect (f : N -> N) (r : regex) (s : jsstring) :
  classes_respect f r -> test r (map f s) = test r s.
Proof.
  revert r. induction s as [|c s IH]; intros r Hr; simpl; [reflexivity|].
  destruct (deriv_respect f c r Hr) as [-> Hr']. apply IH, Hr'.
Qed.

Lemma isLetter_lowerUnit (c : N) : isLetter (lowerUnit c) = isLetter c.
Proof.
  unfold lowerUnit. destruct (isUpper c) eqn:E; [|reflexivity].
  unfold isLetter. rewrite E. simpl.
  unfold isUpper, isLower in *. rewrite andb_true_iff, !N.leb_le in E.
  rewrite orb_true_iff, !andb_true_iff, !N.leb_le. lia.
Qed.

Lemma not_letter_lowerUnit (c : N) : isLetter c = false -> lowerUnit c = c.
Proof.
  unfold isLetter, lowerUnit. destruct (isUpper c); [discriminate | reflexivity].
Qed.

(** A class that has all the letters. *)
Lemma class_lowerUnit (others : N -> bool) (c : N) :
  (isLetter (lowerUnit c) || others (lowerUnit c)) = (isLetter c || others c).
Proof.
  rewrite isLetter_lowerUnit. destruct (isLetter c) eqn:E; [reflexivity|].
  rewrite (not_letter_lowerUnit c E). reflexivity.
Qed.

(** A character below the letters. *)
Lemma below_letters_lowerUnit (d c : N) :
  d < 65 -> (lowerUnit c =? d) = (c =? d).
Proof.
  intros Hd. unfold lowerUnit. destruct (isUpper c) eqn:E; [|reflexivity].
  unfold isUpper in E. rewrite andb_true_iff, !N.leb_le in E.
  destruct (N.eqb_spec (c + 32) d), (N.eqb_spec c d); try reflexivity; lia.
Qed.

Lemma emailPattern_respects_case : classes_respect lowerUnit emailPattern.
Proof.
  assert (Hl : forall c, localClass (lowerUnit c) = localClass c).
  { intros c. unfold localClass. rewrite <- !orb_assoc.
    apply (class_lowerUnit (fun d => isDigit d || isOneOf "._%+-" d)). }
  assert (Hd : forall c, domainClass (lowerUnit c) = domainClass c).
  { intros c. unfold domainClass. rewrite <- !orb_assoc.
    apply (class_lowerUnit (fun d => isDigit d || isOneOf ".-" d)). }
  assert (Hat : forall c, isOneOf "@" (lowerUnit c) = isOneOf "@" c).
  { intros c. unfold isOneOf. change (lit "@") with [64]. simpl.
    rewrite below_letters_lowerUnit by lia. reflexivity. }
  assert (Hdot : forall c, isOneOf "." (lowerUnit c) = isOneOf "." c).
  { intros c. unfold isOneOf. change (lit ".") with [46]. simpl.
    rewrite below_letters_lowerUnit by lia. reflexivity. }
  unfold emailPattern, Plus, AtLeast2. simpl.
  pose proof isLetter_lowerUnit as Hlet.
  repeat split; assumption.
Qed.

(** On the letters of the Basic Latin block the pattern does not look at
    the case. *)
Lemma validateEmail_lowerUnit (email : jsstring) :
  validateEmail (map lowerUnit email) = validateEmail email.
Proof. apply test_respect, emailPattern_respects_case. Qed.

Lemma forallb_weaken (p q : N -> bool) (s : jsstring) :
  (forall c, p c = true -> q c = true) -> forallb p s = true -> forallb q s = true.
Proof.
  intros Hpq. induction s as [|c s IH]; simpl; [reflexivity|].
  rewrite !andb_true_iff. intros [Hc Hs]. auto.
Qed.

Lemma filter_none (p q : N -> bool) (s : jsstring) :
  (forall c, p c = true -> q c = false) -> forallb p s = true -> List.filter q s = [].
Proof.
  intros Hpq. induction s as [|c s IH]; simpl; [reflexivity|].
  rewrite andb_true_iff. intros [Hc Hs]. rewrite (Hpq c Hc). auto.
Qed.

(** What the characters of the three classes of [emailPattern] have in
    common. *)
Lemma email_class_char (c : N) :
  localClass c = true \/ domainClass c = true \/ isLetter c = true ->
  isWhiteSpace c = false /\ (64 =? c) = false /\ (c <? 128) = true.
Proof.
  unfold localClass, domainClass, isOneOf, isLetter, isUpper, isLower, isDigit, isWhiteSpace.
  change (lit "._%+-") with [46; 95; 37; 43; 45]. change (lit ".-") with [46; 45].
  simpl existsb.
  rewrite !orb_true_iff, !andb_true_iff, !orb_false_iff, !andb_false_iff,
    !N.eqb_eq, !N.eqb_neq, !N.leb_le, !N.leb_gt, N.ltb_lt.
  lia.
Qed.

(** An accepted address neither starts nor ends with white space. *)
Lemma accepted_email_shape_aux (email : jsstring) :
  validateEmail email = true -> keeps_head email /\ keeps_head (rev email).
Proof.
  rewrite validateEmail_spec.
  intros (local & domain & tld & -> & Hl1 & Hl & Hd1 & Hd & Ht1 & Ht). split.
  - destruct local as [|c local]; [congruence|]. simpl in *.
    apply andb_true_iff in Hl as [Hc _].
    apply (email_class_char c). auto.
  - rewrite !rev_app_distr.
    assert (Hr : forallb isLetter (rev tld) = true) by (rewrite forallb_rev; exact Ht).
    assert (Hn : rev tld <> []).
    { intros E. apply (f_equal length) in E. rewrite length_rev in E. simpl in E. lia. }
    destruct (rev tld) as [|c r]; [congruence|]. simpl in *.
    apply andb_true_iff in Hr as [Hc _].
    apply (email_class_char c). auto.
Qed.

(** X9. An address that [validateEmail] accepts has exactly one [@], no
    white space and only ASCII code units, is at least six code units
    long, and ends with a dot followed by two or more letters and nothing
    else. *)
Theorem accepted_email_shape (email : jsstring) :
  validateEmail email = true ->
  length (List.filter (N.eqb 64) email) = 1%nat
  /\ forallb (fun c => negb (isWhiteSpace c)) email = true
  /\ forallb (fun c => c <? 128) email = true
  /\ (6 <= length email)%nat
  /\ exists before tld,
       email = before ++ lit "." ++ tld
       /\ (2 <= length tld)%nat /\ forallb isLetter tld = true.
Proof.
  rewrite validateEmail_spec.
  intros (local & domain & tld & -> & Hl1 & Hl & Hd1 & Hd & Ht1 & Ht).
  assert (Hno : forall (p : N -> bool) s, (forall c, p c = true ->
              localClass c = true \/ domainClass c = true \/ isLetter c = true) ->
            forallb p s = true ->
            List.filter (N.eqb 64) s = []
            /\ forallb (fun c => negb (isWhiteSpace c)) s = true
            /\ forallb (fun c => c <? 128) s = true).
  { intros p s Hp Hs. split; [|split].
    - apply (filter_none p); [|exact Hs]. intros c Hc. apply email_class_char, Hp, Hc.
    - apply (forallb_weaken p); [|exact Hs]. intros c Hc.
      destruct (email_class_char c (Hp c Hc)) as (-> & _). reflexivity.
    - apply (forallb_weaken p); [|exact Hs]. intros c Hc.
      apply email_class_char, Hp, Hc. }
  destruct (Hno localClass local (fun c H => or_introl H) Hl) as (Fl & Wl & Al).
  destruct (Hno domainClass domain (fun c H => or_intror (or_introl H)) Hd) as (Fd & Wd & Ad).
  destruct (Hno isLetter tld (fun c H => or_intror (or_intror H)) Ht) as (Ft & Wt & At').
  split; [|split; [|split; [|split]]].
  - rewrite !List.filter_app, Fl, Fd, Ft. reflexivity.
  - rewrite !forallb_app, Wl, Wd, Wt. reflexivity.
  - rewrite !forallb_app, Al, Ad, At'. reflexivity.
  - rewrite !length_app. simpl.
    destruct local; [congruence|]. destruct domain; [congruence|]. simpl. lia.
  - exists (local ++ lit "@" ++ domain), tld. rewrite <- !app_assoc. auto.
Qed.

Lemma accepted_email_shape_witness :
  length (List.filter (N.eqb 64) (lit "jo@acme.com")) = 1%nat
  /\ forallb (fun c => negb (isWhiteSpace c)) (lit "jo@acme.com") = true
  /\ forallb (fun c => c <? 128) (lit "jo@acme.com") = true
  /\ (6 <= length (lit "jo@acme.com"))%nat
  /\ exists before tld,
       lit "jo@acme.com" = before ++ lit "." ++ tld
       /\ (2 <= length tld)%nat /\ forallb isLetter tld = true.
Proof. apply (accepted_email_shape (lit "jo@acme.com")). reflexivity. Defined.

(** An accepted address has nothing to trim. *)
Lemma accepted_email_trimmed (email : jsstring) :
  validateEmail email = true -> trim email = email.
Proof.
  intros H. destruct (accepted_email_shape_aux email H) as [Hh Hl].
  unfold trim. rewrite (trimStart_id email Hh).
  pose proof (trimStart_id (rev email) Hl) as E. unfold trimStart in E.
  unfold trimEnd. rewrite E. apply rev_involutive.
Qed.

(** X10. An address that [validateEmail] accepts is still accepted once
    put in lower case, as it is before it is looked up and stored; it
    keeps its length, and lower-casing it a second time or trimming it
    changes nothing. *)
Theorem accepted_email_normal_form (email : jsstring) :
  validateEmail email = true ->
  validateEmail (toLowerCase email) = true
  /\ length (toLowerCase email) = length email
  /\ normalizedEmail email = toLowerCase email
  /\ normalizedEmail (toLowerCase email) = toLowerCase email.
Proof.
  intros H. unfold normalizedEmail.
  rewrite (accepted_email_trimmed email H).
  split; [unfold toLowerCase; rewrite validateEmail_lowerUnit; exact H|].
  split; [unfold toLowerCase; apply length_map|]. split; [reflexivity|].
  rewrite trim_toLowerCase, (accepted_email_trimmed email H). apply toLowerCase_idem.
Qed.

Lemma accepted_email_normal_form_witness :
  validateEmail (toLowerCase (lit "Jo.Lee@Acme.COM")) = true
  /\ length (toLowerCase (lit "Jo.Lee@Acme.COM")) = length (lit "Jo.Lee@Acme.COM")
  /\ normalizedEmail (lit "Jo.Lee@Acme.COM") = toLowerCase (lit "Jo.Lee@Acme.COM")
  /\ normalizedEmail (toLowerCase (lit "Jo.Lee@Acme.COM"))
     = toLowerCase (lit "Jo.Lee@Acme.COM").
Proof. apply (accepted_email_normal_form (lit "Jo.Lee@Acme.COM")). reflexivity. Defined.

(** ** The rows the handler writes *)

Lemma phone_or_null_trimmed (phone : option jsstring) :
  match phone_or_null phone with
  | None => True
  | Some p => p <> [] /\ trim p = p
  end.
Proof.
  unfold phone_or_null. destruct phone as [s|]; [|exact I].
  change (trim <$> Some s) with (Some (trim s)).
  destruct (trim s) as [|c t] eqn:E; [exact I|]. unfold truthy.
  split; [discriminate|]. rewrite <- E. apply trim_idem.
Qed.

Lemma rowOf_well_formed (formData : gmap string jsstring) :
  passes_validation formData -> well_formed_row (rowOf formData).
Proof.
  intros Hv.
  destruct (Hv Spec41.FirstName) as (fn & Hfn & _ & Hfn2 & Hfn3).
  destruct (Hv Spec41.LastName) as (ln & Hln & _ & Hln2 & Hln3).
  destruct (Hv Spec41.Email) as (em & Hem & _ & Hem2 & Hem3).
  destruct (Hv Spec41.Questions) as (q & Hq & _ & Hq2).
  simpl in Hfn, Hln, Hem, Hq.
  constructor; unfold rowOf, trimmed; simpl; rewrite ?Hfn, ?Hln, ?Hem, ?Hq; simpl interpolate.
  - rewrite trim_idem, forallb_name_char. auto.
  - rewrite trim_idem, forallb_name_char. auto.
  - split; [apply normalizedEmail_idem|]. unfold normalizedEmail, toLowerCase.
    rewrite length_map. split; [exact Hem2|].
    rewrite validateEmail_lowerUnit.
    apply validateEmail_spec, Hem3.
  - apply phone_or_null_trimmed.
  - rewrite trim_idem. auto.
Qed.

(** X7. Every row the handler writes is well formed: first name, last
    name and notes are stored trimmed and within the bounds of the
    validation (2-50 and 10-1000 code units), the email is stored
    trimmed, in lower case, at most 254 code units long and of the shape
    [validateEmail] accepts, and the phone is null or a non-empty trimmed
    string.  A table of well-formed rows stays one over any sequence of
    submissions. *)
Theorem rows_stay_well_formed (requests : list (Env * gmap string jsstring)) (w : World) :
  Forall well_formed_row (contactForm w) ->
  Forall well_formed_row (contactForm (snd (submissions requests w))).
Proof.
  intros Hw. pose proof (submissions_append requests w) as H.
  destruct (submissions requests w) as [rs w']. simpl.
  destruct H as (_ & more & -> & _ & Hrows).
  apply Forall_app. split; [exact Hw|].
  apply Forall_forall. intros row Hin. apply list_elem_of_In in Hin.
  destruct (Hrows row Hin) as (env & formData & _ & Hv & ->).
  apply rowOf_well_formed, Hv.
Qed.

Lemma rows_stay_well_formed_witness :
  Forall well_formed_row
    (contactForm
       (snd (submissions
               [(Sample.quiet, Sample.phoneWithoutCode); (Sample.crmDown, Sample.notAnEmail);
                (Sample.mailDown, Sample.blankPhone)]
               Sample.emptyWorld))).
Proof.
  apply (rows_stay_well_formed
           [(Sample.quiet, Sample.phoneWithoutCode); (Sample.crmDown, Sample.notAnEmail);
            (Sample.mailDown, Sample.blankPhone)]
           Sample.emptyWorld).
  constructor.
Defined.

(** * The client side *)

(** Runs the chain of a field on both sides. *)
Ltac same_chain v check :=
  unfold errorsOf, validation; skip_checks;
  generalize v; let x := fresh "x" in (intros x; unfold check; chain_cases x);
  rewrite ?lookup_insert_eq; skip_checks;
  solve [reflexivity | discriminate
        | match goal with H : truthy _ = _ |- _ => vm_compute in H; discriminate H end].

(** The error of the server for a field is the message of [validateField]. *)
Lemma rules_agree (formData : gmap string jsstring) (field : string) :
  errorsOf formData !! field =
    (let error := Client.validateField field (formData !! field) in
     if truthy (Some error) then Some error else None).
Proof.
  destruct (decide (field = "firstName")) as [->|H1].
  { change (Client.validateField "firstName" (formData !! "firstName")) with
      (match trim <$> formData !! "firstName" with
       | None | Some [] => lit "First name is required"
       | Some t =>
           if (length t <? 2)%nat then lit "At least 2 characters"
           else if (50 <? length t)%nat then lit "Max 50 characters"
           else if negb (validateName t) then lit "Only letters, spaces, - and '"
           else []
       end).
    same_chain (formData !! "firstName") check_firstName. }
  destruct (decide (field = "lastName")) as [->|H2].
  { change (Client.validateField "lastName" (formData !! "lastName")) with
      (match trim <$> formData !! "lastName" with
       | None | Some [] => lit "Last name is required"
       | Some t =>
           if (length t <? 2)%nat then lit "At least 2 characters"
           else if (50 <? length t)%nat then lit "Max 50 characters"
           else if negb (validateName t) then lit "Only letters, spaces, - and '"
           else []
       end).
    same_chain (formData !! "lastName") check_lastName. }
  destruct (decide (field = "email")) as [->|H3].
  { change (Client.validateField "email" (formData !! "email")) with
      (match trim <$> formData !! "email" with
       | None | Some [] => lit "Email is required"
       | Some t =>
           if (254 <? length t)%nat then lit "Email too long"
           else if negb (validateEmail t) then lit "Invalid email"
           else []
       end).
    same_chain (formData !! "email") check_email. }
  destruct (decide (field = "phoneNumber")) as [->|H4].
  { change (Client.validateField "phoneNumber" (formData !! "phoneNumber")) with
      (match trim <$> formData !! "phoneNumber" with
       | None | Some [] => []
       | Some t =>
           if negb (validatePhone t None) then lit "Invalid phone number format" else []
       end).
    unfold errorsOf, validation. skip_checks.
    generalize (formData !! "countryCode") as cc. generalize (formData !! "phoneNumber") as v.
    intros v cc. unfold check_phoneNumber.
    unfold validatePhone.
    chain_cases v; rewrite ?lookup_insert_eq; skip_checks;
      solve [reflexivity | discriminate
            | match goal with H : truthy _ = _ |- _ => vm_compute in H; discriminate H end]. }
  destruct (decide (field = "questions")) as [->|H5].
  { change (Client.validateField "questions" (formData !! "questions")) with
      (match trim <$> formData !! "questions" with
       | None | Some [] => lit "Questions field is required"
       | Some t =>
           if (length t <? 10)%nat then lit "Minimum 10 characters"
           else if (1000 <? length t)%nat then lit "Max 1000 characters"
           else []
       end).
    same_chain (formData !! "questions") check_questions. }
  unfold errorsOf, validation.
  rewrite check_questions_other, check_phoneNumber_other, check_email_other,
    check_lastName_other, check_firstName_other, lookup_empty by assumption.
  unfold Client.validateField.
  rewrite !(bool_decide_eq_false_2 _ H1), !(bool_decide_eq_false_2 _ H2),
    !(bool_decide_eq_false_2 _ H3), !(bool_decide_eq_false_2 _ H4),
    !(bool_decide_eq_false_2 _ H5).
  simpl. destruct (bool_decide (field = "countryCode")); reflexivity.
Qed.

(** X11. The client and the server apply the same rules: the error the
    server records for a field of a form is the message [validateField]
    gives for that field and that value, and the server records none
    exactly when [validateField] gives the empty message.  (No field but
    the five validated ones ever gets an error; [countryCode] never
    does.) *)
Theorem client_and_server_rules_agree (formData : gmap string jsstring) (field : string) :
  errorsOf formData !! field =
    (let error := Client.validateField field (formData !! field) in
     if truthy (Some error) then Some error else None).
Proof. exact (rules_agree formData field). Qed.

Lemma validateField_absent (formData : gmap string jsstring) (field : string) :
  (forall f, In f Client.fields -> is_Some (formData !! f)) ->
  formData !! field = None -> Client.validateField field None = [].
Proof.
  intros Hall Hnone.
  assert (Hne : forall f, In f Client.fields -> field <> f).
  { intros f Hf ->. destruct (Hall f Hf) as (v & Hv). congruence. }
  unfold Client.validateField.
  rewrite (bool_decide_eq_false_2 (field = "firstName")) by (apply Hne; simpl; tauto).
  rewrite (bool_decide_eq_false_2 (field = "lastName")) by (apply Hne; simpl; tauto).
  rewrite (bool_decide_eq_false_2 (field = "email")) by (apply Hne; simpl; tauto).
  rewrite (bool_decide_eq_false_2 (field = "phoneNumber")) by (apply Hne; simpl; tauto).
  rewrite (bool_decide_eq_false_2 (field = "countryCode")) by (apply Hne; simpl; tauto).
  rewrite (bool_decide_eq_false_2 (field = "questions")) by (apply Hne; simpl; tauto).
  reflexivity.
Qed.

Lemma newErrors_agree (formData : gmap string jsstring) :
  (forall f, In f Client.fields -> is_Some (formData !! f)) ->
  Client.newErrors formData = errorsOf formData.
Proof.
  intros Hall. apply map_eq. intros field.
  unfold Client.newErrors. rewrite map_lookup_imap, rules_agree.
  destruct (formData !! field) as [v|] eqn:E; [reflexivity|].
  simpl. rewrite (validateField_absent formData field Hall E). reflexivity.
Qed.

(** X12. [handleSubmit] on a form that has all its fields sends the form
    to the server exactly when the form passes the server-side
    validation.  A form it sends is sent as it is, the state is not
    touched, and the server never answers it with validation errors; a
    form it holds back gives one error toast and no submission, and the
    component then shows the very errors the server would have returned,
    with every field marked as touched. *)
Theorem client_sends_what_server_accepts (st : Client.State) :
  (forall f, In f Client.fields -> is_Some (Client.formData st !! f)) ->
  (passes_validation (Client.formData st)
   /\ Client.handleSubmit st = (st, [Client.FetcherSubmit (Client.formData st)])
   /\ forall env w, exists r w',
        action env (Client.formData st) w = (Normal r, w') /\ errors r = None)
  \/ (~ passes_validation (Client.formData st)
      /\ exists st',
           Client.handleSubmit st =
             (st', [Client.ToastShow (lit "Please fix the validation errors") true])
           /\ Client.formData st' = Client.formData st
           /\ Client.errors st' = errorsOf (Client.formData st)
           /\ forall f, In f Client.fields -> Client.touched st' !! f = Some true).
Proof.
  intros Hall. unfold Client.handleSubmit. rewrite (newErrors_agree _ Hall).
  destruct (0 <? size (errorsOf (Client.formData st)))%nat eqn:Hsize.
  - right. split; [rewrite passes_validation_size; congruence|].
    eexists. split; [reflexivity|]. simpl. split; [reflexivity|]. split; [reflexivity|].
    intros f Hf. rewrite lookup_fmap. destruct (Hall f Hf) as (v & ->). reflexivity.
  - left. apply passes_validation_size in Hsize. split; [exact Hsize|].
    split; [reflexivity|]. intros env w.
    destruct (action_answers env (Client.formData st) w) as (r & w' & Hrun & _ & He).
    exists r, w'. split; [exact Hrun|].
    destruct (errors r) eqn:E; [|reflexivity].
    exfalso. apply (proj1 He); [discriminate | exact Hsize].
Qed.

Lemma client_sends_what_server_accepts_witness :
  ~ passes_validation (Client.formData Client.initialState)
  /\ exists st',
       Client.handleSubmit Client.initialState =
         (st', [Client.ToastShow (lit "Please fix the validation errors") true])
       /\ Client.errors st' = errorsOf (Client.formData Client.initialState).
Proof.
  destruct (client_sends_what_server_accepts Client.initialState) as [[Hv _] | (Hnv & st' & H)].
  - intros f Hf. simpl in Hf.
    destruct Hf as [<-|[<-|[<-|[<-|[<-|[<-|[]]]]]]]; vm_compute; eexists; reflexivity.
  - exfalso. apply passes_validation_size in Hv. vm_compute in Hv. discriminate Hv.
  - split; [exact Hnv|]. exists st'. destruct H as (H1 & _ & H2 & _). auto.
Defined.

(** ** The state of the form *)

Lemma consistent_initial : Client.consistent Client.initialState.
Proof.
  split.
  - intros f Hf. simpl in Hf.
    destruct Hf as [<-|[<-|[<-|[<-|[<-|[<-|[]]]]]]]; vm_compute; eexists; reflexivity.
  - intros f Hf. simpl in Hf. rewrite lookup_empty in Hf. discriminate.
Qed.

Lemma consistent_change (field : string) (value : jsstring) (st : Client.State) :
  Client.consistent st -> Client.consistent (Client.handleInputChange field value st).
Proof.
  intros [Hkeys Hshown]. split; simpl.
  - intros f Hf. destruct (decide (field = f)) as [->|Hne].
    + rewrite lookup_insert_eq. eauto.
    + rewrite lookup_insert_ne by exact Hne. apply Hkeys, Hf.
  - intros f Hf. unfold Client.shown. simpl.
    destruct (decide (field = f)) as [->|Hne].
    + rewrite bool_decide_eq_true_2 by exact Hf. rewrite !lookup_insert_eq. reflexivity.
    + rewrite (lookup_insert_ne (Client.formData st)) by exact Hne.
      rewrite <- (Hshown f Hf). unfold Client.shown.
      destruct (bool_decide (Client.touched st !! field = Some true));
        [rewrite lookup_insert_ne by exact Hne|]; reflexivity.
Qed.

Lemma consistent_blur (field : string) (st : Client.State) :
  Client.consistent st -> Client.consistent (Client.handleBlur field st).
Proof.
  intros [Hkeys Hshown]. split; simpl; [exact Hkeys|].
  intros f Hf. unfold Client.shown. simpl.
  destruct (decide (field = f)) as [->|Hne].
  - rewrite lookup_insert_eq. reflexivity.
  - rewrite lookup_insert_ne in Hf by exact Hne.
    rewrite lookup_insert_ne by exact Hne. apply Hshown, Hf.
Qed.

Lemma consistent_step (e : Client.event) (st : Client.State) (w : World) :
  Client.consistent st -> Client.consistent (fst (Client.step e (st, w))).
Proof.
  intros Hc. destruct e as [field value | field | env]; simpl.
  - apply consistent_change, Hc.
  - apply consistent_blur, Hc.
  - pose proof Hc as [Hkeys Hshown].
    unfold Client.handleSubmit. rewrite (newErrors_agree _ Hkeys).
    destruct (0 <? size (errorsOf (Client.formData st)))%nat eqn:Hsize.
    + simpl. split; simpl; [exact Hkeys|].
      intros f Hf. rewrite lookup_fmap in Hf. unfold Client.shown. simpl.
      rewrite rules_agree.
      destruct (Client.formData st !! f) as [v|]; [|discriminate Hf]. simpl.
      destruct (Client.validateField f (Some v)); reflexivity.
    + apply passes_validation_size in Hsize.
      destruct (action_answers env (Client.formData st) w)
        as (r & w' & -> & _ & He).
      assert (Hnone : errors r = None).
      { destruct (errors r) eqn:E; [|reflexivity].
        exfalso. apply (proj1 He); [discriminate | exact Hsize]. }
      unfold Client.handleResult, dataErrors. rewrite Hnone.
      destruct (success r); simpl; [exact consistent_initial|].
      split; simpl; assumption.
Qed.

(** X13. Whatever the user does (typing in a field, leaving a field,
    submitting, with the server answering each submission), starting from
    the initial form: the form keeps all six of its fields, and under
    every field marked as touched the component shows exactly the message
    [validateField] gives for what the field holds now, which is no
    message when the value is valid. *)
Theorem form_stays_consistent
    (events : list Client.event) (st : Client.State) (w : World) :
  Client.consistent st -> Client.consistent (fst (Client.run events (st, w))).
Proof.
  revert st w. induction events as [|e events IH]; intros st w Hc; [exact Hc|].
  pose proof (consistent_step e st w Hc) as Hstep.
  change (Client.run (e :: events) (st, w)) with (Client.run events (Client.step e (st, w))).
  destruct (Client.step e (st, w)) as [st1 w1]. apply IH, Hstep.
Qed.

Lemma form_stays_consistent_witness :
  Client.consistent
    (fst (Client.run
            [Client.Change "email" (lit "jo@acme"); Client.Blur "email";
             Client.Submit Sample.quiet; Client.Change "email" (lit "jo@acme.com")]
            (Client.initialState, Sample.emptyWorld))).
Proof.
  apply (form_stays_consistent
           [Client.Change "email" (lit "jo@acme"); Client.Blur "email";
            Client.Submit Sample.quiet; Client.Change "email" (lit "jo@acme.com")]
           Client.initialState Sample.emptyWorld).
  exact consistent_initial.
Defined.

(** ** Phone numbers with a listed country code *)

Lemma trim_fixed (s : jsstring) : keeps_head s -> keeps_head (rev s) -> trim s = s.
Proof.
  intros Hh Hl. unfold trim. rewrite (trimStart_id s Hh).
  pose proof (trimStart_id (rev s) Hl) as E. unfold trimStart in E.
  unfold trimEnd. rewrite E. apply rev_involutive.
Qed.

Lemma trim_ends (s : jsstring) : keeps_head (trim s) /\ keeps_head (rev (trim s)).
Proof.
  split.
  - apply trimEnd_head, trimStart_head.
  - unfold trim, trimEnd. rewrite rev_involutive. apply (dropWhile_head isWhiteSpace).
Qed.

Lemma listed_codes_are_dial_codes (choice : Choice.t) :
  In choice COUNTRY_CODES -> dialCode (Choice.value choice) = true.
Proof.
  assert (H : forallb (fun c => dialCode (Choice.value c)) COUNTRY_CODES = true)
    by (vm_compute; reflexivity).
  intros Hin. exact (proj1 (forallb_forall _ _) H choice Hin).
Qed.

Lemma dialCode_digits (v : jsstring) :
  dialCode v = true ->
  exists digits, v = 43 :: digits /\ (1 <= Spec41.digit_count v <= 3)%nat.
Proof.
  unfold dialCode. destruct v as [|c digits]; [discriminate|].
  rewrite !andb_true_iff, !Nat.leb_le, N.eqb_eq. intros [[[-> Hd] H1] H3].
  exists digits. split; [reflexivity|]. unfold Spec41.digit_count. simpl.
  assert (E : List.filter isDigit digits = digits).
  { clear H1 H3. induction digits as [|d ds IH]; simpl in *; [reflexivity|].
    apply andb_true_iff in Hd as [-> Hds]. rewrite (IH Hds). reflexivity. }
  rewrite E. lia.
Qed.

(** X8. With a country code of the list and a phone number that is not
    blank, a form that passes validation is stored with the phone
    [code number], the code first, one space, then the trimmed number;
    the stored phone has between 8 and 15 digits. *)
Theorem listed_code_phone_stored
    (env : Env) (formData : gmap string jsstring) (w : World)
    (choice : Choice.t) (phoneNumber : jsstring) (row : ContactForm.t) :
  In choice COUNTRY_CODES ->
  formData !! "countryCode" = Some (Choice.value choice) ->
  formData !! "phoneNumber" = Some phoneNumber ->
  trim phoneNumber <> [] ->
  passes_validation formData ->
  contactForm (snd (action env formData w)) = contactForm w ++ [row] ->
  exists stored,
    ContactForm.phone row = Some stored
    /\ stored = Choice.value choice ++ lit " " ++ trim phoneNumber
    /\ (8 <= length (List.filter isDigit stored) <= 15)%nat.
Proof.
  intros Hin Hcc Hpn Hnb Hv Hrow.
  apply action_new_row in Hrow as ->.
  destruct (dialCode_digits _ (listed_codes_are_dial_codes choice Hin)) as (ds & Ecode & Hds).
  set (stored := Choice.value choice ++ lit " " ++ trim phoneNumber).
  assert (Hph : phoneOf formData = Some stored).
  { unfold phoneOf, combinedPhone. rewrite Hcc, Hpn, Ecode.
    destruct phoneNumber as [|p pn]; [destruct Hnb; reflexivity|].
    simpl truthy. simpl andb. cbv iota. simpl interpolate. unfold stored.
    rewrite Ecode. reflexivity. }
  assert (Htrim : trim stored = stored).
  { apply trim_fixed.
    - unfold stored. rewrite Ecode. simpl. reflexivity.
    - unfold stored. rewrite !rev_app_distr.
      destruct (trim_ends phoneNumber) as [_ Hl].
      destruct (rev (trim phoneNumber)) as [|c r] eqn:E; [|exact Hl].
      apply (f_equal (@rev N)) in E. rewrite rev_involutive in E. destruct (Hnb E). }
  exists stored. split; [|split; [reflexivity|]].
  - simpl. rewrite Hph. unfold phone_or_null.
    change (trim <$> Some stored) with (Some (trim stored)). rewrite Htrim.
    unfold stored at 1. rewrite Ecode. reflexivity.
  - unfold stored. rewrite !List.filter_app, !length_app, digits_trim.
    change (length (List.filter isDigit (lit " "))) with 0%nat.
    unfold Spec41.digit_count in Hds.
    pose proof (Hv Spec41.PhoneNumber) as Hp. simpl in Hp. rewrite Hpn in Hp.
    destruct Hp as [Hp | Hp]; [destruct (Hnb Hp)|].
    unfold Spec41.digit_count in Hp. lia.
Qed.

Lemma passes_validation_withPhone :
  passes_validation (<["countryCode" := lit "+44"]> Sample.phoneWithoutCode).
Proof. apply passes_validation_size. vm_compute. reflexivity. Qed.

Lemma listed_code_phone_stored_witness :
  exists stored,
    ContactForm.phone (rowOf (<["countryCode" := lit "+44"]> Sample.phoneWithoutCode))
      = Some stored
    /\ stored = lit "+44" ++ lit " " ++ trim (lit "555-123-4567")
    /\ (8 <= length (List.filter isDigit stored) <= 15)%nat.
Proof.
  apply (listed_code_phone_stored Sample.quiet
           (<["countryCode" := lit "+44"]> Sample.phoneWithoutCode) Sample.emptyWorld
           (Choice.mk (flag 0xDDEC 0xDDE7 ++ lit " United Kingdom (+44)") (lit "+44"))
           (lit "555-123-4567")).
  - simpl. tauto.
  - reflexivity.
  - reflexivity.
  - vm_compute. discriminate.
  - exact passes_validation_withPhone.
  - vm_compute. reflexivity.
Defined.

(** X14. After a submission that the server answers with success the
    component resets the form, and a second click on submit then sends
    nothing: it makes no call and leaves the world as the first
    submission left it. *)
Theorem no_second_submission_after_success
    (st : Client.State) (w w1 : World) (env env' : Env) (r : Result) :
  Client.handleSubmit st = (st, [Client.FetcherSubmit (Client.formData st)]) ->
  action env (Client.formData st) w = (Normal r, w1) ->
  success r = true ->
  Client.step (Client.Submit env) (st, w) = (Client.initialState, w1)
  /\ snd (Client.run [Client.Submit env; Client.Submit env'] (st, w)) = w1.
Proof.
  intros Hsend Hrun Hs.
  assert (E : Client.step (Client.Submit env) (st, w) = (Client.initialState, w1)).
  { simpl. rewrite Hsend, Hrun. unfold Client.handleResult. rewrite Hs. reflexivity. }
  split; [exact E|].
  change (Client.run [Client.Submit env; Client.Submit env'] (st, w))
    with (Client.step (Client.Submit env') (Client.step (Client.Submit env) (st, w))).
  rewrite E. simpl.
  replace (Client.handleSubmit Client.initialState)
    with (Client.mkState Client.emptyForm (errorsOf Client.emptyForm)
            ((fun _ => true) <$> Client.emptyForm),
          [Client.ToastShow (lit "Please fix the validation errors") true]);
    [reflexivity|].
  unfold Client.handleSubmit. simpl Client.formData.
  rewrite newErrors_agree by (apply consistent_initial).
  replace (0 <? size (errorsOf Client.emptyForm))%nat with true by (vm_compute; reflexivity).
  reflexivity.
Qed.

Lemma no_second_submission_after_success_witness :
  let st := Client.mkState Sample.blankPhone ∅ ∅ in
  Client.step (Client.Submit Sample.quiet) (st, Sample.emptyWorld)
    = (Client.initialState, snd (action Sample.quiet Sample.blankPhone Sample.emptyWorld))
  /\ snd (Client.run [Client.Submit Sample.quiet; Client.Submit Sample.crmDown]
            (st, Sample.emptyWorld))
     = snd (action Sample.quiet Sample.blankPhone Sample.emptyWorld).
Proof.
  intros st.
  apply (no_second_submission_after_success st Sample.emptyWorld
           (snd (action Sample.quiet Sample.blankPhone Sample.emptyWorld))
           Sample.quiet Sample.crmDown successResult).
  - unfold Client.handleSubmit. simpl Client.formData.
    rewrite newErrors_agree.
    + replace (0 <? size (errorsOf Sample.blankPhone))%nat with false
        by (vm_compute; reflexivity).
      reflexivity.
    + intros f Hf. simpl in Hf.
      destruct Hf as [<-|[<-|[<-|[<-|[<-|[<-|[]]]]]]]; vm_compute; eexists; reflexivity.
  - vm_compute. reflexivity.
  - reflexivity.
Defined.

Lemma fallback_end_functional env table formData r t cs r' t' cs' :
  fallback_end env table formData r t cs ->
  fallback_end env table formData r' t' cs' ->
  r = r' /\ t = t' /\ cs = cs'.
Proof.
  destruct 1; destruct 1; unfold fallback_completes in *;
    repeat match goal with H : _ /\ _ |- _ => destruct H end;
    try congruence; repeat split; reflexivity.
Qed.

Lemma action_end_functional env table formData r t cs r' t' cs' :
  action_end env table formData r t cs ->
  action_end env table formData r' t' cs' ->
  r = r' /\ t = t' /\ cs = cs'.
Proof.
  unfold crm_configured, crm_succeeds, crm_fails.
  destruct 1 as [Hnv | Hv Hk [Hc Hcr] | r t cs Hv Hfb Hf | cause r t cs Hv Hk [Hc Hcr] Hf];
    destruct 1 as [Hnv' | Hv' Hk' [Hc' Hcr'] | r' t' cs' Hv' Hfb' Hf'
                  | cause' r' t' cs' Hv' Hk' [Hc' Hcr'] Hf'];
    try tauto; try congruence; try (destruct Hfb; congruence);
    try (destruct Hfb'; congruence);
    try (repeat split; reflexivity);
    destruct (fallback_end_functional _ _ _ _ _ _ _ _ _ Hf Hf') as (-> & -> & ->);
    repeat split; reflexivity.
Qed.

(** The answer of the handler and what it does to the table depend on
    the table alone, not on the calls made or on the console before. *)
Lemma action_table_only (env : Env) (formData : gmap string jsstring) (w1 w2 : World) :
  contactForm w1 = contactForm w2 ->
  fst (action env formData w1) = fst (action env formData w2)
  /\ contactForm (snd (action env formData w1)) = contactForm (snd (action env formData w2)).
Proof.
  intros E.
  destruct (action_ends env formData w1) as (r1 & w1' & -> & H1).
  destruct (action_ends env formData w2) as (r2 & w2' & -> & H2).
  rewrite E in H1.
  destruct (action_end_functional _ _ _ _ _ _ _ _ _ H1 H2) as (Er & Et & _).
  simpl. rewrite Er, Et. split; reflexivity.
Qed.

(** X15. A failure of the store before the row is written leaves no
    trace in the table: when the duplicate-check query throws, or when
    it answers that the email is not stored and the insert throws, the
    handler answers with the generic failure and the table is as it was.
    A retry of the same form is then answered, and changes the table,
    exactly as if the failed attempt had not been made; in particular it
    is persisted and answered with success when it gets to the fallback,
    the email is not stored yet and neither the store nor the email
    client throws. *)
Theorem store_failure_leaves_no_row
    (env : Env) (formData : gmap string jsstring) (w : World) (cause : exn) :
  passes_validation formData -> reaches_fallback env ->
  prisma_findFirst_fault env = Some cause
  \/ (prisma_findFirst_fault env = None
      /\ existing (contactForm w) (interpolate (formData !! "email")) = None
      /\ prisma_create_fault env = Some cause) ->
  exists w1,
    action env formData w = (Normal failureResult, w1)
    /\ contactForm w1 = contactForm w
    /\ forall env',
         fst (action env' formData w1) = fst (action env' formData w)
         /\ contactForm (snd (action env' formData w1))
            = contactForm (snd (action env' formData w))
         /\ (reaches_fallback env' -> fallback_completes env' ->
             existing (contactForm w) (interpolate (formData !! "email")) = None ->
             fst (action env' formData w1) = Normal successResult
             /\ contactForm (snd (action env' formData w1))
                = contactForm w ++ [rowOf formData]).
Proof.
  intros Hv Hr Hfault.
  destruct (action_reaches_fallback env formData w Hv Hr) as (cs & es & E & _).
  assert (Hrun : exists cs' es',
            guardedFallback env formData (after w (contactForm w) cs es) =
              (Normal failureResult,
               after (after w (contactForm w) cs es) (contactForm w) cs' es')).
  { destruct Hfault as [Hf | (Hf & Hex & Hc)].
    - eexists _, _. exact (guardedFallback_findFirst_throws env formData
                             (after w (contactForm w) cs es) Hv cause Hf).
    - eexists _, _. exact (guardedFallback_create_throws env formData
                             (after w (contactForm w) cs es) Hv cause Hf Hex Hc). }
  destruct Hrun as (cs' & es' & Hrun). rewrite Hrun in E.
  set (w1 := after (after w (contactForm w) cs es) (contactForm w) cs' es') in *.
  exists w1. split; [exact E|]. split; [reflexivity|].
  intros env'.
  destruct (action_table_only env' formData w1 w eq_refl) as [Hres Htab].
  split; [exact Hres|]. split; [exact Htab|].
  intros Hr' Hc' Hex. rewrite Hres, Htab.
  destruct (action_reaches_fallback env' formData w Hv Hr') as (cs2 & es2 & E2 & _).
  rewrite E2.
  rewrite (guardedFallback_completes env' formData (after w (contactForm w) cs2 es2)
             Hv Hc' Hex).
  split; reflexivity.
Qed.

Lemma store_failure_leaves_no_row_witness :
  exists w1,
    action Sample.storeDown Sample.jo Sample.emptyWorld = (Normal failureResult, w1)
    /\ contactForm w1 = contactForm Sample.emptyWorld
    /\ fst (action Sample.crmDown Sample.jo w1) = Normal successResult
    /\ contactForm (snd (action Sample.crmDown Sample.jo w1))
       = contactForm Sample.emptyWorld ++ [rowOf Sample.jo].
Proof.
  destruct (store_failure_leaves_no_row Sample.storeDown Sample.jo Sample.emptyWorld
              (Error "P1001")) as (w1 & Hrun & Htable & Hretry).
  - exact passes_validation_jo.
  - left. reflexivity.
  - left. reflexivity.
  - exists w1. split; [exact Hrun|]. split; [exact Htable|].
    destruct (Hretry Sample.crmDown) as (_ & _ & Hgood).
    apply Hgood; [right; right; discriminate | repeat split; reflexivity | reflexivity].
Defined.

(** X16. The [errors] mapping of an answer names only the five validated
    fields, never [countryCode]; each message in it is one of the
    messages of its field and is not empty; and an answer that carries
    the mapping has made no call and changed nothing. *)
Theorem errors_mapping_shape
    (env : Env) (formData : gmap string jsstring) (w w' : World) (r : Result)
    (errs : gmap string jsstring) :
  action env formData w = (Normal r, w') ->
  errors r = Some errs ->
  w' = w /\ success r = false /\ errs = errorsOf formData
  /\ (exists field, is_Some (errs !! field))
  /\ forall field m, errs !! field = Some m ->
       m <> [] /\ exists f, field = Spec41.name f /\ In m (messages f).
Proof.
  intros Hrun Herrs.
  destruct (action_answers env formData w) as (r0 & w0 & Hrun0 & _ & He).
  rewrite Hrun in Hrun0. injection Hrun0 as <- <-.
  assert (Hnv : ~ passes_validation formData) by (apply He; congruence).
  assert (Hsize : (0 <? size (errorsOf formData))%nat = true).
  { destruct (0 <? size (errorsOf formData))%nat eqn:E; [reflexivity|].
    apply passes_validation_size in E. destruct (Hnv E). }
  rewrite (action_invalid env formData w Hsize) in Hrun. injection Hrun as <- <-.
  simpl in Herrs. injection Herrs as <-.
  split; [reflexivity|]. split; [reflexivity|]. split; [reflexivity|].
  split.
  - apply errorsOf_size in Hsize as (f & Hf). exists (Spec41.name f).
    apply errorsOf_is_Some, Hf.
  - intros field m Hm. pose proof Hm as Hm'.
    rewrite rules_agree in Hm'. cbv zeta in Hm'.
    destruct (Client.validateField field (formData !! field)) as [|c t] eqn:E;
      [discriminate Hm'|].
    simpl in Hm'. injection Hm' as <-. split; [discriminate|].
    assert (Hf : exists f, field = Spec41.name f).
    { destruct (decide (field = "firstName")) as [->|H1]; [exists Spec41.FirstName; reflexivity|].
      destruct (decide (field = "lastName")) as [->|H2]; [exists Spec41.LastName; reflexivity|].
      destruct (decide (field = "email")) as [->|H3]; [exists Spec41.Email; reflexivity|].
      destruct (decide (field = "phoneNumber")) as [->|H4];
        [exists Spec41.PhoneNumber; reflexivity|].
      destruct (decide (field = "questions")) as [->|H5];
        [exists Spec41.Questions; reflexivity|].
      exfalso. revert Hm. unfold errorsOf, validation.
      rewrite check_questions_other, check_phoneNumber_other, check_email_other,
        check_lastName_other, check_firstName_other, lookup_empty by assumption.
      discriminate. }
    destruct Hf as (f & ->). exists f. split; [reflexivity|].
    exact (errorsOf_Some f formData _ Hm).
Qed.

Lemma errors_mapping_shape_witness :
  exists field, is_Some (errorsOf Sample.manyErrors !! field).
Proof.
  destruct (errors_mapping_shape Sample.crmDown Sample.manyErrors Sample.emptyWorld
              Sample.emptyWorld (invalidResult (errorsOf Sample.manyErrors))
              (errorsOf Sample.manyErrors)) as (_ & _ & _ & H & _).
  - apply action_invalid. vm_compute. reflexivity.
  - reflexivity.
  - exact H.
Defined.


(** * The claims on what the fallback leaves behind *)

(** C3, as stated, fails in four ways, each with a valid form, the
    credential configured, the create-contact call failing and an empty
    table.  When the email send throws, the row is created and the email
    attempted, but the answer is the generic failure.  When there is no
    key for the email client, the row is created and no email is
    attempted.  When the duplicate-check query or the insert throws, no
    row is created and no email attempted. *)
Lemma crm_failure_then_mail_failure :
  passes_validation Sample.jo
  /\ existing (contactForm Sample.emptyWorld) (lit "jo@acme.com") = None
  /\ (crm_configured Sample.crmAndMailDown
      /\ crm_fails Sample.crmAndMailDown (Error "HTTP 401")
      /\ exists w',
           action Sample.crmAndMailDown Sample.jo Sample.emptyWorld
             = (Normal failureResult, w')
           /\ success failureResult = false
           /\ contactForm w' = [rowOf Sample.jo]
           /\ new_calls Sample.emptyWorld w' =
                [HubspotCreate (propertiesOf Sample.jo); findCall Sample.jo;
                 PrismaCreate (rowOf Sample.jo); ResendSend (mailOf Sample.jo)])
  /\ (crm_configured Sample.crmDownNoMailKey
      /\ crm_fails Sample.crmDownNoMailKey (Error "HTTP 401")
      /\ exists w',
           action Sample.crmDownNoMailKey Sample.jo Sample.emptyWorld
             = (Normal failureResult, w')
           /\ contactForm w' = [rowOf Sample.jo]
           /\ new_calls Sample.emptyWorld w' =
                [HubspotCreate (propertiesOf Sample.jo); findCall Sample.jo;
                 PrismaCreate (rowOf Sample.jo)])
  /\ (crm_configured Sample.crmAndInsertDown
      /\ crm_fails Sample.crmAndInsertDown (Error "HTTP 401")
      /\ exists w',
           action Sample.crmAndInsertDown Sample.jo Sample.emptyWorld
             = (Normal failureResult, w')
           /\ contactForm w' = []
           /\ new_calls Sample.emptyWorld w' =
                [HubspotCreate (propertiesOf Sample.jo); findCall Sample.jo;
                 PrismaCreate (rowOf Sample.jo)])
  /\ (crm_configured Sample.crmAndStoreDown
      /\ crm_fails Sample.crmAndStoreDown (Error "HTTP 401")
      /\ exists w',
           action Sample.crmAndStoreDown Sample.jo Sample.emptyWorld
             = (Normal failureResult, w')
           /\ contactForm w' = []
           /\ new_calls Sample.emptyWorld w' =
                [HubspotCreate (propertiesOf Sample.jo); findCall Sample.jo]).
Proof.
  split; [exact passes_validation_jo|]. split; [reflexivity|].
  repeat split; try reflexivity;
    (eexists; split; [vm_compute; reflexivity|]; repeat split; vm_compute; reflexivity).
Qed.

(** C3, amended. On a form that passes validation, with a CRM credential
    configured, the create-contact call failing, the email not stored yet
    and neither the duplicate-check query nor the insert throwing, the
    handler creates exactly one row.  It attempts exactly one notification
    email when the email client can be built, and none otherwise.  It
    answers with the success result exactly when the email client is
    built and the send returns, and with the generic failure otherwise. *)
Theorem crm_failure_falls_back
    (env : Env) (formData : gmap string jsstring) (w : World) (cause : exn) :
  passes_validation formData -> crm_configured env -> crm_fails env cause ->
  existing (contactForm w) (interpolate (formData !! "email")) = None ->
  prisma_findFirst_fault env = None -> prisma_create_fault env = None ->
  exists r w',
    action env formData w = (Normal r, w')
    /\ contactForm w' = contactForm w ++ [rowOf formData]
    /\ (exists mails,
          new_calls w w' =
            [HubspotCreate (propertiesOf formData); findCall formData;
             PrismaCreate (rowOf formData)] ++ mails
          /\ (resend_Resend_fault env = None -> mails = [ResendSend (mailOf formData)])
          /\ (resend_Resend_fault env <> None -> mails = []))
    /\ (r = mkResult true
              (lit "Form submitted successfully! Our team will contact you soon.") None
        <-> resend_Resend_fault env = None /\ resend_send_fault env = None)
    /\ (r <> mkResult true
               (lit "Form submitted successfully! Our team will contact you soon.") None
        -> r = mkResult false (lit "Failed to submit form. Please try again later.") None).
Proof.
  intros Hv Hk Hfail Hex Hf Hc.
  destruct results_distinct as (_ & _ & Hfs & _).
  rewrite (action_create_throws env formData w Hv cause Hk Hfail).
  set (w0 := after w (contactForm w) [HubspotCreate (propertiesOf formData)]
               [attemptLog; hubspotFailureLog cause]).
  assert (Hex0 : existing (contactForm w0) (interpolate (formData !! "email")) = None)
    by exact Hex.
  fold successResult failureResult.
  destruct (resend_Resend_fault env) as [e|] eqn:Hr.
  - rewrite (guardedFallback_Resend_throws env formData w0 Hv e Hf Hex0 Hc Hr).
    eexists _, _. split; [reflexivity|]. unfold w0. rewrite after_after, new_calls_after.
    split; [reflexivity|]. split; [|split].
    + exists []. split; [reflexivity|]. split; [discriminate | reflexivity].
    + split; [intros E; destruct (Hfs E) | intros [E _]; discriminate E].
    + reflexivity.
  - destruct (resend_send_fault env) as [e|] eqn:Hs.
    + rewrite (guardedFallback_send_throws env formData w0 Hv e Hf Hex0 Hc Hr Hs).
      eexists _, _. split; [reflexivity|]. unfold w0. rewrite after_after, new_calls_after.
      split; [reflexivity|]. split; [|split].
      * exists [ResendSend (mailOf formData)].
        split; [reflexivity|]. split; [reflexivity | intros E; destruct (E eq_refl)].
      * split; [intros E; destruct (Hfs E) | intros [_ E]; discriminate E].
      * reflexivity.
    + rewrite (guardedFallback_completes env formData w0 Hv
                 (conj Hf (conj Hc (conj Hr Hs))) Hex0).
      eexists _, _. split; [reflexivity|]. unfold w0. rewrite after_after, new_calls_after.
      split; [reflexivity|]. split; [|split].
      * exists [ResendSend (mailOf formData)].
        split; [reflexivity|]. split; [reflexivity | intros E; destruct (E eq_refl)].
      * split; [auto | reflexivity].
      * intros E. destruct (E eq_refl).
Qed.

Lemma crm_failure_falls_back_witness :
  exists w',
    action Sample.crmDown Sample.jo Sample.emptyWorld = (Normal successResult, w')
    /\ contactForm w' = contactForm Sample.emptyWorld ++ [rowOf Sample.jo]
    /\ new_calls Sample.emptyWorld w' =
         [HubspotCreate (propertiesOf Sample.jo); findCall Sample.jo;
          PrismaCreate (rowOf Sample.jo); ResendSend (mailOf Sample.jo)].
Proof.
  destruct (crm_failure_falls_back Sample.crmDown Sample.jo Sample.emptyWorld
              (Error "HTTP 401"))
    as (r & w' & Hrun & Htable & (mails & Hcalls & Hmail & _) & Hiff & _).
  - exact passes_validation_jo.
  - reflexivity.
  - split; reflexivity.
  - reflexivity.
  - reflexivity.
  - reflexivity.
  - exists w'. rewrite (proj2 Hiff (conj eq_refl eq_refl)) in Hrun.
    rewrite (Hmail eq_refl) in Hcalls. auto.
Defined.

Lemma fallback_end_existing env table formData r t cs :
  fallback_end env table formData r t cs ->
  existing table (interpolate (formData !! "email")) <> None ->
  t = table
  /\ (prisma_findFirst_fault env = None -> r = duplicateResult)
  /\ (prisma_findFirst_fault env <> None -> r = failureResult).
Proof.
  destruct 1 as [e Hf | row Hf Hex | e Hf Hex Hc | e Hf Hex Hc Hr | e Hf Hex Hc Hr Hs
                | (Hf & Hc & Hr & Hs) Hex]; intros Hne; try congruence.
  - split; [reflexivity|]. split; [congruence | reflexivity].
  - split; [reflexivity|]. split; [reflexivity | congruence].
Qed.

(** A valid submission whose email is in the table changes no row,
    whatever the outside services do; it is rejected as a duplicate
    exactly when it gets to the fallback and the duplicate check
    answers. *)
Lemma stored_email_submitted_again
    (env : Env) (formData : gmap string jsstring) (w : World) :
  passes_validation formData ->
  existing (contactForm w) (interpolate (formData !! "email")) <> None ->
  exists r w',
    action env formData w = (Normal r, w')
    /\ contactForm w' = contactForm w
    /\ (r = duplicateResult <-> reaches_fallback env /\ prisma_findFirst_fault env = None)
    /\ (reaches_fallback env -> prisma_findFirst_fault env <> None -> r = failureResult).
Proof.
  intros Hv Hex.
  destruct results_distinct as (Hdf & Hds & Hfs & _).
  destruct (action_ends env formData w) as (r & w' & Hrun & Hend).
  exists r, w'. split; [exact Hrun|].
  destruct Hend as [Hnv | _ Hk Hs | r t cs _ Hfb Hf | cause r t cs _ Hk Hfail Hf].
  - destruct (Hnv Hv).
  - assert (Hnr : ~ reaches_fallback env)
      by (rewrite reaches_fallback_cases; tauto).
    split; [reflexivity|]. split; [split; [congruence | tauto] | tauto].
  - destruct (fallback_end_existing _ _ _ _ _ _ Hf Hex) as (-> & Hd & Hfl).
    assert (Hr : reaches_fallback env).
    { destruct Hfb as [H|H]; [left; unfold crm_configured in H;
                               destruct (truthy (HUBSPOT_API_KEY env)); congruence
                             | right; left; exact H]. }
    split; [reflexivity|]. split; [|auto].
    split; [|tauto]. intros ->. split; [exact Hr|].
    destruct (prisma_findFirst_fault env) eqn:E; [|reflexivity].
    assert (duplicateResult = failureResult) by (apply Hfl; discriminate). congruence.
  - destruct (fallback_end_existing _ _ _ _ _ _ Hf Hex) as (-> & Hd & Hfl).
    assert (Hr : reaches_fallback env).
    { right. right. destruct Hfail as [_ H]. congruence. }
    split; [reflexivity|]. split; [|auto].
    split; [|tauto]. intros ->. split; [exact Hr|].
    destruct (prisma_findFirst_fault env) eqn:E; [|reflexivity].
    assert (duplicateResult = failureResult) by (apply Hfl; discriminate). congruence.
Qed.

(** C10, as stated, fails on the resubmission: after a first attempt with
    the CRM and the email send down, which leaves the row in the table, a
    resubmission of the same form is answered with success when the CRM
    is back, and with the generic failure when the duplicate-check query
    throws; in neither case is it rejected as a duplicate. *)
Lemma resubmission_not_always_duplicate :
  exists w1,
    action Sample.crmAndMailDown Sample.jo Sample.emptyWorld = (Normal failureResult, w1)
    /\ contactForm w1 = [rowOf Sample.jo]
    /\ fst (action (Sample.withKey Sample.quiet) Sample.jo w1) = Normal successResult
    /\ fst (action Sample.storeDown Sample.jo w1) = Normal failureResult
    /\ successResult <> duplicateResult /\ failureResult <> duplicateResult.
Proof.
  eexists. split; [vm_compute; reflexivity|].
  split; [reflexivity|]. split; [vm_compute; reflexivity|].
  split; [vm_compute; reflexivity|].
  destruct results_distinct as (Hdf & Hds & _). split; congruence.
Qed.

(** C10, amended. The fallback path is not atomic.  When the email client
    throws after the insert, the handler answers with the generic failure
    while the row stays in the table.  A later submission with the same
    email (also one that differs by case or padding) then adds no second
    row and changes none, whatever the outside services do, and it is
    rejected as a duplicate exactly when it gets to the fallback path and
    its duplicate-check query answers. *)
Theorem failed_email_leaves_row
    (env : Env) (formData : gmap string jsstring) (w : World) (cause : exn) :
  passes_validation formData -> reaches_fallback env ->
  prisma_findFirst_fault env = None ->
  existing (contactForm w) (interpolate (formData !! "email")) = None ->
  prisma_create_fault env = None ->
  email_fails env cause ->
  exists w1,
    action env formData w =
      (Normal (mkResult false (lit "Failed to submit form. Please try again later.") None),
       w1)
    /\ contactForm w1 = contactForm w ++ [rowOf formData]
    /\ forall (env' : Env) (formData' : gmap string jsstring),
         passes_validation formData' ->
         same_modulo_case_and_padding
           (interpolate (formData !! "email")) (interpolate (formData' !! "email")) ->
         exists r w2,
           action env' formData' w1 = (Normal r, w2)
           /\ contactForm w2 = contactForm w1
           /\ (r = mkResult false
                     (lit "A submission with this email already exists. Please use a different email or contact support.")
                     None
               <-> reaches_fallback env' /\ prisma_findFirst_fault env' = None).
Proof.
  intros Hv Hr Hf Hex Hc Hmail.
  destruct (action_reaches_fallback env formData w Hv Hr) as (cs & es & E & _).
  assert (Hrun : exists cs', guardedFallback env formData (after w (contactForm w) cs es) =
            (Normal failureResult,
             after (after w (contactForm w) cs es) (contactForm w ++ [rowOf formData]) cs'
               [fallbackLog; failureLog cause])).
  { destruct Hmail as [Hm | [Hm Hs]].
    - eexists. exact (guardedFallback_Resend_throws env formData
                        (after w (contactForm w) cs es) Hv cause Hf Hex Hc Hm).
    - eexists. exact (guardedFallback_send_throws env formData
                        (after w (contactForm w) cs es) Hv cause Hf Hex Hc Hm Hs). }
  destruct Hrun as (cs' & Hrun). rewrite Hrun in E.
  set (w1 := after (after w (contactForm w) cs es) (contactForm w ++ [rowOf formData]) cs'
               [fallbackLog; failureLog cause]) in *.
  exists w1. split; [exact E|]. split; [reflexivity|].
  intros env' formData' Hv' Hsame.
  destruct (stored_email_submitted_again env' formData' w1 Hv') as (r & w2 & H1 & H2 & H3 & _);
    [|exists r, w2; auto].
  simpl. rewrite existing_None. intros Hnone.
  apply (Hnone (rowOf formData)).
  - apply in_or_app. right. left. reflexivity.
  - simpl. apply same_modulo_normalizedEmail, Hsame.
Qed.

Lemma failed_email_leaves_row_witness :
  exists w1,
    action Sample.mailDown Sample.jo Sample.emptyWorld = (Normal failureResult, w1)
    /\ contactForm w1 = contactForm Sample.emptyWorld ++ [rowOf Sample.jo]
    /\ exists w2,
         action Sample.crmDown Sample.joAgain w1 = (Normal duplicateResult, w2)
         /\ contactForm w2 = contactForm w1.
Proof.
  destruct (failed_email_leaves_row Sample.mailDown Sample.jo Sample.emptyWorld
              (Error "Missing API key")) as (w1 & Hrun & Htable & Hnext).
  - exact passes_validation_jo.
  - left. reflexivity.
  - reflexivity.
  - reflexivity.
  - reflexivity.
  - left. reflexivity.
  - exists w1. split; [exact Hrun|]. split; [exact Htable|].
    destruct (Hnext Sample.crmDown Sample.joAgain passes_validation_joAgain
                jo_joAgain_same_email) as (r & w2 & Hrun2 & Htable2 & Hiff).
    exists w2. split; [|exact Htable2].
    rewrite Hrun2. f_equal. f_equal. apply Hiff.
    split; [right; right; discriminate | reflexivity].
Defined.

(** C1, as stated, fails when the duplicate-check query of the later
    submission throws: the first submission is persisted, the second has
    the same email up to case and padding, passes validation and is
    handled by the fallback path, yet it ends with the generic failure
    and not with the duplicate rejection. *)
Lemma duplicate_check_failure_hides_duplicate :
  let w1 := snd (action Sample.quiet Sample.jo Sample.emptyWorld) in
  contactForm w1 = [rowOf Sample.jo]
  /\ same_modulo_case_and_padding
       (interpolate (Sample.jo !! "email")) (interpolate (Sample.joAgain !! "email"))
  /\ passes_validation Sample.joAgain
  /\ reaches_fallback Sample.storeDown
  /\ fst (submissions [(Sample.quiet, Sample.jo); (Sample.storeDown, Sample.joAgain)]
            Sample.emptyWorld)
     = [Normal successResult; Normal failureResult]
  /\ failureResult <> duplicateResult.
Proof.
  intros w1. split; [vm_compute; reflexivity|].
  split; [exact jo_joAgain_same_email|]. split; [exact passes_validation_joAgain|].
  split; [left; reflexivity|]. split; [vm_compute; reflexivity|].
  destruct results_distinct as (Hdf & _). congruence.
Qed.

(** C1, amended. Over any sequence of submissions handled one after the
    other, starting from a table the handler has written, the table keeps
    at most one row per email address up to case and surrounding white
    space.  Once a submission has been persisted, a later submission
    whose email differs from it only by case or by leading and trailing
    white space, and which the fallback path handles, adds no row and
    changes none; it ends with the duplicate rejection when its
    duplicate-check query answers, and with the generic failure when
    that query throws. *)
Theorem at_most_one_row_per_email
    (requests : list (Env * gmap string jsstring)) (w : World) :
  normalized_rows (contactForm w) -> one_row_per_email (contactForm w) ->
  one_row_per_email (contactForm (snd (submissions requests w)))
  /\ forall before env1 formData1 between env2 formData2 later,
       requests = before ++ (env1, formData1) :: between ++ (env2, formData2) :: later ->
       let w1 := snd (submissions before w) in
       let w2 := snd (action env1 formData1 w1) in
       let w3 := snd (submissions between w2) in
       contactForm w2 <> contactForm w1 ->
       same_modulo_case_and_padding
         (interpolate (formData1 !! "email")) (interpolate (formData2 !! "email")) ->
       passes_validation formData2 -> reaches_fallback env2 ->
       exists r w4,
         action env2 formData2 w3 = (Normal r, w4)
         /\ contactForm w4 = contactForm w3
         /\ (prisma_findFirst_fault env2 = None ->
             r = mkResult false
                   (lit "A submission with this email already exists. Please use a different email or contact support.")
                   None)
         /\ (prisma_findFirst_fault env2 <> None ->
             r = mkResult false (lit "Failed to submit form. Please try again later.") None).
Proof.
  intros Hn Hu. split; [apply submissions_keep_one_row_per_email; assumption|].
  intros before env1 formData1 between env2 formData2 later _ w1 w2 w3
    Hstored Hsame Hv Hr.
  destruct (stored_email_submitted_again env2 formData2 w3 Hv)
    as (r & w4 & Hrun & Htable & Hiff & Hfail).
  - destruct (action_table env1 formData1 w1) as [E | (_ & _ & E)];
      [destruct (Hstored E)|].
    destruct (submissions_table between w2) as (more & Hmore).
    fold w2 in E. fold w3 in Hmore. rewrite Hmore, E.
    apply existing_app.
    rewrite existing_None. intros Hnone.
    apply (Hnone (rowOf formData1)).
    + apply in_or_app. right. left. reflexivity.
    + simpl. apply same_modulo_normalizedEmail, Hsame.
  - exists r, w4. split; [exact Hrun|]. split; [exact Htable|].
    split; [intros Hf; apply Hiff; auto | intros Hf; apply Hfail; assumption].
Qed.

Lemma at_most_one_row_per_email_witness :
  let requests := [(Sample.quiet, Sample.jo); (Sample.crmDown, Sample.notAnEmail);
                   (Sample.crmDown, Sample.joAgain)] in
  let w3 := snd (submissions [(Sample.quiet, Sample.jo); (Sample.crmDown, Sample.notAnEmail)]
                   Sample.emptyWorld) in
  one_row_per_email (contactForm (snd (submissions requests Sample.emptyWorld)))
  /\ exists w4,
       action Sample.crmDown Sample.joAgain w3 = (Normal duplicateResult, w4)
       /\ contactForm w4 = contactForm w3.
Proof.
  intros requests w3.
  destruct (at_most_one_row_per_email requests Sample.emptyWorld) as [Hone Hdup].
  - constructor.
  - intros i j row1 row2 Hi. destruct i; discriminate Hi.
  - split; [exact Hone|].
    destruct (Hdup [] Sample.quiet Sample.jo [(Sample.crmDown, Sample.notAnEmail)]
                Sample.crmDown Sample.joAgain [])
      as (r & w4 & Hrun & Htable & Hd & _).
    + reflexivity.
    + vm_compute. discriminate.
    + exact jo_joAgain_same_email.
    + exact passes_validation_joAgain.
    + right. right. discriminate.
    + exists w4. split; [|exact Htable].
      rewrite (Hd eq_refl) in Hrun. exact Hrun.
Defined.
